(** * git-karaoke-api: caching gateway, context trimming, chunking and
      callback reconciliation

    A shallow embedding of the orchestration and caching layer of the
    karaoke API (GithubService, SunoService, UploadService,
    AIService.adjustContent, KaraokeService) together with the properties
    its specification states.

    Conventions.
    - JavaScript text is a [string] of UTF-8 bytes, as [crypto] hashes it
      and the JSON serializer writes it; its [length] is counted in UTF-16
      code units ([code_units]).  Text that is only measured and sliced
      ([chunkTextByTokens], [adjustContent]) is a list of code units over an
      arbitrary character type.
    - A JavaScript number is an integer [Z]; an integer of 10^21 or more
      stands for a double and is printed in exponent form.  The 32-bit
      words of MD5 are [Z] with the wrap-around written out.
    - Prisma tables are finite maps keyed by their unique column
      ([request_hash], [service]) or creation-ordered lists (songs, audio
      files, repositories, attachments).
    - Asynchronous code is sequenced: every [await] is a step of a state and
      exception monad over the [World].  Time passes while a request or an
      upload to the object store is awaited.
    - Console lines are kept by level and text, without the pictograph and
      the class tag that open them in the source; an error object is
      printed as its message; lines that only dump a value for debugging
      are left out. *)

From Stdlib Require Import ZArith Ascii DecimalString Lia Sorted.
From stdpp Require Import gmap strings list.

Local Open Scope Z_scope.
Set Warnings "-register-all".

(* ===================================================================== *)
(** ** JavaScript values and [JSON.stringify]                             *)
(* ===================================================================== *)

Module JS.

(** The JSON-serializable fragment of JavaScript values that the request
    parameters of this service use.  The property list of [JObj] is in
    own-property enumeration order, which for non-numeric keys is the
    order in which the properties were written. *)
Inductive JsValue : Type :=
| JUndefined
| JNull
| JBool (b : bool)
| JNum (n : Z)
| JStr (s : string)
| JArr (items : list JsValue)
| JObj (props : list (string * JsValue)).

Definition hex_digit (n : N) : ascii :=
  ascii_of_N (if (n <? 10)%N then 48 + n else 87 + n)%N.

Definition dquote : ascii := ascii_of_N 34.
Definition backslash : ascii := ascii_of_N 92.

(** [QuoteJSONString]: one code unit. *)
Definition quote_char (c : ascii) : string :=
  let n := N_of_ascii c in
  if (n =? 34)%N then String backslash (String dquote "")
  else if (n =? 92)%N then String backslash (String backslash "")
  else if (n =? 8)%N then String backslash "b"
  else if (n =? 12)%N then String backslash "f"
  else if (n =? 10)%N then String backslash "n"
  else if (n =? 13)%N then String backslash "r"
  else if (n =? 9)%N then String backslash "t"
  else if (n <? 32)%N then
    String backslash
      ("u00" +:+ String (hex_digit (n / 16)) (String (hex_digit (n mod 16)) ""))
  else String c "".

Fixpoint quote_body (s : string) : string :=
  match s with
  | EmptyString => ""
  | String c r => quote_char c +:+ quote_body r
  end.

Definition quote (s : string) : string :=
  String dquote (quote_body s) +:+ String dquote "".

Definition decimal (n : Z) : string :=
  NilZero.string_of_int (Z.to_int n).

Fixpoint strip_zeros (s : string) : string :=
  match s with
  | EmptyString => EmptyString
  | String c r =>
      let r' := strip_zeros r in
      if Ascii.eqb c "0" && String.eqb r' "" then EmptyString
      else String c r'
  end.

(** The shortest digits that read back as the double [x]: the first
    number [k] of digits for which a multiple [s * 10 ^ (e - k)] lies in
    the interval [low .. high] of the decimals that round to [x], and of
    the two multiples next to [x] the nearer one, the even one on a
    tie. *)
Fixpoint shortest_digits (left : nat) (k x e low high : Z) (closed : bool)
    : Z * Z :=
  match left with
  | O => (x, e)
  | S left' =>
      let scale := 10 ^ (e - k) in
      let q := x / scale in
      let inside v :=
        if closed then (low <=? v) && (v <=? high)
        else (low <? v) && (v <? high) in
      let below := x - q * scale in
      let above := (q + 1) * scale - x in
      if inside (q * scale) && inside ((q + 1) * scale) then
        (if below <? above then q
         else if above <? below then q + 1
         else if Z.even q then q else q + 1, k)
      else if inside (q * scale) then (q, k)
      else if inside ((q + 1) * scale) then (q + 1, k)
      else shortest_digits left' (k + 1) x e low high closed
  end.

(** [Number::toString] for an integer of 10^21 or more, which stands
    for a double: its shortest digits in exponent form. *)
Definition exponent_form (x : Z) : string :=
  let e := Z.of_nat (String.length (decimal x)) in
  let ulp := 2 ^ (Z.log2 x - 52) in
  let low := x - (if x =? 2 ^ Z.log2 x then ulp / 4 else ulp / 2) in
  let high := x + ulp / 2 in
  let '(s, k) := shortest_digits 17 1 x e low high (Z.even (x / ulp)) in
  let exponent :=
    if k <? Z.of_nat (String.length (decimal s)) then e else e - 1 in
  match strip_zeros (decimal s) with
  | String d rest =>
      String d (if String.eqb rest "" then "" else "." +:+ rest)
        +:+ "e+" +:+ decimal exponent
  | EmptyString => "0"
  end.

(** [Number::toString] for an integer: decimal below 10^21, exponent
    form from there. *)
Definition number_to_string (n : Z) : string :=
  if Z.abs n <? 10 ^ 21 then decimal n
  else (if n <? 0 then "-" else "") +:+ exponent_form (Z.abs n).

(** [JSON.stringify(v)]; [None] is JavaScript's [undefined].  Properties
    whose value is [undefined] are skipped, array holes print as null, and
    properties are written in the order of the property list. *)
Fixpoint JSON_stringify (v : JsValue) : option string :=
  match v with
  | JUndefined => None
  | JNull => Some "null"
  | JBool b => Some (if b then "true" else "false")
  | JNum n => Some (number_to_string n)
  | JStr s => Some (quote s)
  | JArr items =>
      Some ("[" +:+
            String.concat ","
              (map (fun x => default "null" (JSON_stringify x)) items)
            +:+ "]")
  | JObj props =>
      Some ("{" +:+
            String.concat ","
              (omap (fun kv => (fun t => quote (fst kv) +:+ ":" +:+ t)
                                 <$> JSON_stringify (snd kv)) props)
            +:+ "}")
  end.

(** A template literal prints [undefined] by name. *)
Definition template (o : option string) : string := default "undefined" o.

(** [s.length]: the number of UTF-16 code units of a text given by its
    UTF-8 bytes.  The byte that starts a character of one, two or three
    bytes counts one unit, the byte that starts a character of four bytes
    counts two (a surrogate pair), a continuation byte counts none. *)
Definition units_of_byte (c : ascii) : nat :=
  let n := N_of_ascii c in
  if (n <? 128)%N then 1%nat
  else if (n <? 192)%N then 0%nat
  else if (n <? 240)%N then 1%nat
  else 2%nat.

Fixpoint code_units (s : string) : nat :=
  match s with
  | EmptyString => 0%nat
  | String c r => (units_of_byte c + code_units r)%nat
  end.

Definition is_continuation (c : ascii) : bool :=
  let n := N_of_ascii c in (128 <=? n)%N && (n <? 192)%N.

(** The characters (code points) of a text, each with its bytes: what
    iterating over a string yields. *)
Fixpoint code_points (s : string) : list string :=
  match s with
  | EmptyString => []
  | String c r =>
      match code_points r with
      | first :: rest =>
          if match r with
             | String c' _ => is_continuation c'
             | EmptyString => false
             end
          then String c first :: rest
          else String c "" :: first :: rest
      | [] => [String c ""]
      end
  end.

(** The first code unit of a character: the character itself, or the
    high surrogate of a character of four bytes, written like a character
    of three bytes. *)
Definition first_unit (character : string) : string :=
  match character with
  | String b0 (String b1 (String b2 (String b3 EmptyString))) =>
      let cp := ((N_of_ascii b0 mod 8) * 262144 + (N_of_ascii b1 mod 64) * 4096
                 + (N_of_ascii b2 mod 64) * 64 + N_of_ascii b3 mod 64)%N in
      let high := (55296 + (cp - 65536) / 1024)%N in
      String (ascii_of_N 237)
        (String (ascii_of_N (128 + (high / 64) mod 64))
           (String (ascii_of_N (128 + high mod 64)) EmptyString))
  | _ => character
  end.

(** [ToBoolean]. *)
Definition truthy (v : JsValue) : bool :=
  match v with
  | JUndefined | JNull => false
  | JBool b => b
  | JNum n => negb (n =? 0)
  | JStr s => negb (String.eqb s "")
  | JArr _ | JObj _ => true
  end.

(** Property read [v.key]; [None] is the TypeError of reading a property
    of [null] or [undefined].  Of the built-in properties only [length]
    and the index [0] are read by this code base; the index [0] of a text
    is its first code unit. *)
Definition get (v : JsValue) (key : string) : option JsValue :=
  match v with
  | JUndefined | JNull => None
  | JObj props =>
      Some (default JUndefined
              (snd <$> find (fun kv => String.eqb (fst kv) key) props))
  | JArr items =>
      Some (if String.eqb key "length" then JNum (Z.of_nat (length items))
            else if String.eqb key "0" then hd JUndefined items
            else JUndefined)
  | JStr t =>
      Some (if String.eqb key "length" then JNum (Z.of_nat (code_units t))
            else if String.eqb key "0" then
              match code_points t with
              | character :: _ => JStr (first_unit character)
              | [] => JUndefined
              end
            else JUndefined)
  | JBool _ | JNum _ => Some JUndefined
  end.

(** Optional chaining [v?.key]. *)
Definition get_opt (v : JsValue) (key : string) : JsValue :=
  default JUndefined (get v key).

(** [a || b]. *)
Definition or_else (a b : JsValue) : JsValue := if truthy a then a else b.

(** [String(v)], as a template literal or [console] prints a value. *)
Fixpoint to_string (v : JsValue) : string :=
  match v with
  | JUndefined => "undefined"
  | JNull => "null"
  | JBool b => if b then "true" else "false"
  | JNum n => number_to_string n
  | JStr t => t
  | JArr items =>
      String.concat ","
        (map (fun x => match x with
                       | JUndefined | JNull => ""
                       | _ => to_string x
                       end) items)
  | JObj _ => "[object Object]"
  end.

(** [v === 'literal']. *)
Definition is_string (v : JsValue) (literal : string) : bool :=
  match v with JStr t => String.eqb t literal | _ => false end.

Definition type_error_message (v : JsValue) (key : string) : string :=
  "Cannot read properties of "
    +:+ (match v with JNull => "null" | _ => "undefined" end)
    +:+ " (reading '" +:+ key +:+ "')".

(** [s.includes(needle)] on text. *)
Fixpoint includes (s needle : string) : bool :=
  String.prefix needle s
  || match s with
     | EmptyString => false
     | String _ r => includes r needle
     end.

(** The method call [v.includes(needle)] with a string [needle]: the
    substring test on a string, membership on an array; [None] is the
    TypeError of a value that has no such method. *)
Definition includes_method (v : JsValue) (needle : string) : option bool :=
  match v with
  | JStr s => Some (includes s needle)
  | JArr items => Some (existsb (fun x => is_string x needle) items)
  | _ => None
  end.

(** The message of that TypeError for the receiver expression [name]. *)
Definition includes_error (name : string) (v : JsValue) : string :=
  match v with
  | JUndefined | JNull => type_error_message v "includes"
  | _ => name +:+ ".includes is not a function"
  end.

(** Writing property [k] of an object: the value of an existing property
    is replaced in place, a new property is added last. *)
Fixpoint set_prop (k : string) (v : JsValue) (o : list (string * JsValue))
    : list (string * JsValue) :=
  match o with
  | [] => [(k, v)]
  | (k', v') :: r =>
      if String.eqb k k' then (k', v) :: r else (k', v') :: set_prop k v r
  end.

(** Object spread [{ ...a, ...b }]. *)
Definition spread_props (a b : list (string * JsValue))
    : list (string * JsValue) :=
  fold_left (fun o kv => set_prop (fst kv) (snd kv) o) b a.

(** What is read back from a value stored as JSON: properties whose
    value is [undefined] are gone, [undefined] in an array is [null]. *)
Definition is_undefined (v : JsValue) : bool :=
  match v with JUndefined => true | _ => false end.

Fixpoint json_clone (v : JsValue) : JsValue :=
  match v with
  | JArr items =>
      JArr (map (fun x => if is_undefined x then JNull else json_clone x)
              items)
  | JObj props =>
      JObj (omap (fun kv => if is_undefined (snd kv) then None
                            else Some (fst kv, json_clone (snd kv))) props)
  | _ => v
  end.

(** The property names an object literal inherits from
    [Object.prototype]: read on an object that has no own property of
    that name, they give a function (an object for [__proto__]), not
    [undefined]. *)
Definition prototype_names : list string :=
  ["constructor"; "__defineGetter__"; "__defineSetter__"; "hasOwnProperty";
   "__lookupGetter__"; "__lookupSetter__"; "isPrototypeOf";
   "propertyIsEnumerable"; "toString"; "valueOf"; "__proto__";
   "toLocaleString"].

Definition inherited (name : string) : bool :=
  existsb (String.eqb name) prototype_names.

(** [String(Object.prototype[name])] for an inherited name, as V8 prints
    a built-in function; [__proto__] gives [Object.prototype] itself. *)
Definition inherited_text (name : string) : string :=
  if String.eqb name "__proto__" then "[object Object]"
  else
    "function " +:+ (if String.eqb name "constructor" then "Object" else name)
      +:+ "() { [native code] }".

(** The white space [parseInt] skips: TAB, LF, VT, FF, CR, SP, and by
    their UTF-8 bytes U+00A0, U+1680, U+2000 to U+200A, U+2028, U+2029,
    U+202F, U+205F, U+3000 and U+FEFF. *)
Fixpoint skip_white (s : string) : string :=
  match s with
  | String c r =>
      let n := N_of_ascii c in
      if ((9 <=? n) && (n <=? 13))%N || (n =? 32)%N then skip_white r
      else
        match r with
        | String c1 r1 =>
            let n1 := N_of_ascii c1 in
            if (n =? 194)%N && (n1 =? 160)%N then skip_white r1
            else
              match r1 with
              | String c2 r2 =>
                  let n2 := N_of_ascii c2 in
                  if ((n =? 225)%N && (n1 =? 154)%N && (n2 =? 128)%N)
                     || ((n =? 226)%N && (n1 =? 128)%N
                         && (((128 <=? n2) && (n2 <=? 138))%N
                             || (n2 =? 168)%N || (n2 =? 169)%N || (n2 =? 175)%N))
                     || ((n =? 226)%N && (n1 =? 129)%N && (n2 =? 159)%N)
                     || ((n =? 227)%N && (n1 =? 128)%N && (n2 =? 128)%N)
                     || ((n =? 239)%N && (n1 =? 187)%N && (n2 =? 191)%N)
                  then skip_white r2
                  else s
              | EmptyString => s
              end
        | EmptyString => s
        end
  | EmptyString => s
  end.

(** The value of the longest prefix of decimal digits; [None] when the
    text does not start with a digit. *)
Fixpoint leading_digits (s : string) (acc : option Z) : option Z :=
  match s with
  | String c r =>
      let n := N_of_ascii c in
      if ((48 <=? n) && (n <=? 57))%N
      then leading_digits r (Some (10 * default 0 acc + Z.of_N (n - 48)))
      else acc
  | EmptyString => acc
  end.

(** [parseInt(s, 10)]; [None] is [NaN]. *)
Definition parseInt (s : string) : option Z :=
  match skip_white s with
  | String "-" r => Z.opp <$> leading_digits r None
  | String "+" r => leading_digits r None
  | t => leading_digits t None
  end.

End JS.

(* ===================================================================== *)
(** ** MD5 (RFC 1321), as Node's [crypto.createHash('md5')] computes it   *)
(* ===================================================================== *)

Module MD5.

Definition mask32 : Z := 0xFFFFFFFF.
Definition add32 (a b : Z) : Z := Z.land (a + b) mask32.
Definition not32 (a : Z) : Z := Z.lxor a mask32.
Definition rotl32 (x c : Z) : Z :=
  Z.lor (Z.land (Z.shiftl x c) mask32) (Z.shiftr x (32 - c)).

Definition shifts : list Z :=
  [7; 12; 17; 22; 7; 12; 17; 22; 7; 12; 17; 22; 7; 12; 17; 22;
   5; 9; 14; 20; 5; 9; 14; 20; 5; 9; 14; 20; 5; 9; 14; 20;
   4; 11; 16; 23; 4; 11; 16; 23; 4; 11; 16; 23; 4; 11; 16; 23;
   6; 10; 15; 21; 6; 10; 15; 21; 6; 10; 15; 21; 6; 10; 15; 21].

Definition sines : list Z :=
  [0xd76aa478; 0xe8c7b756; 0x242070db; 0xc1bdceee; 0xf57c0faf; 0x4787c62a;
   0xa8304613; 0xfd469501; 0x698098d8; 0x8b44f7af; 0xffff5bb1; 0x895cd7be;
   0x6b901122; 0xfd987193; 0xa679438e; 0x49b40821; 0xf61e2562; 0xc040b340;
   0x265e5a51; 0xe9b6c7aa; 0xd62f105d; 0x02441453; 0xd8a1e681; 0xe7d3fbc8;
   0x21e1cde6; 0xc33707d6; 0xf4d50d87; 0x455a14ed; 0xa9e3e905; 0xfcefa3f8;
   0x676f02d9; 0x8d2a4c8a; 0xfffa3942; 0x8771f681; 0x6d9d6122; 0xfde5380c;
   0xa4beea44; 0x4bdecfa9; 0xf6bb4b60; 0xbebfbc70; 0x289b7ec6; 0xeaa127fa;
   0xd4ef3085; 0x04881d05; 0xd9d4d039; 0xe6db99e5; 0x1fa27cf8; 0xc4ac5665;
   0xf4292244; 0x432aff97; 0xab9423a7; 0xfc93a039; 0x655b59c3; 0x8f0ccc92;
   0xffeff47d; 0x85845dd1; 0x6fa87e4f; 0xfe2ce6e0; 0xa3014314; 0x4e0811a1;
   0xf7537e82; 0xbd3af235; 0x2ad7d2bb; 0xeb86d391].

Definition at_index (l : list Z) (i : Z) : Z := default 0 (l !! Z.to_nat i).

Fixpoint le_bytes (n : nat) (v : Z) : list Z :=
  match n with
  | O => []
  | S n' => Z.land v 0xFF :: le_bytes n' (Z.shiftr v 8)
  end.

Fixpoint le_word (bytes : list Z) : Z :=
  match bytes with
  | [] => 0
  | b :: r => Z.lor b (Z.shiftl (le_word r) 8)
  end.

Definition bytes_of_string (s : string) : list Z :=
  map (fun c => Z.of_N (N_of_ascii c)) (String.list_ascii_of_string s).

Definition pad (msg : list Z) : list Z :=
  let len := Z.of_nat (length msg) in
  msg ++ [0x80] ++ replicate (Z.to_nat ((55 - len) mod 64)) 0
      ++ le_bytes 8 (8 * len).

(** Cut a byte list into [n] groups of [size] bytes. *)
Fixpoint groups (size n : nat) (l : list Z) : list (list Z) :=
  match n with
  | O => []
  | S n' => take size l :: groups size n' (drop size l)
  end.

Definition words_of_block (block : list Z) : list Z :=
  map le_word (groups 4 16 block).

Definition step (M : list Z) (st : Z * Z * Z * Z) (i : Z) : Z * Z * Z * Z :=
  let '(a, b, c, d) := st in
  let '(f, g) :=
    if i <? 16 then (Z.lor (Z.land b c) (Z.land (not32 b) d), i)
    else if i <? 32 then
      (Z.lor (Z.land d b) (Z.land (not32 d) c), (5 * i + 1) mod 16)
    else if i <? 48 then (Z.lxor (Z.lxor b c) d, (3 * i + 5) mod 16)
    else (Z.lxor c (Z.lor b (not32 d)), (7 * i) mod 16) in
  let f' := add32 (add32 (add32 f a) (at_index sines i)) (at_index M g) in
  (d, add32 b (rotl32 f' (at_index shifts i)), b, c).

Definition compress (st : Z * Z * Z * Z) (block : list Z) : Z * Z * Z * Z :=
  let M := words_of_block block in
  let '(a, b, c, d) := st in
  let '(a', b', c', d') :=
    fold_left (step M) (map Z.of_nat (seq 0 64)) st in
  (add32 a a', add32 b b', add32 c c', add32 d d').

Definition initial : Z * Z * Z * Z :=
  (0x67452301, 0xefcdab89, 0x98badcfe, 0x10325476).

Definition digest_bytes (msg : list Z) : list Z :=
  let padded := pad msg in
  let '(a, b, c, d) :=
    fold_left compress (groups 64 (length padded / 64)%nat padded) initial in
  le_bytes 4 a ++ le_bytes 4 b ++ le_bytes 4 c ++ le_bytes 4 d.

Definition hex_byte (b : Z) : string :=
  String (JS.hex_digit (Z.to_N (b / 16)))
    (String (JS.hex_digit (Z.to_N (b mod 16))) "").

(** [createHash('md5').update(s).digest('hex')]. *)
Definition md5_hex (s : string) : string :=
  String.concat "" (map hex_byte (digest_bytes (bytes_of_string s))).

End MD5.


(* ===================================================================== *)
(** ** Persistence schema (prisma/schema.prisma)                          *)
(* ===================================================================== *)

Module Schema.
Import JS.

(** [model ApiCall]; the unique key [request_hash] indexes the table. *)
Record ApiCall : Type := {
  ac_service : string;
  ac_endpoint : string;
  ac_method : string;
  ac_params : JsValue;
  ac_request_hash : string;
  ac_response : JsValue;
  ac_status_code : option Z;
  ac_is_success : bool;
  ac_error_message : option string;
  ac_request_time : Z;
  ac_response_time : option Z;
  ac_duration : option Z;
  ac_expires_at : option Z;
  ac_created_at : Z;
  ac_updated_at : Z
}.

(** [model ApiLimit]; the unique key [service] indexes the table. *)
Record ApiLimit : Type := {
  al_service : string;
  al_requests_limit : Z;
  al_requests_used : Z;
  al_requests_reset : Z;
  al_is_active : bool;
  al_created_at : Z;
  al_updated_at : Z
}.

(** [model Song]. *)
Record Song : Type := {
  song_id : Z;
  song_title : string;
  song_lyrics : string;
  song_style : option string;
  song_instrumental : bool;
  song_suno_task_id : option string;
  song_cover_image_url : option string;
  song_status : string;
  song_repository_id : Z;
  song_time_range : JsValue;
  song_commit_count : Z;
  song_prompt : option string;
  song_created_at : Z;
  song_updated_at : Z;
  song_completed_at : option Z
}.

(** [model AudioFile], the columns the callback handler writes. *)
Record AudioFile : Type := {
  af_filename : string;
  af_url : string;
  af_file_type : string;
  af_mime_type : string;
  af_is_vocal : bool;
  af_is_original : bool;
  af_song_id : Z;
  af_attachment_id : Z;
  af_suno_audio_id : JsValue
}.

(** [model Repository], the columns [#findOrCreateRepoId] writes. *)
Record Repository : Type := {
  repo_id : Z;
  repo_owner : string;
  repo_name : string;
  repo_full_name : string;
  repo_url : string;
  repo_description : string;
  repo_created_at : Z;
  repo_updated_at : Z
}.

(** [model Attachment]. *)
Record Attachment : Type := {
  att_id : Z;
  att_name : string;
  att_slug : string;              (* [@unique] *)
  att_url : string;
  att_attachment : string;
  att_mime : string;
  att_size : Z;
  att_source : string;
  att_acl : string;
  att_metas : JS.JsValue;
  att_created_at : Z;
  att_updated_at : Z
}.

End Schema.

(* ===================================================================== *)
(** ** The world, its collaborators, and the monad of asynchronous code   *)
(* ===================================================================== *)

Module Runtime.
Import JS Schema.

(** An [axios] request configuration. *)
Record Request : Type := {
  rq_method : string;
  rq_url : string;
  rq_headers : list (string * string);
  rq_params : JsValue;   (* [config.params], query string *)
  rq_data : JsValue      (* [config.data], body *)
}.

(** A thrown JavaScript error: [error.message] and, for an axios error
    with a reply, [error.response.status] and [error.response.data]. *)
Record JsError : Type := {
  message : string;
  response : option (Z * JsValue)
}.

Definition mkError (msg : string) : JsError :=
  {| message := msg; response := None |}.

Inductive Level : Type := Log | Warn | Error.

(** The parameters of one [s3.upload]. *)
Record S3Params : Type := {
  s3_Bucket : option string;
  s3_Key : string;
  s3_Body : JsValue;
  s3_ACL : string;
  s3_ContentType : string
}.

Record World : Type := {
  apiCalls : gmap string ApiCall;
  apiLimits : gmap string ApiLimit;
  songs : list Song;
  audioFiles : list AudioFile;
  repositories : list Repository;
  attachments : list Attachment;
  clock : Z;                       (* [Date.now()], milliseconds *)
  requests : list Request;         (* live calls made so far, oldest first *)
  uploads : list S3Params;         (* objects handed to S3, oldest first *)
  db_ops : nat;                    (* persistence operations so far *)
  console : list (Level * string)  (* console output, oldest first *)
}.

(** The platform and the libraries the upload service calls: Node's
    [path] and [Date], [String.prototype.toLowerCase], [uuid] and
    [slugify]. *)
Record Platform : Type := {
  path_extname : string -> string;
  path_basename : string -> string -> string;
  (* the TypeError of [path.basename] for a suffix that is not a text but
     the value an object inherits under the given name *)
  basename_type_error : string -> JsError;
  (* how [console.log] prints that inherited value *)
  inspect_inherited : string -> string;
  lower_case : string -> string;
  uuidv4 : nat -> string;            (* the [n]-th identifier drawn *)
  slugify : string -> string;        (* [slugify(s, { lower: true })] *)
  getFullYear : Z -> Z;              (* of [new Date(t)], server time zone *)
  getMonth : Z -> Z
}.

(** The collaborators outside this repository.  Each oracle is asked with
    the number of earlier interactions of its kind, so that an upstream
    can answer PENDING three times and then SUCCESS, and a database can
    fail on one particular write. *)
Record Env : Type := {
  (* reply of the [n]-th live call: elapsed milliseconds and outcome *)
  axios : nat -> Request -> Z * (JsError + (Z * JsValue));
  (* [response.headers] of the reply of the [n]-th live call *)
  reply_headers : nat -> list (string * string);
  (* [Some msg]: the [n]-th persistence operation throws [msg] *)
  db_fault : nat -> option string;
  (* outcome of the [n]-th [s3.upload(params).promise()] *)
  s3_upload : nat -> S3Params -> Z * (JsError + JsValue);
  platform : Platform;
  github_api_token : option string;   (* [process.env.GITHUB_API_TOKEN] *)
  suno_api_key : option string;       (* [process.env.SUNO_API_KEY] *)
  openai_api_key : option string;     (* [process.env.OPENAI_API_KEY] *)
  spaces_bucket_name : option string  (* [process.env.SPACES_BUCKET_NAME] *)
}.

Inductive Outcome (A : Type) : Type :=
| Returned (a : A)
| Thrown (e : JsError).
Arguments Returned {A} a.
Arguments Thrown {A} e.

Definition M (A : Type) : Type := World -> Outcome A * World.

Definition ret {A} (a : A) : M A := fun w => (Returned a, w).

Definition bind {A B} (m : M A) (k : A -> M B) : M B :=
  fun w => match m w with
           | (Returned a, w') => k a w'
           | (Thrown e, w') => (Thrown e, w')
           end.

Definition throw {A} (e : JsError) : M A := fun w => (Thrown e, w).

(** [try { body } catch (error) { handler }]. *)
Definition try_catch {A} (body : M A) (handler : JsError -> M A) : M A :=
  fun w => match body w with
           | (Returned a, w') => (Returned a, w')
           | (Thrown e, w') => handler e w'
           end.

Definition gets {A} (f : World -> A) : M A := fun w => (Returned (f w), w).
Definition modify (f : World -> World) : M unit := fun w => (Returned tt, f w).

Definition set_apiCalls v w :=
  {| apiCalls := v; apiLimits := apiLimits w; songs := songs w;
     audioFiles := audioFiles w; repositories := repositories w;
     attachments := attachments w; clock := clock w; requests := requests w;
     uploads := uploads w; db_ops := db_ops w; console := console w |}.
Definition set_apiLimits v w :=
  {| apiCalls := apiCalls w; apiLimits := v; songs := songs w;
     audioFiles := audioFiles w; repositories := repositories w;
     attachments := attachments w; clock := clock w; requests := requests w;
     uploads := uploads w; db_ops := db_ops w; console := console w |}.
Definition set_songs v w :=
  {| apiCalls := apiCalls w; apiLimits := apiLimits w; songs := v;
     audioFiles := audioFiles w; repositories := repositories w;
     attachments := attachments w; clock := clock w; requests := requests w;
     uploads := uploads w; db_ops := db_ops w; console := console w |}.
Definition set_audioFiles v w :=
  {| apiCalls := apiCalls w; apiLimits := apiLimits w; songs := songs w;
     audioFiles := v; repositories := repositories w;
     attachments := attachments w; clock := clock w; requests := requests w;
     uploads := uploads w; db_ops := db_ops w; console := console w |}.
Definition set_repositories v w :=
  {| apiCalls := apiCalls w; apiLimits := apiLimits w; songs := songs w;
     audioFiles := audioFiles w; repositories := v;
     attachments := attachments w; clock := clock w; requests := requests w;
     uploads := uploads w; db_ops := db_ops w; console := console w |}.
Definition set_attachments v w :=
  {| apiCalls := apiCalls w; apiLimits := apiLimits w; songs := songs w;
     audioFiles := audioFiles w; repositories := repositories w;
     attachments := v; clock := clock w; requests := requests w;
     uploads := uploads w; db_ops := db_ops w; console := console w |}.
Definition set_clock v w :=
  {| apiCalls := apiCalls w; apiLimits := apiLimits w; songs := songs w;
     audioFiles := audioFiles w; repositories := repositories w;
     attachments := attachments w; clock := v; requests := requests w;
     uploads := uploads w; db_ops := db_ops w; console := console w |}.
Definition set_requests v w :=
  {| apiCalls := apiCalls w; apiLimits := apiLimits w; songs := songs w;
     audioFiles := audioFiles w; repositories := repositories w;
     attachments := attachments w; clock := clock w; requests := v;
     uploads := uploads w; db_ops := db_ops w; console := console w |}.
Definition set_uploads v w :=
  {| apiCalls := apiCalls w; apiLimits := apiLimits w; songs := songs w;
     audioFiles := audioFiles w; repositories := repositories w;
     attachments := attachments w; clock := clock w; requests := requests w;
     uploads := v; db_ops := db_ops w; console := console w |}.
Definition set_db_ops v w :=
  {| apiCalls := apiCalls w; apiLimits := apiLimits w; songs := songs w;
     audioFiles := audioFiles w; repositories := repositories w;
     attachments := attachments w; clock := clock w; requests := requests w;
     uploads := uploads w; db_ops := v; console := console w |}.
Definition set_console v w :=
  {| apiCalls := apiCalls w; apiLimits := apiLimits w; songs := songs w;
     audioFiles := audioFiles w; repositories := repositories w;
     attachments := attachments w; clock := clock w; requests := requests w;
     uploads := uploads w; db_ops := db_ops w; console := v |}.

(** [Date.now()] / [new Date()]. *)
Definition Date_now : M Z := gets clock.

Definition console_put (l : Level) (msg : string) : M unit :=
  modify (fun w => set_console (console w ++ [(l, msg)]) w).

(** The delay of [setTimeout(f, delay)]: Node sets a delay below 1 or
    above 2147483647 to 1. *)
Definition timer_delay (delay : Z) : Z :=
  if (delay <? 1) || (2147483647 <? delay) then 1 else delay.

(** [await new Promise(resolve => setTimeout(resolve, delay))], and the
    wait before a callback scheduled with [setTimeout]: the timer fires
    when its delay has passed. *)
Definition sleep (delay : Z) : M unit :=
  modify (fun w => set_clock (clock w + timer_delay delay) w).

(** A computation leaves an observation of the world as it found it. *)
Definition keeps {A B} (f : World -> B) (m : M A) : Prop :=
  forall w, f (snd (m w)) = f w.

(** An observation that does not read the field a setter writes. *)
Definition ignores {B V} (f : World -> B) (set : V -> World -> World) : Prop :=
  forall v w, f (set v w) = f w.

Section WithEnv.
Variable env : Env.

(** [await axios(config)]: the request is logged, time passes, and the
    upstream either replies or the promise rejects. *)
Definition axios_call (rq : Request) : M (Z * JsValue) :=
  fun w =>
    let '(elapsed, reply) := axios env (length (requests w)) rq in
    let w' := set_clock (clock w + elapsed)
                (set_requests (requests w ++ [rq]) w) in
    match reply with
    | inl e => (Thrown e, w')
    | inr r => (Returned r, w')
    end.

(** Every Prisma operation first reaches the database, which may be
    unavailable. *)
Definition db_access : M unit :=
  fun w =>
    let w' := set_db_ops (S (db_ops w)) w in
    match db_fault env (db_ops w) with
    | Some msg => (Thrown (mkError msg), w')
    | None => (Returned tt, w')
    end.

(** [await s3.upload(params).promise()]: the object is handed over, time
    passes, and the store either answers with its data or the promise
    rejects. *)
Definition s3_upload_call (params : S3Params) : M JsValue :=
  fun w =>
    let '(elapsed, reply) := s3_upload env (length (uploads w)) params in
    let w' := set_clock (clock w + elapsed)
                (set_uploads (uploads w ++ [params]) w) in
    match reply with
    | inl e => (Thrown e, w')
    | inr data => (Returned data, w')
    end.
End WithEnv.

(** [read v.key], throwing the TypeError of a null receiver. *)
Definition property (v : JsValue) (key : string) : M JsValue :=
  match get v key with
  | Some x => ret x
  | None => throw (mkError (type_error_message v key))
  end.

(** The value of an autoincrement column for the next row. *)
Definition next_id {A} (id : A -> Z) (l : list A) : Z :=
  1 + fold_right Z.max 0 (map id l).

End Runtime.

Declare Scope js_scope.
Delimit Scope js_scope with js.
Notation "x <- m ;; k" := (Runtime.bind m (fun x => k))
  (at level 100, m at next level, right associativity) : js_scope.
Notation "m ;;; k" := (Runtime.bind m (fun _ => k))
  (at level 100, right associativity) : js_scope.

(* ===================================================================== *)
(** ** UploadService: download, object store, attachment row              *)
(* ===================================================================== *)

Module UploadService.
Import JS Schema Runtime.
Local Open Scope js_scope.

Definition EXT_MAP : list (string * string) :=
  [("image/png", ".png"); ("image/jpeg", ".jpg"); ("image/gif", ".gif");
   ("audio/mpeg", ".mp3"); ("audio/mp3", ".mp3")].

(** [EXT_MAP[mimeType] || '']: [inr name] is the value that the object
    literal inherits under [name], which is truthy and not a text. *)
Definition mapped_extension (mimeType : string) : string + string :=
  match find (fun kv => String.eqb (fst kv) mimeType) EXT_MAP with
  | Some kv => inl (snd kv)
  | None => if inherited mimeType then inr mimeType else inl ""
  end.

(** The [file] object [createAttachmentFromUrl] builds; [size] is [None]
    for [NaN]. *)
Record File : Type := {
  file_originalname : string;
  file_mimetype : string;
  file_buffer : JsValue;
  file_size : option Z
}.

(** The [params] argument: [acl] and [metas], each left out or given. *)
Record Params : Type := {
  params_acl : option string;
  params_metas : option (list (string * JsValue))
}.

(** [url.split('/').pop()]: the text after the last slash. *)
Fixpoint last_segment (url : string) : string :=
  match url with
  | EmptyString => EmptyString
  | String c r =>
      if Ascii.eqb c "/" then last_segment r
      else if includes r "/" then last_segment r
      else url
  end.

(** [headers[name] || fallback]. *)
Definition header_or (headers : list (string * string)) (name fallback : string)
    : string :=
  match find (fun kv => String.eqb (fst kv) name) headers with
  | Some kv => if String.eqb (snd kv) "" then fallback else snd kv
  | None => fallback
  end.

Definition padded_month (month : Z) : string :=
  if month <? 10 then "0" +:+ number_to_string month
  else number_to_string month.

Section WithEnv.
Variable env : Env.

(** [prisma.attachment.create({ data })].  The client rejects a [url]
    that is not a text and a [size] that is not a 32-bit integer before
    it reaches the database; [slug] is a unique column. *)
Definition attachment_create (name slug : string) (url : JsValue)
    (attachment mime : string) (size : option Z) (acl : string)
    (metas : JsValue) : M Attachment :=
  match url, size with
  | JStr location, Some bytes =>
      if (-2147483648 <=? bytes) && (bytes <=? 2147483647) then
        db_access env ;;;
        taken <- gets (fun w =>
                   existsb (fun a => String.eqb (att_slug a) slug)
                     (attachments w)) ;;
        if taken : bool then
          throw (mkError "Unique constraint failed on the fields: (`slug`)")
        else
          now <- Date_now ;;
          id <- gets (fun w => next_id att_id (attachments w)) ;;
          let row := {| att_id := id; att_name := name; att_slug := slug;
                        att_url := location; att_attachment := attachment;
                        att_mime := mime; att_size := bytes;
                        att_source := "digitalocean"; att_acl := acl;
                        att_metas := json_clone metas;
                        att_created_at := now; att_updated_at := now |} in
          modify (fun w => set_attachments (attachments w ++ [row]) w) ;;;
          ret row
      else throw (mkError "Invalid `prisma.attachment.create()` invocation")
  | _, _ => throw (mkError "Invalid `prisma.attachment.create()` invocation")
  end.

(** [UploadService.createAttachment(file, params = {})], as the class at
    the head of [upload.service.js] defines it. *)
Definition createAttachment (file : File) (params : Params) : M Attachment :=
  console_put Log "createAttachment started" ;;;
  try_catch
    (let paramMetas := default [] (params_metas params) in
     let mimeType := file_mimetype file in
     let acl := match params_acl params with
                | Some a => if String.eqb a "" then "public-read" else a
                | None => "public-read"
                end in
     console_put Log ("MIME type detected: " +:+ mimeType) ;;;
     extension <-
       (let extension :=
          lower_case (platform env)
            (path_extname (platform env) (file_originalname file)) in
        if String.eqb extension "" then
          console_put Log
            "No extension found in original name, checking MIME map..." ;;;
          ret (mapped_extension mimeType)
        else ret (inl extension)) ;;
     match extension with
     | inr name =>
         console_put Log
           ("File extension resolved: "
              +:+ inspect_inherited (platform env) name) ;;;
         throw (basename_type_error (platform env) name)
     | inl extension =>
         console_put Log ("File extension resolved: " +:+ extension) ;;;
         let baseName :=
           path_basename (platform env) (file_originalname file) extension in
         drawn <- gets (fun w => length (uploads w)) ;;
         let uuid := uuidv4 (platform env) drawn in
         let rawFilename := uuid +:+ "-" +:+ baseName +:+ extension in
         let filename := slugify (platform env) rawFilename in
         console_put Log ("Filename after slugification: " +:+ filename) ;;;
         date <- Date_now ;;
         let year := getFullYear (platform env) date in
         let month := padded_month (getMonth (platform env) date + 1) in
         let fileBuffer := file_buffer file in
         let keyPath :=
           "upload/" +:+ number_to_string year +:+ "/" +:+ month +:+ "/"
             +:+ filename in
         console_put Log ("Key path for upload: " +:+ keyPath) ;;;
         let s3Params := {| s3_Bucket := spaces_bucket_name env;
                            s3_Key := keyPath;
                            s3_Body := fileBuffer;
                            s3_ACL := acl;
                            s3_ContentType := mimeType |} in
         data <- s3_upload_call env s3Params ;;
         location <- property data "Location" ;;
         attachment <-
           attachment_create (file_originalname file) filename location
             keyPath mimeType (file_size file) acl
             (JObj (spread_props [("location", location); ("s3", data)]
                      paramMetas)) ;;
         ret attachment
     end)
    (fun error =>
       console_put Error ("createAttachment error: " +:+ message error) ;;;
       throw error).

(** [UploadService.createAttachmentFromUrl(url, params = {})].  The file
    is fetched with [axios.get(url, { responseType: 'arraybuffer' })], so
    the body of the reply is the bytes of the file. *)
Definition createAttachmentFromUrl (url : JsValue) (params : Params)
    : M Attachment :=
  console_put Log ("Creating attachment from URL: " +:+ to_string url) ;;;
  try_catch
    (sent <- gets (fun w => length (requests w)) ;;
     response <- axios_call env
       {| rq_method := "get";
          rq_url := to_string url;
          rq_headers := [];
          rq_params := JUndefined;
          rq_data := JUndefined |} ;;
     let headers := reply_headers env sent in
     let contentLength := parseInt (header_or headers "content-length" "0") in
     originalname <-
       match url with
       | JStr text => ret (last_segment text)
       | JUndefined | JNull => throw (mkError (type_error_message url "split"))
       | _ => throw (mkError "url.split is not a function")
       end ;;
     let file := {| file_originalname := originalname;
                    file_mimetype := header_or headers "content-type" "";
                    file_buffer := snd response;
                    file_size := contentLength |} in
     console_put Log
       ("File downloaded from URL: " +:+ file_originalname file +:+ " "
          +:+ file_mimetype file) ;;;
     attachment <- createAttachment file params ;;
     ret attachment)
    (fun error =>
       console_put Error ("createAttachmentFromUrl error: " +:+ message error) ;;;
       throw error).

End WithEnv.

End UploadService.

(* ===================================================================== *)
(** ** GithubService / SunoService: fingerprint, cache and rate counter   *)
(* ===================================================================== *)

Module Gateway.
Import JS Schema Runtime.
Local Open Scope js_scope.

(** The two gateway classes share their private helpers almost verbatim;
    the places where they differ are written out by case on the service. *)
Inductive Service : Type := Github | Suno.

Definition service_name (svc : Service) : string :=
  match svc with Github => "github" | Suno => "suno" end.

Definition API_BASE_URL (svc : Service) : string :=
  match svc with
  | Github => "https://api.github.com"
  | Suno => "https://apibox.erweima.ai/api"
  end.

Definition API_VERSION : string := "v1".
Definition DEFAULT_CACHE_HOURS : Z := 24.

(** A parameter declared [p = {}] takes the default only for [undefined]. *)
Definition default_object (v : JsValue) : JsValue :=
  match v with JUndefined => JObj [] | _ => v end.

(** The text handed to [createHash('md5').update]. *)
Definition hash_message (svc : Service) (method endpoint : string)
    (params : JsValue) : string :=
  service_name svc +:+ ":" +:+ method +:+ ":" +:+ endpoint +:+ ":"
    +:+ template (JSON_stringify (default_object params)).

(** [#generateRequestHash]. *)
Definition generateRequestHash (svc : Service) (method endpoint : string)
    (params : JsValue) : string :=
  MD5.md5_hex (hash_message svc method endpoint params).

(** [toUpperCase] and [toLowerCase] on ASCII text, which is what the
    private [#cachedApiCall] receives: its callers pass the literals
    ['GET'] and ['POST']. *)
Definition upper_char (c : ascii) : ascii :=
  let n := N_of_ascii c in
  if ((97 <=? n) && (n <=? 122))%N then ascii_of_N (n - 32) else c.
Definition lower_char (c : ascii) : ascii :=
  let n := N_of_ascii c in
  if ((65 <=? n) && (n <=? 90))%N then ascii_of_N (n + 32) else c.

Fixpoint map_string (f : ascii -> ascii) (s : string) : string :=
  match s with
  | EmptyString => EmptyString
  | String c r => String (f c) (map_string f r)
  end.
Definition toUpperCase : string -> string := map_string upper_char.
Definition toLowerCase : string -> string := map_string lower_char.

(** Object spread [{...a, ...b}] on header objects: a key of [b] replaces
    the value of the same key of [a] in place, new keys are appended. *)
Fixpoint assign (k v : string) (o : list (string * string))
    : list (string * string) :=
  match o with
  | [] => [(k, v)]
  | (k', v') :: r =>
      if String.eqb k k' then (k', v) :: r else (k', v') :: assign k v r
  end.
Definition spread (a b : list (string * string)) : list (string * string) :=
  fold_left (fun o kv => assign (fst kv) (snd kv) o) b a.

Record Options : Type := {
  cacheHours : option Z;               (* [undefined] is [None] *)
  headers : list (string * string);
  disableCache : bool
}.
Definition no_options : Options :=
  {| cacheHours := None; headers := []; disableCache := false |}.
(** [{ ...options, disableCache: true }]. *)
Definition force_disableCache (o : Options) : Options :=
  {| cacheHours := cacheHours o; headers := headers o; disableCache := true |}.

(** Only the Suno gateway reads [options.disableCache]. *)
Definition cache_disabled (svc : Service) (o : Options) : bool :=
  match svc with Github => false | Suno => disableCache o end.

(** [!expires_at || new Date() < new Date(expires_at)]. *)
Definition not_expired (now : Z) (expires_at : option Z) : bool :=
  match expires_at with None => true | Some t => now <? t end.

(** [cachedCall && cachedCall.is_success && (...)]. *)
Definition cache_hit (now : Z) (cachedCall : option ApiCall) : option JsValue :=
  match cachedCall with
  | Some c =>
      if ac_is_success c && not_expired now (ac_expires_at c)
      then Some (ac_response c) else None
  | None => None
  end.

(** [cacheHours ? new Date(Date.now() + cacheHours * 60 * 60 * 1000) : null]. *)
Definition expiry (now cacheHours : Z) : option Z :=
  if cacheHours =? 0 then None else Some (now + cacheHours * 60 * 60 * 1000).

(** [error.response?.status || 500]. *)
Definition error_status (e : JsError) : Z :=
  match response e with
  | Some (st, _) => if st =? 0 then 500 else st
  | None => 500
  end.

(** [error.response?.data || null]. *)
Definition error_data (e : JsError) : JsValue :=
  match response e with
  | Some (_, d) => if truthy d then d else JNull
  | None => JNull
  end.

(** The [create] argument stores [params || {}] for GitHub and the
    request data as it is for Suno. *)
Definition stored_params (svc : Service) (requestData : JsValue) : JsValue :=
  match svc with
  | Github => if truthy requestData then requestData else JObj []
  | Suno => requestData
  end.

(** The [update] object of the upsert after a successful call. *)
Definition success_update (reply : Z * JsValue) (endTime duration : Z)
    (expiresAt : option Z) (now : Z) (row : ApiCall) : ApiCall :=
  {| ac_service := ac_service row;
     ac_endpoint := ac_endpoint row;
     ac_method := ac_method row;
     ac_params := ac_params row;
     ac_request_hash := ac_request_hash row;
     ac_response := snd reply;
     ac_status_code := Some (fst reply);
     ac_is_success := true;
     ac_error_message := None;
     ac_request_time := ac_request_time row;
     ac_response_time := Some endTime;
     ac_duration := Some duration;
     ac_expires_at := expiresAt;
     ac_created_at := ac_created_at row;
     ac_updated_at := now |}.

(** The [create] object of the upsert after a successful call. *)
Definition success_create (svc : Service) (method endpoint requestHash : string)
    (requestData : JsValue) (reply : Z * JsValue)
    (startTime endTime duration : Z) (expiresAt : option Z) (now : Z)
    : ApiCall :=
  {| ac_service := service_name svc;
     ac_endpoint := endpoint;
     ac_method := toUpperCase method;
     ac_params := stored_params svc requestData;
     ac_request_hash := requestHash;
     ac_response := snd reply;
     ac_status_code := Some (fst reply);
     ac_is_success := true;
     ac_error_message := None;
     ac_request_time := startTime;
     ac_response_time := Some endTime;
     ac_duration := Some duration;
     ac_expires_at := expiresAt;
     ac_created_at := now;
     ac_updated_at := now |}.

(** The [update] object of the upsert in the [catch] block: the expiry,
    the response time and the duration of the row are not written. *)
Definition failure_update (error : JsError) (now : Z) (row : ApiCall)
    : ApiCall :=
  {| ac_service := ac_service row;
     ac_endpoint := ac_endpoint row;
     ac_method := ac_method row;
     ac_params := ac_params row;
     ac_request_hash := ac_request_hash row;
     ac_response := error_data error;
     ac_status_code := Some (error_status error);
     ac_is_success := false;
     ac_error_message := Some (message error);
     ac_request_time := ac_request_time row;
     ac_response_time := ac_response_time row;
     ac_duration := ac_duration row;
     ac_expires_at := ac_expires_at row;
     ac_created_at := ac_created_at row;
     ac_updated_at := now |}.

(** The [create] object of the upsert in the [catch] block. *)
Definition failure_create (svc : Service) (method endpoint requestHash : string)
    (requestData : JsValue) (error : JsError) (now : Z) : ApiCall :=
  {| ac_service := service_name svc;
     ac_endpoint := endpoint;
     ac_method := toUpperCase method;
     ac_params := stored_params svc requestData;
     ac_request_hash := requestHash;
     ac_response := error_data error;
     ac_status_code := Some (error_status error);
     ac_is_success := false;
     ac_error_message := Some (message error);
     ac_request_time := now;
     ac_response_time := Some now;
     ac_duration := None;
     ac_expires_at := None;
     ac_created_at := now;
     ac_updated_at := now |}.

(** The console lines of the two gateways. *)
Definition msg_cached (method endpoint : string) : string :=
  "Usando respuesta cacheada para " +:+ method +:+ " " +:+ endpoint.

Definition msg_calling (svc : Service) (method url : string) : string :=
  match svc with
  | Github => "Llamada a la API: "
  | Suno => "Llamando a Suno API -> "
  end +:+ method +:+ " " +:+ url.

Definition msg_limit (svc : Service) (errorMessage : string) : string :=
  match svc with
  | Github => "No se pudo actualizar el límite de API para github: "
  | Suno => "No se pudo actualizar ApiLimit para " +:+ quote "suno" +:+ ": "
  end +:+ errorMessage.

(** The lines of the [catch] block: the error, and the response data when
    the error carries any (printed here without indentation). *)
Definition failure_lines (svc : Service) (method endpoint : string)
    (error : JsError) : list (Level * string) :=
  (Error,
   match svc with
   | Github => "Error en la llamada a "
   | Suno => "Error en la petición "
   end +:+ method +:+ " " +:+ endpoint +:+ ": " +:+ message error)
  :: match response error with
     | Some (_, d) =>
         if truthy d
         then [(Error, "Response data: " +:+ template (JSON_stringify d))]
         else []
     | None => []
     end.

(** What the [catch] block throws: GitHub rethrows the error it caught,
    Suno throws a new error around its message. *)
Definition rethrown (svc : Service) (error : JsError) : JsError :=
  match svc with
  | Github => error
  | Suno => mkError ("Suno API call failed: " +:+ message error)
  end.

(** [update: { requests_used: { increment: 1 }, updated_at }]. *)
Definition limit_update (now : Z) (row : ApiLimit) : ApiLimit :=
  {| al_service := al_service row;
     al_requests_limit := al_requests_limit row;
     al_requests_used := al_requests_used row + 1;
     al_requests_reset := al_requests_reset row;
     al_is_active := al_is_active row;
     al_created_at := al_created_at row;
     al_updated_at := now |}.

(** The counter row created on the first live call of a service. *)
Definition limit_create (svc : Service) (now : Z) : ApiLimit :=
  {| al_service := service_name svc;
     al_requests_limit := match svc with Github => 5000 | Suno => 1000 end;
     al_requests_used := 1;
     al_requests_reset := now + 60 * 60 * 1000;
     al_is_active := true;
     al_created_at := now;
     al_updated_at := now |}.

Section WithEnv.
Variable env : Env.

(** [#getAuthHeaders]. *)
Definition getAuthHeaders (svc : Service) : list (string * string) :=
  match svc with
  | Github =>
      [("Accept", "application/vnd.github.v3+json")] ++
      match github_api_token env with
      | Some t => if String.eqb t "" then []
                  else [("Authorization", "token " +:+ t)]
      | None => []
      end
  | Suno =>
      [("Content-Type", "application/json");
       ("Authorization", "Bearer " +:+ template (suno_api_key env))]
  end.

(** [prisma.apiCall.findUnique({ where: { request_hash } })]. *)
Definition apiCall_findUnique (h : string) : M (option ApiCall) :=
  db_access env ;;; gets (fun w => apiCalls w !! h).

(** [prisma.apiCall.upsert({ where: { request_hash }, update, create })]. *)
Definition apiCall_upsert (h : string) (update : ApiCall -> ApiCall)
    (create : ApiCall) : M unit :=
  db_access env ;;;
  modify (fun w =>
    set_apiCalls
      (<[h := match apiCalls w !! h with
              | Some row => update row
              | None => create
              end]> (apiCalls w)) w).

(** [prisma.apiLimit.upsert({ where: { service }, update, create })]. *)
Definition apiLimit_upsert (s : string) (update : ApiLimit -> ApiLimit)
    (create : ApiLimit) : M unit :=
  db_access env ;;;
  modify (fun w =>
    set_apiLimits
      (<[s := match apiLimits w !! s with
              | Some row => update row
              | None => create
              end]> (apiLimits w)) w).

(** [#updateApiLimit]: one more request used; a persistence error is
    warned about and swallowed. *)
Definition updateApiLimit (svc : Service) : M unit :=
  try_catch
    (now <- Date_now ;;
     apiLimit_upsert (service_name svc) (limit_update now)
       (limit_create svc now))
    (fun error => console_put Warn (msg_limit svc (message error))).

(** The request configuration handed to axios. *)
Definition axios_config (svc : Service) (method url : string)
    (requestData : JsValue) (extra : list (string * string)) : Request :=
  let is_get := String.eqb (toUpperCase method) "GET" in
  {| rq_method := toLowerCase method;
     rq_url := url;
     rq_headers := spread (getAuthHeaders svc) extra;
     rq_params := if is_get then requestData else JUndefined;
     rq_data := if is_get then JUndefined else requestData |}.

(** The successful branch: steps 3 to 6 of [#cachedApiCall]. *)
Definition live_call (svc : Service) (method endpoint url requestHash : string)
    (requestData : JsValue) (hours : Z) (extra : list (string * string))
    : M JsValue :=
  console_put Log (msg_calling svc method url) ;;;
  startTime <- Date_now ;;
  reply <- axios_call env (axios_config svc method url requestData extra) ;;
  endTime <- Date_now ;;
  let duration := endTime - startTime in
  now <- Date_now ;;
  let expiresAt := expiry now hours in
  apiCall_upsert requestHash
    (success_update reply endTime duration expiresAt now)
    (success_create svc method endpoint requestHash requestData reply
       startTime endTime duration expiresAt now) ;;;
  updateApiLimit svc ;;;
  ret (snd reply).

(** The [catch] block of [#cachedApiCall]: the failure is written to
    ApiCall and the error is thrown on (GitHub rethrows it, Suno wraps
    its message). *)
Definition record_failure (svc : Service) (method endpoint requestHash : string)
    (requestData : JsValue) (error : JsError) : M JsValue :=
  now <- Date_now ;;
  apiCall_upsert requestHash (failure_update error now)
    (failure_create svc method endpoint requestHash requestData error now) ;;;
  modify (fun w =>
    set_console (console w ++ failure_lines svc method endpoint error) w) ;;;
  throw (rethrown svc error).

(** The cache read: [Some r] is the early [return cachedCall.response]. *)
Definition cache_read (svc : Service) (requestHash : string) (o : Options)
    : M (option JsValue) :=
  if cache_disabled svc o then ret None
  else
    cachedCall <- apiCall_findUnique requestHash ;;
    now <- Date_now ;;
    ret (cache_hit now cachedCall).

(** [#cachedApiCall(method, endpoint, params = {}, options = {})]. *)
Definition cachedApiCall (svc : Service) (method endpoint : string)
    (params : JsValue) (o : Options) : M JsValue :=
  let requestData := default_object params in
  let hours := default DEFAULT_CACHE_HOURS (cacheHours o) in
  let url := API_BASE_URL svc +:+ endpoint in
  let requestHash := generateRequestHash svc method endpoint requestData in
  try_catch
    (hit <- cache_read svc requestHash o ;;
     match hit with
     | Some stored =>
         console_put Log (msg_cached method endpoint) ;;;
         ret stored
     | None =>
         live_call svc method endpoint url requestHash requestData hours
           (headers o)
     end)
    (record_failure svc method endpoint requestHash requestData).

(** [SunoService.getTaskDetails(taskId, options = {})]. *)
Definition getTaskDetails (taskId : string) (o : Options) : M JsValue :=
  if String.eqb taskId "" then throw (mkError "Missing parameter: taskId")
  else
    cachedApiCall Suno "GET" ("/" +:+ API_VERSION +:+ "/generate/record-info")
      (JObj [("taskId", JStr taskId)]) (force_disableCache o).

(** [SunoService.getLyricsTaskDetails(taskId, options = {})]. *)
Definition getLyricsTaskDetails (taskId : string) (o : Options) : M JsValue :=
  if String.eqb taskId "" then throw (mkError "Missing parameter: taskId")
  else
    cachedApiCall Suno "GET" ("/" +:+ API_VERSION +:+ "/lyrics/record-info")
      (JObj [("taskId", JStr taskId)]) (force_disableCache o).

(** The destructured argument of [generateAudio]; [None] is a property
    left out by the caller. *)
Record AudioParams : Type := {
  ap_prompt : string;
  ap_style : option string;
  ap_title : option string;
  ap_customMode : option bool;
  ap_instrumental : option bool;
  ap_model : option string;
  ap_callBackUrl : string
}.

Definition present (o : option string) : bool :=
  match o with Some t => negb (String.eqb t "") | None => false end.
Definition longer_than (o : option string) (n : nat) : bool :=
  match o with Some t => (n <? code_units t)%nat | None => false end.
Definition optional_prop (k : string) (o : option string)
    : list (string * JsValue) :=
  match o with
  | Some t => if String.eqb t "" then [] else [(k, JStr t)]
  | None => []
  end.

(** [SunoService.generateAudio(params)]. *)
Definition generateAudio (p : AudioParams) : M JsValue :=
  let customMode := default true (ap_customMode p) in
  let instrumental := default false (ap_instrumental p) in
  let model := default "V3_5" (ap_model p) in
  if String.eqb (ap_prompt p) "" then
    throw (mkError "Missing parameter: prompt")
  else if String.eqb (ap_callBackUrl p) "" then
    throw (mkError "Missing parameter: callBackUrl")
  else if customMode && instrumental
            && (negb (present (ap_style p)) || negb (present (ap_title p)))
  then throw (mkError "Custom mode + instrumental requiere style y title")
  else if customMode && negb instrumental
            && (negb (present (ap_style p)) || negb (present (ap_title p)))
  then throw (mkError
         "Custom mode requiere style, prompt y title (si no es instrumental)")
  else if customMode && (3000 <? code_units (ap_prompt p))%nat then
    throw (mkError "Prompt excede 3000 caracteres en customMode")
  else if customMode && longer_than (ap_style p) 200 then
    throw (mkError "Style excede 200 caracteres")
  else if customMode && longer_than (ap_title p) 80 then
    throw (mkError "Title excede 80 caracteres")
  else if negb customMode && (400 <? code_units (ap_prompt p))%nat then
    throw (mkError "Prompt excede 400 caracteres en non-custom mode")
  else
    let requestData :=
      JObj ([("prompt", JStr (ap_prompt p));
             ("customMode", JBool customMode);
             ("instrumental", JBool instrumental);
             ("model", JStr model);
             ("callBackUrl", JStr (ap_callBackUrl p))]
            ++ (if customMode
                then optional_prop "style" (ap_style p)
                       ++ optional_prop "title" (ap_title p)
                else [])) in
    cachedApiCall Suno "POST" ("/" +:+ API_VERSION +:+ "/generate")
      requestData no_options.

(** [SunoService.generateLyrics({ prompt, callBackUrl })]. *)
Definition generateLyrics (prompt callBackUrl : string) : M JsValue :=
  if String.eqb prompt "" then throw (mkError "Missing parameter: prompt")
  else if String.eqb callBackUrl "" then
    throw (mkError "Missing parameter: callBackUrl")
  else
    cachedApiCall Suno "POST" ("/" +:+ API_VERSION +:+ "/lyrics")
      (JObj [("prompt", JStr prompt); ("callBackUrl", JStr callBackUrl)])
      no_options.

(** The [for ... of tracks] loop of [downloadAndSaveSongFromCallback];
    [sunoTaskId] is [callbackData.data.task_id]. *)
Fixpoint download_tracks (sunoTaskId : JsValue) (tracks : list JsValue)
    (results : list (JsValue * Attachment))
    : M (list (JsValue * Attachment)) :=
  match tracks with
  | [] => ret results
  | track :: rest =>
      audio_url <- property track "audio_url" ;;
      if truthy audio_url then
        attachment <-
          UploadService.createAttachmentFromUrl env audio_url
            {| UploadService.params_acl := None;
               UploadService.params_metas :=
                 Some [("sunoId", get_opt track "id");
                       ("sunoTaskId", sunoTaskId);
                       ("sunoTitle", get_opt track "title");
                       ("sunoDuration", get_opt track "duration");
                       ("sunoPrompt", get_opt track "prompt");
                       ("sunoTags", get_opt track "tags");
                       ("sunoModelName", get_opt track "model_name");
                       ("source", JStr "suno")] |} ;;
        download_tracks sunoTaskId rest (results ++ [(track, attachment)])
      else
        console_put Warn "No se encontró audio_url en el track" ;;;
        download_tracks sunoTaskId rest results
  end.

(** [SunoService.downloadAndSaveSongFromCallback(callbackData)]. *)
Definition downloadAndSaveSongFromCallback (callbackData : JsValue)
    : M (list (JsValue * Attachment)) :=
  try_catch
    (match get_opt (get_opt callbackData "data") "data" with
     | JArr tracks =>
         download_tracks (get_opt (get_opt callbackData "data") "task_id")
           tracks []
     | _ => throw (mkError "Estructura de callback data inválida")
     end)
    (fun error =>
       console_put Error ("Error al descargar canción: " +:+ message error) ;;;
       throw (mkError ("Error downloading song: " +:+ message error))).

(** [SunoService.getTimestampedLyrics({ taskId, audioId, musicIndex })]:
    [audioId] is sent when it is truthy, [musicIndex] whenever it is
    given. *)
Definition getTimestampedLyrics (taskId : string) (audioId : option string)
    (musicIndex : option Z) : M JsValue :=
  if String.eqb taskId "" then throw (mkError "Missing parameter: taskId")
  else
    cachedApiCall Suno "POST"
      ("/" +:+ API_VERSION +:+ "/generate/get-timestamped-lyrics")
      (JObj ([("taskId", JStr taskId)]
             ++ optional_prop "audioId" audioId
             ++ match musicIndex with
                | Some i => [("musicIndex", JNum i)]
                | None => []
                end))
      (force_disableCache no_options).

(** [SunoService.getRemainingCredits()]. *)
Definition getRemainingCredits : M JsValue :=
  cachedApiCall Suno "GET" ("/" +:+ API_VERSION +:+ "/generate/credit")
    (JObj []) no_options.

(** [taskData?.data?.status]. *)
Definition task_status (taskData : JsValue) : JsValue :=
  get_opt (get_opt taskData "data") "status".

Definition task_failed (status taskData : JsValue) : string :=
  "Task failed with status: " +:+ to_string status +:+ ", error: "
    +:+ to_string
          (or_else (get_opt (get_opt taskData "data") "errorMessage")
             (JStr "Unknown error")).

Definition task_not_complete (maxAttempts : Z) : string :=
  "Task did not complete after " +:+ number_to_string maxAttempts
    +:+ " attempts".

(** [status.includes(needle)] as a step: the TypeError is thrown. *)
Definition status_includes (status : JsValue) (needle : string) : M bool :=
  match includes_method status needle with
  | Some b => ret b
  | None => throw (mkError (includes_error "status" status))
  end.

(** [checkStatus] of [waitForTaskCompletion]: one poll, then the promise
    is settled or the next poll is scheduled with [setTimeout].  Every
    [reject] ends the wait with its error, as does an error caught by the
    [catch] block.  [attempts] is the counter of the source; [left]
    bounds the polls still possible before the counter reaches
    [maxAttempts], and the wait never ends through [left]. *)
Fixpoint checkStatus (left : nat) (taskId : string) (maxAttempts interval : Z)
    (taskType : string) (attempts : Z) : M JsValue :=
  try_catch
    (taskData <-
       (if String.eqb taskType "lyrics"
        then getLyricsTaskDetails taskId (force_disableCache no_options)
        else getTaskDetails taskId (force_disableCache no_options)) ;;
     let status := task_status taskData in
     if is_string status "SUCCESS" then ret taskData
     else
       failed <- (if truthy status then status_includes status "FAILED"
                  else ret false) ;;
       if failed : bool then throw (mkError (task_failed status taskData))
       else
         let attempts := attempts + 1 in
         if maxAttempts <=? attempts then
           throw (mkError (task_not_complete maxAttempts))
         else
           match left with
           | O => throw (mkError (task_not_complete maxAttempts))
           | S left' =>
               sleep interval ;;;
               checkStatus left' taskId maxAttempts interval taskType attempts
           end)
    (fun error => throw error).

(** [SunoService.waitForTaskCompletion(taskId, maxAttempts = 60,
    interval = 5000, taskType = 'audio')]. *)
Definition waitForTaskCompletion (taskId : string)
    (maxAttempts interval : option Z) (taskType : option string) : M JsValue :=
  let maxAttempts := default 60 maxAttempts in
  checkStatus (Z.to_nat maxAttempts) taskId maxAttempts
    (default 5000 interval) (default "audio" taskType) 0.

(** A default of a destructuring pattern: taken for [undefined] only. *)
Definition default_to (d v : JsValue) : JsValue :=
  match v with JUndefined => d | _ => v end.

(** [if (v) params.k = v]. *)
Definition truthy_prop (k : string) (v : JsValue) : list (string * JsValue) :=
  if truthy v then [(k, v)] else [].

(** The query parameters [getCommits] builds from its options. *)
Definition commit_params (options : JsValue) : JsValue :=
  JObj ([("per_page", default_to (JNum 100) (get_opt options "perPage"));
         ("page", default_to (JNum 1) (get_opt options "page"))]
        ++ truthy_prop "since" (get_opt options "since")
        ++ truthy_prop "until" (get_opt options "until")
        ++ truthy_prop "path" (get_opt options "path")
        ++ truthy_prop "author" (get_opt options "author")).

Definition endpoint_commits (owner repo : string) : string :=
  "/repos/" +:+ owner +:+ "/" +:+ repo +:+ "/commits".

(** [GithubService.getCommits(owner, repo, options = {})]. *)
Definition getCommits (owner repo : string) (options : JsValue) : M JsValue :=
  try_catch
    (match default_object options with
     | JNull =>
         throw (mkError
           "Cannot destructure property 'since' of 'options' as it is null.")
     | options =>
         cachedApiCall Github "GET" (endpoint_commits owner repo)
           (commit_params options) no_options
     end)
    (fun error =>
       console_put Error ("Error al obtener commits: " +:+ message error) ;;;
       throw (mkError ("Error al obtener commits: " +:+ message error))).

(** [{ ...options, page, perPage: 100 }]. *)
Definition pageOptions (options : list (string * JsValue)) (page : Z)
    : JsValue :=
  JObj (set_prop "perPage" (JNum 100) (set_prop "page" (JNum page) options)).

Definition endpoint_all_commits (owner repo : string) : string :=
  "/repos/" +:+ owner +:+ "/" +:+ repo +:+ "/all-commits-in-range".

(** The elements [allCommits.push(...commits)] adds: those of an array,
    the characters of a text; [None] is the TypeError of spreading a
    value that is not iterable. *)
Definition spread_items (commits : JsValue) : option (list JsValue) :=
  match commits with
  | JArr items => Some items
  | JStr t => Some (map JStr (code_points t))
  | _ => None
  end.

(** The [while (hasMoreCommits)] loop of [getAllCommitsInDateRange].  It
    ends at the first page of length 0; [None] is a run that is still
    asking for pages after [fuel] of them. *)
Fixpoint fetch_pages (fuel : nat) (owner repo : string)
    (options : list (string * JsValue)) (page : Z) (allCommits : list JsValue)
    : M (option (list JsValue)) :=
  match fuel with
  | O => ret None
  | S fuel' =>
      commits <- getCommits owner repo (pageOptions options page) ;;
      len <- property commits "length" ;;
      match len with
      | JNum 0 => ret (Some allCommits)
      | _ =>
          match spread_items commits with
          | Some items =>
              fetch_pages fuel' owner repo options (page + 1)
                (allCommits ++ items)
          | None =>
              throw (mkError
                "Spread syntax requires ...iterable[Symbol.iterator] to be a function")
          end
      end
  end.

(** The [update] and [create] objects of the upsert that stores the whole
    list: the update leaves the error message, the request time and the
    duration of the row as they are. *)
Definition range_update (allCommits : list JsValue) (now : Z) (row : ApiCall)
    : ApiCall :=
  {| ac_service := ac_service row;
     ac_endpoint := ac_endpoint row;
     ac_method := ac_method row;
     ac_params := ac_params row;
     ac_request_hash := ac_request_hash row;
     ac_response := JArr allCommits;
     ac_status_code := Some 200;
     ac_is_success := true;
     ac_error_message := ac_error_message row;
     ac_request_time := ac_request_time row;
     ac_response_time := Some now;
     ac_duration := ac_duration row;
     ac_expires_at := Some (now + DEFAULT_CACHE_HOURS * 60 * 60 * 1000);
     ac_created_at := ac_created_at row;
     ac_updated_at := now |}.

Definition range_create (owner repo requestHash : string)
    (options : list (string * JsValue)) (allCommits : list JsValue) (now : Z)
    : ApiCall :=
  {| ac_service := "github";
     ac_endpoint := endpoint_all_commits owner repo;
     ac_method := "GET";
     ac_params := JObj options;
     ac_request_hash := requestHash;
     ac_response := JArr allCommits;
     ac_status_code := Some 200;
     ac_is_success := true;
     ac_error_message := None;
     ac_request_time := now;
     ac_response_time := Some now;
     ac_duration := None;
     ac_expires_at := Some (now + DEFAULT_CACHE_HOURS * 60 * 60 * 1000);
     ac_created_at := now;
     ac_updated_at := now |}.

(** [GithubService.getAllCommitsInDateRange(owner, repo, options)] for an
    options object with the properties [options]; [Returned None] is a run
    whose page loop is still going after [fuel] pages. *)
Definition getAllCommitsInDateRange (fuel : nat) (owner repo : string)
    (options : list (string * JsValue)) : M (option JsValue) :=
  try_catch
    (let requestHash :=
       generateRequestHash Github "GET" (endpoint_all_commits owner repo)
         (JObj options) in
     cachedResult <- apiCall_findUnique requestHash ;;
     now <- Date_now ;;
     match cache_hit now cachedResult with
     | Some stored =>
         console_put Log "Usando resultado cacheado para commits en rango" ;;;
         ret (Some stored)
     | None =>
         fetched <- fetch_pages fuel owner repo options 1 [] ;;
         match fetched with
         | None => ret None
         | Some allCommits =>
             now <- Date_now ;;
             apiCall_upsert requestHash (range_update allCommits now)
               (range_create owner repo requestHash options allCommits now) ;;;
             ret (Some (JArr allCommits))
         end
     end)
    (fun error =>
       console_put Error
         ("Error al obtener todos los commits en rango: " +:+ message error) ;;;
       throw (mkError
                ("Error obteniendo todos los commits en rango: "
                   +:+ message error))).

End WithEnv.

(** The request a call of [#cachedApiCall] sends upstream. *)
Definition request_of (env : Env) (svc : Service) (method endpoint : string)
    (params : JsValue) (o : Options) : Request :=
  axios_config env svc method (API_BASE_URL svc +:+ endpoint)
    (default_object params) (headers o).

(** The database answers every operation. *)
Definition healthy (env : Env) : Prop := forall n, db_fault env n = None.

(** The cache read of a call does not end it: the read is disabled, or
    the lookup is answered and finds no successful unexpired row. *)
Definition reaches_upstream (env : Env) (svc : Service) (h : string)
    (o : Options) (w : World) : Prop :=
  cache_disabled svc o = true
  \/ (db_fault env (db_ops w) = None
      /\ cache_hit (clock w) (apiCalls w !! h) = None).

(** The persistence operation that writes the ApiCall row of a live call:
    the first one, or the second when the cache was read first. *)
Definition write_index (svc : Service) (o : Options) (w : World) : nat :=
  if cache_disabled svc o then db_ops w else S (db_ops w).

(** [requests_used] of a service, 0 while it has no counter row. *)
Definition used (svc : Service) (w : World) : Z :=
  default 0 (al_requests_used <$> apiLimits w !! service_name svc).

(** What one status poll does: it sends its request whatever the cache
    holds and whatever options the caller passed; when the upstream
    answers and the database is healthy it returns the answer, adds one
    to the Suno rate counter and overwrites the row of the fingerprint. *)
Definition poll_is_live (env : Env) (poll : string -> Options -> M JsValue)
    (endpoint taskId : string) (o : Options) (w : World) : Prop :=
  let params := JObj [("taskId", JStr taskId)] in
  let h := generateRequestHash Suno "GET" endpoint params in
  let run := poll taskId o w in
  requests (snd run)
  = requests w ++ [request_of env Suno "GET" endpoint params o]
  /\ forall dt reply,
       axios env (length (requests w))
         (request_of env Suno "GET" endpoint params o) = (dt, inr reply) ->
       healthy env ->
       fst run = Returned (snd reply)
       /\ used Suno (snd run) = used Suno w + 1
       /\ exists row,
            apiCalls (snd run) !! h = Some row
            /\ ac_response row = snd reply
            /\ ac_is_success row = true
            /\ ac_updated_at row = clock w + dt.

(** The text of the parameters inside the hashed message. *)
Definition serialized (params : JsValue) : string :=
  template (JSON_stringify (default_object params)).

(** The fingerprint under which [getAllCommitsInDateRange] stores its
    list, and the fingerprint and request of the page [page] it fetches
    through [getCommits]. *)
Definition range_hash (owner repo : string) (options : list (string * JsValue))
    : string :=
  generateRequestHash Github "GET" (endpoint_all_commits owner repo)
    (JObj options).

Definition page_hash (owner repo : string) (options : list (string * JsValue))
    (page : Z) : string :=
  generateRequestHash Github "GET" (endpoint_commits owner repo)
    (commit_params (pageOptions options page)).

Definition page_request (env : Env) (owner repo : string)
    (options : list (string * JsValue)) (page : Z) : Request :=
  request_of env Github "GET" (endpoint_commits owner repo)
    (commit_params (pageOptions options page)) no_options.

(** The limits [generateAudio] checks before it calls the music service:
    a prompt and a callback URL; in custom mode (the default) a style of
    at most 200 and a title of at most 80 characters and a prompt of at
    most 3000; otherwise a prompt of at most 400. *)
Definition audio_limits (p : AudioParams) : Prop :=
  ap_prompt p <> ""
  /\ ap_callBackUrl p <> ""
  /\ (default true (ap_customMode p) = true ->
      present (ap_style p) = true
      /\ present (ap_title p) = true
      /\ (code_units (ap_prompt p) <= 3000)%nat
      /\ longer_than (ap_style p) 200 = false
      /\ longer_than (ap_title p) 80 = false)
  /\ (default true (ap_customMode p) = false ->
      (code_units (ap_prompt p) <= 400)%nat).

(** The endpoint a wait for a task of type [taskType] polls, and the
    request of one poll. *)
Definition status_endpoint (taskType : string) : string :=
  if String.eqb taskType "lyrics" then "/v1/lyrics/record-info"
  else "/v1/generate/record-info".

Definition status_request (env : Env) (taskType taskId : string) : Request :=
  request_of env Suno "GET" (status_endpoint taskType)
    (JObj [("taskId", JStr taskId)]) (force_disableCache no_options).

(** A reply after which [waitForTaskCompletion] polls again: its status is
    not SUCCESS, and is falsy or a text or list without FAILED. *)
Definition task_pending (taskData : JsValue) : Prop :=
  is_string (task_status taskData) "SUCCESS" = false
  /\ (truthy (task_status taskData) = false
      \/ includes_method (task_status taskData) "FAILED" = Some false).

(** A reply that ends [waitForTaskCompletion] with success. *)
Definition task_succeeded (taskData : JsValue) : Prop :=
  is_string (task_status taskData) "SUCCESS" = true.

(** A method or endpoint without the separator of the hashed message. *)
Fixpoint no_colon (s : string) : bool :=
  match s with
  | EmptyString => true
  | String c r => negb (Ascii.eqb c ":") && no_colon r
  end.

End Gateway.

(* ===================================================================== *)
(** ** GithubService.summarizeCommits                                     *)
(* ===================================================================== *)

Module GithubSummary.
Import JS.

(** A file of a formatted commit, and the properties of a formatted
    commit that the summary reads: [author?.name], [files], [date]. *)
Record ChangedFile : Type := {
  cf_filename : string;
  cf_additions : Z;
  cf_deletions : Z
}.

Record FormattedCommit : Type := {
  fc_author_name : option string;
  fc_files : option (list ChangedFile);
  fc_date : option string
}.

(** [x || new Date().toISOString()]: a given text, or the current time. *)
Inductive Stamp : Type :=
| Given (text : string)
| Now.

(** A value of [authorsMap]: a count, or the text that [+ 1] makes of a
    value that is not a number. *)
Inductive Count : Type :=
| Counted (n : Z)
| Text (s : string).

Record Summary : Type := {
  repositoryName : string;
  commitCount : Z;
  authors : list (string * Count);        (* [{ name, count }] *)
  mostChangedFiles : list (string * Z);   (* [{ filename, changes }] *)
  timeRange : Stamp * Stamp               (* [{ start, end }] *)
}.

(** [commit.author?.name || 'Unknown']. *)
Definition authorName (commit : FormattedCommit) : string :=
  match fc_author_name commit with
  | Some name => if String.eqb name "" then "Unknown" else name
  | None => "Unknown"
  end.

(** [(value || 0) + 1] for the own property [value] of [authorsMap]. *)
Definition next_count (value : Count) : Count :=
  match value with
  | Counted n => Counted (n + 1)
  | Text s => if String.eqb s "" then Counted 1 else Text (s +:+ "1")
  end.

(** [(authorsMap[name] || 0) + 1] while [authorsMap] has no own property
    [name]: the value inherited under a name of [Object.prototype] is
    truthy, and [+ 1] appends to its text. *)
Definition first_count (name : string) : Count :=
  if inherited name then Text (inherited_text name +:+ "1") else Counted 1.

(** [authorsMap[authorName] = (authorsMap[authorName] || 0) + 1] on the
    own properties of [authorsMap], kept in the order they were written.
    Assigning a text to [__proto__] writes nothing. *)
Fixpoint count_author (name : string) (authorsMap : list (string * Count))
    : list (string * Count) :=
  match authorsMap with
  | [] =>
      if String.eqb name "__proto__" then [] else [(name, first_count name)]
  | (k, v) :: rest =>
      if String.eqb k name then (k, next_count v) :: rest
      else (k, v) :: count_author name rest
  end.

Definition digit (c : ascii) : option N :=
  let n := N_of_ascii c in
  if ((48 <=? n) && (n <=? 57))%N then Some (n - 48)%N else None.

Fixpoint digits_value (s : string) (acc : N) : option N :=
  match s with
  | EmptyString => Some acc
  | String c r =>
      match digit c with
      | Some d => digits_value r (10 * acc + d)%N
      | None => None
      end
  end.

(** A property key that is an array index: the decimal text, without a
    leading zero, of an integer below 2^32 - 1. *)
Definition array_index (key : string) : option N :=
  match key with
  | EmptyString => None
  | String c r =>
      if Ascii.eqb c "0" && negb (String.eqb r "") then None
      else
        match digits_value key 0 with
        | Some v => if (v <? 4294967295)%N then Some v else None
        | None => None
        end
  end.

Section OwnProperties.
Context {V : Type}.

Definition is_index (kv : string * V) : bool :=
  match array_index (fst kv) with Some _ => true | None => false end.

Definition index_of (kv : string * V) : N :=
  default 0%N (array_index (fst kv)).

Fixpoint insert_index (x : string * V) (l : list (string * V))
    : list (string * V) :=
  match l with
  | [] => [x]
  | y :: rest =>
      if (index_of x <? index_of y)%N then x :: y :: rest
      else y :: insert_index x rest
  end.

(** The own properties in the order [Object.keys] lists them: array
    indices in ascending order, then the other keys in the order they
    were written. *)
Definition own_properties (o : list (string * V)) : list (string * V) :=
  fold_right insert_index [] (List.filter is_index o)
    ++ List.filter (fun kv => negb (is_index kv)) o.
End OwnProperties.

(** The step of the loop over the files: the changes of a file that is
    already listed are added to its entry, a new file is listed last. *)
Fixpoint add_changes (key : string) (changes : Z) (l : list (string * Z))
    : list (string * Z) :=
  match l with
  | [] => [(key, changes)]
  | (f, c) :: rest =>
      if String.eqb f key then (f, c + changes) :: rest
      else (f, c) :: add_changes key changes rest
  end.

Definition add_file (l : list (string * Z)) (file : ChangedFile)
    : list (string * Z) :=
  add_changes (cf_filename file) (cf_additions file + cf_deletions file) l.

Definition add_commit (l : list (string * Z)) (c : FormattedCommit)
    : list (string * Z) :=
  fold_left add_file (default [] (fc_files c)) l.

(** [sort((a, b) => b.changes - a.changes)]: the sort is stable, so the
    entries are in descending order of their changes and entries with
    the same changes keep their order. *)
Fixpoint insert_ranked (x : string * Z) (l : list (string * Z))
    : list (string * Z) :=
  match l with
  | [] => [x]
  | y :: rest =>
      if snd y <=? snd x then x :: y :: rest else y :: insert_ranked x rest
  end.

Definition sort_ranked (l : list (string * Z)) : list (string * Z) :=
  fold_right insert_ranked [] l.

Definition stamp (date : option string) : Stamp :=
  match date with
  | Some text => if String.eqb text "" then Now else Given text
  | None => Now
  end.

(** [GithubService.summarizeCommits(owner, repo, commits)]. *)
Definition summarizeCommits (owner repo : string)
    (commits : list FormattedCommit) : Summary :=
  let authorsMap :=
    fold_left (fun m c => count_author (authorName c) m) commits [] in
  {| repositoryName := owner +:+ "/" +:+ repo;
     commitCount := Z.of_nat (length commits);
     authors := own_properties authorsMap;
     mostChangedFiles := sort_ranked (fold_left add_commit commits []);
     timeRange :=
       (stamp (head commits ≫= fc_date),
        stamp (last commits ≫= fc_date)) |}.

(** The sum of the second components. *)
Definition total (l : list (string * Z)) : Z :=
  fold_right Z.add 0 (map snd l).

(** The entry of a key, 0 when the key is not listed. *)
Definition entry (k : string) (l : list (string * Z)) : Z :=
  default 0 (snd <$> find (fun kv => String.eqb (fst kv) k) l).

(** The number of commits counted under an author name. *)
Definition commits_of (name : string) (commits : list FormattedCommit) : Z :=
  Z.of_nat
    (length (List.filter (fun c => String.eqb (authorName c) name) commits)).

(** The files of all commits, and the sum of their changes. *)
Definition files_of (commits : list FormattedCommit) : list ChangedFile :=
  concat (map (fun c => default [] (fc_files c)) commits).

Definition all_changes (commits : list FormattedCommit) : Z :=
  fold_right Z.add 0
    (map (fun f => cf_additions f + cf_deletions f) (files_of commits)).

End GithubSummary.

(* ===================================================================== *)
(** ** Text as a sequence of code units                                   *)
(* ===================================================================== *)

Module Text.

Section Slice.
Context {C : Type}.

(** [s.slice(b, e)]: negative indices count from the end, both ends are
    clamped to the text, and an empty span gives the empty text. *)
Definition slice (s : list C) (b e : Z) : list C :=
  let len := Z.of_nat (length s) in
  let from := if b <? 0 then Z.max (len + b) 0 else Z.min b len in
  let to := if e <? 0 then Z.max (len + e) 0 else Z.min e len in
  take (Z.to_nat (Z.max (to - from) 0)) (drop (Z.to_nat from) s).
End Slice.

End Text.

(* ===================================================================== *)
(** ** AIService: context trimming and cover image                        *)
(* ===================================================================== *)

Module AIService.
Import JS Schema Runtime.
Local Open Scope js_scope.

Section AdjustContent.
Context {C : Type}.

Record Message : Type := { role : string; content : list C }.

(** [promptTokensEstimate] of the package openai-chat-tokens, which is
    not part of this repository: an arbitrary integer-valued estimate. *)
Variable estimateTokens : list Message -> Z.

(** The local variables of [adjustContent]. *)
Record Trim : Type := {
  iteration : Z;
  system : list C;
  history : list Message;
  prompt : list C
}.

Definition messages (t : Trim) : list Message :=
  {| role := "system"; content := system t |} :: history t
    ++ [{| role := "user"; content := prompt t |}].

Definition maxIterations : Z := 100.
Definition approxCharsPerToken : Z := 4.

(** [Math.ceil(tokensOver * 0.5)] on an integer. *)
Definition ceil_half (tokensOver : Z) : Z := (tokensOver + 1) / 2.

(** One pass of the [if / else if] chain; [None] is its final [break]. *)
Definition trim_once (targetTokens : Z) (t : Trim) : option Trim :=
  let currentTokens := estimateTokens (messages t) in
  let tokensOver := currentTokens - targetTokens in
  let chunkSize := ceil_half tokensOver in
  let charsToRemove := chunkSize * approxCharsPerToken in
  if (1 <? length (history t))%nat then
    Some {| iteration := iteration t; system := system t;
            history := tail (history t); prompt := prompt t |}
  else if 50 <? Z.of_nat (length (system t)) then
    let trimLength :=
      Z.min charsToRemove (Z.of_nat (length (system t)) - 50) in
    Some {| iteration := iteration t;
            system := Text.slice (system t) 0 (- trimLength);
            history := history t; prompt := prompt t |}
  else if 50 <? Z.of_nat (length (prompt t)) then
    let trimLength :=
      Z.min charsToRemove (Z.of_nat (length (prompt t)) - 50) in
    Some {| iteration := iteration t; system := system t;
            history := history t;
            prompt := Text.slice (prompt t) 0 (- trimLength) |}
  else None.

Definition bump (t : Trim) : Trim :=
  {| iteration := iteration t + 1; system := system t;
     history := history t; prompt := prompt t |}.

(** The [while] loop.  [left] bounds the passes still possible before
    [iteration] exceeds [maxIterations]; the loop leaves through its own
    tests, never through [left] (lemma [while_loop_fuel]). *)
Fixpoint while_loop (left : nat) (targetTokens : Z) (t : Trim) : Trim :=
  if targetTokens <? estimateTokens (messages t) then
    let t1 := bump t in
    if maxIterations <? iteration t1 then t1
    else
      match left with
      | O => t1
      | S left' =>
          match trim_once targetTokens t1 with
          | Some t2 => while_loop left' targetTokens t2
          | None => t1
          end
      end
  else t.

(** [adjustContent(system, history, prompt, contextWindow)] with the
    final value of its counter. *)
Definition adjustContent_run (sys : list C) (hist : list Message)
    (prm : list C) (contextWindow : Z) : Trim :=
  while_loop (Z.to_nat maxIterations) contextWindow
    {| iteration := 0; system := sys; history := hist; prompt := prm |}.

Definition adjustContent (sys : list C) (hist : list Message)
    (prm : list C) (contextWindow : Z)
    : list C * list Message * list C :=
  let t := adjustContent_run sys hist prm contextWindow in
  (system t, history t, prompt t).

(** [estimateTokens] of the returned triple. *)
Definition estimate_of (r : list C * list Message * list C) : Z :=
  let '(s, h, p) := r in
  estimateTokens
    ({| role := "system"; content := s |} :: h
       ++ [{| role := "user"; content := p |}]).

(** Nothing left to trim: the last [else] of the chain. *)
Definition at_floor (r : list C * list Message * list C) : Prop :=
  let '(s, h, p) := r in
  (length h <= 1)%nat /\ (length s <= 50)%nat /\ (length p <= 50)%nat.

End AdjustContent.

(** The state of the trimmer after some passes, against the state [t] it
    started from: the system text and the prompt are cut at their end and
    kept above the floor of 50 code units, the history loses its oldest
    entries and keeps one, and the three are cut in this order. *)
Definition trimmed_from {C : Type} (t t' : @Trim C) : Prop :=
  system t' `prefix_of` system t
  /\ history t' `suffix_of` history t
  /\ prompt t' `prefix_of` prompt t
  /\ (Nat.min 50 (length (system t)) <= length (system t'))%nat
  /\ (Nat.min 1 (length (history t)) <= length (history t'))%nat
  /\ (Nat.min 50 (length (prompt t)) <= length (prompt t'))%nat
  /\ (system t' = system t \/ (length (history t') <= 1)%nat)
  /\ (prompt t' = prompt t
      \/ ((length (history t') <= 1)%nat /\ (length (system t') <= 50)%nat)).

Section CoverImage.
Variable env : Env.

(** [AIService.generateCoverImage(prompt, { size, model })]; [n] and
    [responseFormat] keep their defaults.  The request goes straight to
    axios, without the ApiCall cache. *)
Definition generateCoverImage (prompt size model : string) : M Attachment :=
  if String.eqb prompt "" then
    throw (mkError "Prompt de imagen requerido")
  else
    try_catch
      (let endpoint := "https://api.openai.com/v1/images/generations" in
       startTime <- Date_now ;;
       reply <- axios_call env
         {| rq_method := "post";
            rq_url := endpoint;
            rq_headers :=
              [("Authorization",
                "Bearer " +:+ template (openai_api_key env));
               ("Content-Type", "application/json")];
            rq_params := JUndefined;
            rq_data :=
              JObj [("prompt", JStr prompt); ("model", JStr model);
                    ("n", JNum 1); ("size", JStr size);
                    ("response_format", JStr "url")] |} ;;
       endTime <- Date_now ;;
       let imageData := get_opt (snd reply) "data" in
       if negb (truthy imageData)
          || match get_opt imageData "length" with
             | JNum 0 => true
             | _ => false
             end
       then throw (mkError "No se recibió URL de imagen de OpenAI")
       else
         imageUrl <- property (get_opt imageData "0") "url" ;;
         if negb (truthy imageUrl) then
           throw (mkError "No se pudo extraer la URL de la imagen generada")
         else
           UploadService.createAttachmentFromUrl env imageUrl
             {| UploadService.params_acl := Some "public-read";
                UploadService.params_metas :=
                  Some [("openaiEndpoint", JStr endpoint);
                        ("openaiModel", JStr model);
                        ("openaiSize", JStr size);
                        ("openaiPrompt", JStr prompt);
                        ("openaiResponseTime", JNum (endTime - startTime))] |})
      (fun error =>
         console_put Error ("Error generando imagen: " +:+ message error) ;;;
         throw (mkError ("Error generando cover image: " +:+ message error))).
End CoverImage.

End AIService.

(* ===================================================================== *)
(** ** KaraokeService: chunker, callbacks, polling, song submission       *)
(* ===================================================================== *)

Module KaraokeService.
Import JS Schema Runtime.
Local Open Scope js_scope.

Section Chunker.
Context {C : Type}.

(** The [while (startIndex < text.length)] loop.  For a chunk size that
    is not positive the source loop never ends; [None] is a run that is
    still looping after [fuel] passes. *)
Fixpoint chunk_loop (fuel : nat) (text : list C) (maxChars startIndex : Z)
    (chunks : list (list C)) : option (list (list C)) :=
  if startIndex <? Z.of_nat (length text) then
    match fuel with
    | O => None
    | S fuel' =>
        let endIndex := Z.min (startIndex + maxChars) (Z.of_nat (length text)) in
        let chunk := Text.slice text startIndex endIndex in
        chunk_loop fuel' text maxChars endIndex (chunks ++ [chunk])
    end
  else Some chunks.

(** [chunkTextByTokens(text, maxTokens = 3000)]. *)
Definition chunkTextByTokens (fuel : nat) (text : list C)
    (maxTokens : option Z) : option (list (list C)) :=
  let approxCharsPerToken := 4 in
  let maxChars := default 3000 maxTokens * approxCharsPerToken in
  chunk_loop fuel text maxChars 0 [].
End Chunker.

Record LyricsCallbackResult : Type := {
  lr_status : string;
  lr_taskId : JsValue;
  lr_callbackType : JsValue;
  lr_message : string
}.

Record CallbackResult : Type := {
  cr_status : string;
  cr_taskId : JsValue;
  cr_callbackType : JsValue;
  cr_savedFiles : list (JsValue * Attachment);
  cr_doAttachments : list Attachment
}.

Record StatusResult : Type := {
  sr_status : string;
  sr_taskId : string;
  sr_songStatus : JsValue;
  sr_details : JsValue
}.

(** The commit summary handed over by the earlier pipeline steps. *)
Record CommitSummary : Type := {
  cs_start : JsValue;
  cs_end : JsValue;
  cs_commitCount : Z
}.

Record SongResult : Type := {
  sg_status : string;
  sg_owner : string;
  sg_repo : string;
  sg_url : string;
  sg_total : Z;
  sg_title : string;
  sg_lyrics : string;
  sg_taskId : JsValue;
  sg_instrumental : bool
}.

Definition find_song_by_task (task : string) (l : list Song) : option Song :=
  find (fun sg => bool_decide (song_suno_task_id sg = Some task)) l.

(** [callbackData.data.task_id]. *)
Definition callback_task (callbackData : JsValue) : JsValue :=
  get_opt (get_opt callbackData "data") "task_id".

(** [callbackData.data.callbackType || fallback]. *)
Definition callback_type (callbackData : JsValue) (fallback : string) : JsValue :=
  or_else (get_opt (get_opt callbackData "data") "callbackType") (JStr fallback).

(** [!callbackData || !callbackData.data]. *)
Definition callback_invalid (callbackData : JsValue) : bool :=
  negb (truthy callbackData) || negb (truthy (get_opt callbackData "data")).

Definition invalid_callback : string :=
  "Invalid callback data (no " +:+ String dquote "data"
    +:+ String dquote " field)".

Section WithEnv.
Variable env : Env.

(** [prisma.song.findUnique({ where: { suno_task_id } })]: the client
    rejects a key that is not a string before reaching the database. *)
Definition song_findUnique (suno_task_id : JsValue) : M (option Song) :=
  match suno_task_id with
  | JStr task =>
      db_access env ;;; gets (fun w => find_song_by_task task (songs w))
  | _ => throw (mkError "Invalid `prisma.song.findUnique()` invocation")
  end.

(** [prisma.song.update({ where: { id }, data })]. *)
Definition song_update (id : Z) (data : Song -> Song) : M unit :=
  db_access env ;;;
  found <- gets (fun w => existsb (fun sg => song_id sg =? id) (songs w)) ;;
  if found : bool then
    modify (fun w =>
      set_songs
        (map (fun sg => if song_id sg =? id then data sg else sg) (songs w)) w)
  else throw (mkError "Record to update not found.").

(** [prisma.audioFile.create({ data })]. *)
Definition audioFile_create (row : AudioFile) : M unit :=
  db_access env ;;;
  modify (fun w => set_audioFiles (audioFiles w ++ [row]) w).

(** [data: { lyrics: improvedLyrics }]; [updated_at] is an [@updatedAt]
    column. *)
Definition with_lyrics (text : string) (now : Z) (row : Song) : Song :=
  {| song_id := song_id row;
     song_title := song_title row;
     song_lyrics := text;
     song_style := song_style row;
     song_instrumental := song_instrumental row;
     song_suno_task_id := song_suno_task_id row;
     song_cover_image_url := song_cover_image_url row;
     song_status := song_status row;
     song_repository_id := song_repository_id row;
     song_time_range := song_time_range row;
     song_commit_count := song_commit_count row;
     song_prompt := song_prompt row;
     song_created_at := song_created_at row;
     song_updated_at := now;
     song_completed_at := song_completed_at row |}.

(** [KaraokeService.handleSunoCallbackLyrics(callbackData)]. *)
Definition handleSunoCallbackLyrics (callbackData : JsValue)
    : M LyricsCallbackResult :=
  try_catch
    (console_put Log "LYRICS CALLBACK DEBUG" ;;;
     if callback_invalid callbackData then throw (mkError invalid_callback)
     else
       let data := get_opt callbackData "data" in
       let sunoTaskId := callback_task callbackData in
       let callbackType := callback_type callbackData "lyrics" in
       songRecord <- song_findUnique sunoTaskId ;;
       match songRecord with
       | None =>
           console_put Warn
             ("No Song record found for suno_task_id: "
                +:+ to_string sunoTaskId)
       | Some sg =>
           let improvedLyrics := get_opt data "lyrics" in
           if truthy improvedLyrics then
             console_put Log "Updating song with improved lyrics from callback..." ;;;
             now <- Date_now ;;
             match improvedLyrics with
             | JStr text => song_update (song_id sg) (with_lyrics text now)
             | _ => throw (mkError "Invalid `prisma.song.update()` invocation")
             end
           else ret tt
       end ;;;
       ret {| lr_status := "success";
              lr_taskId := sunoTaskId;
              lr_callbackType := callbackType;
              lr_message := "Lyrics callback processed successfully" |})
    (fun error =>
       console_put Error
         ("Error handling Suno lyrics callback: " +:+ message error) ;;;
       throw (mkError
                ("Error handling Suno lyrics callback: " +:+ message error))).

(** [data: { status: 'completed', completed_at: new Date() }]. *)
Definition mark_completed (now : Z) (row : Song) : Song :=
  {| song_id := song_id row;
     song_title := song_title row;
     song_lyrics := song_lyrics row;
     song_style := song_style row;
     song_instrumental := song_instrumental row;
     song_suno_task_id := song_suno_task_id row;
     song_cover_image_url := song_cover_image_url row;
     song_status := "completed";
     song_repository_id := song_repository_id row;
     song_time_range := song_time_range row;
     song_commit_count := song_commit_count row;
     song_prompt := song_prompt row;
     song_created_at := song_created_at row;
     song_updated_at := now;
     song_completed_at := Some now |}.

(** Step 3 of [handleSunoCallback].  The files come from
    [downloadAndSaveSongFromCallback], which never sets [filePath], so
    every element takes the branch that already has its attachment. *)
Fixpoint link_attachments (songRecord : option Song)
    (savedFiles : list (JsValue * Attachment))
    (doAttachments : list Attachment) : M (list Attachment) :=
  match savedFiles with
  | [] => ret doAttachments
  | (trackInfo, attachment) :: rest =>
      console_put Log
        ("We already have an attachment from SunoService: "
           +:+ att_url attachment) ;;;
      match songRecord with
      | Some sg =>
          audioFile_create
            {| af_filename :=
                 if String.eqb (att_slug attachment) ""
                 then number_to_string (att_id attachment) +:+ ".mp3"
                 else att_slug attachment;
               af_url := att_url attachment;
               af_file_type := "mp3";
               af_mime_type :=
                 if String.eqb (att_mime attachment) "" then "audio/mpeg"
                 else att_mime attachment;
               af_is_vocal := true;
               af_is_original := true;
               af_song_id := song_id sg;
               af_attachment_id := att_id attachment;
               af_suno_audio_id := or_else (get_opt trackInfo "id") JNull |}
      | None => ret tt
      end ;;;
      link_attachments songRecord rest (doAttachments ++ [attachment])
  end.

(** Steps 2 and 3 of [handleSunoCallback]: find the song of the task,
    mark it completed when the callback says so, link the saved files. *)
Definition reconcile (callbackData : JsValue)
    (savedFiles : list (JsValue * Attachment)) : M CallbackResult :=
  let sunoTaskId := callback_task callbackData in
  let callbackType := callback_type callbackData "" in
  songRecord <- song_findUnique sunoTaskId ;;
  match songRecord with
  | None =>
      console_put Warn
        ("No Song record found for suno_task_id: "
           +:+ to_string sunoTaskId)
  | Some sg =>
      if is_string callbackType "complete" then
        console_put Log "Marking Song as completed" ;;;
        now <- Date_now ;;
        song_update (song_id sg) (mark_completed now)
      else
        console_put Log
          ("Callback type: " +:+ to_string callbackType
             +:+ ". Not marking as complete yet.")
  end ;;;
  doAttachments <- link_attachments songRecord savedFiles [] ;;
  ret {| cr_status := "success";
         cr_taskId := sunoTaskId;
         cr_callbackType := callbackType;
         cr_savedFiles := savedFiles;
         cr_doAttachments := doAttachments |}.

(** [KaraokeService.handleSunoCallback(callbackData)]. *)
Definition handleSunoCallback (callbackData : JsValue) : M CallbackResult :=
  try_catch
    (console_put Log "Received Suno callback" ;;;
     if callback_invalid callbackData then throw (mkError invalid_callback)
     else
       console_put Log "Downloading song files from callback..." ;;;
       savedFiles <- Gateway.downloadAndSaveSongFromCallback env callbackData ;;
       reconcile callbackData savedFiles)
    (fun error =>
       console_put Error ("Error handling Suno callback: " +:+ message error) ;;;
       throw (mkError ("Error handling Suno callback: " +:+ message error))).

(** [KaraokeService.checkSongStatus(taskId)]: the poll. *)
Definition checkSongStatus (taskId : string) : M StatusResult :=
  try_catch
    (console_put Log ("Checking status of song task: " +:+ taskId) ;;;
     console_put Log
       "Calling SunoService.getTaskDetails with disableCache: true" ;;;
     taskDetails <- Gateway.getTaskDetails env taskId
                      (Gateway.force_disableCache Gateway.no_options) ;;
     data <- property taskDetails "data" ;;
     status <- property data "status" ;;
     ret {| sr_status := "success"; sr_taskId := taskId;
            sr_songStatus := status; sr_details := data |})
    (fun error =>
       console_put Error ("Error checking song status: " +:+ message error) ;;;
       throw (mkError ("Error checking song status: " +:+ message error))).

Definition song_not_complete (maxAttempts : Z) : string :=
  "Song did not complete after " +:+ number_to_string maxAttempts
    +:+ " attempts".

(** [poll] of [waitForSongCompletion].  [attempts] is the counter of the
    source; [left] bounds the polls still possible before the counter
    reaches [maxAttempts], and the wait never ends through [left]. *)
Fixpoint poll (left : nat) (taskId : string) (maxAttempts interval : Z)
    (attempts : Z) : M JsValue :=
  console_put Log
    ("Polling attempt " +:+ number_to_string (attempts + 1) +:+ "/"
       +:+ number_to_string maxAttempts +:+ " for taskId=" +:+ taskId) ;;;
  taskDetails <- Gateway.getTaskDetails env taskId
                   (Gateway.force_disableCache Gateway.no_options) ;;
  let status := or_else (Gateway.task_status taskDetails) (JStr "UNKNOWN") in
  if is_string status "SUCCESS" then
    console_put Log ("Song generation success for task: " +:+ taskId) ;;;
    ret taskDetails
  else
    failed <- Gateway.status_includes status "FAILED" ;;
    failed <- (if failed : bool then ret true
               else Gateway.status_includes status "ERROR") ;;
    if failed : bool then
      throw (mkError
               ("Song generation failed with status: " +:+ to_string status))
    else
      let attempts := attempts + 1 in
      if maxAttempts <=? attempts then
        throw (mkError (song_not_complete maxAttempts))
      else
        sleep interval ;;;
        match left with
        | O => throw (mkError (song_not_complete maxAttempts))
        | S left' => poll left' taskId maxAttempts interval attempts
        end.

(** [KaraokeService.waitForSongCompletion(taskId, maxAttempts = 60,
    interval = 5000)]. *)
Definition waitForSongCompletion (taskId : string)
    (maxAttempts interval : option Z) : M StatusResult :=
  let maxAttempts := default 60 maxAttempts in
  try_catch
    (console_put Log ("Waiting for song completion: " +:+ taskId) ;;;
     completedTask <- poll (Z.to_nat maxAttempts) taskId maxAttempts
                        (default 5000 interval) 0 ;;
     console_put Log ("Song generation completed for taskId: " +:+ taskId) ;;;
     data <- property completedTask "data" ;;
     status <- property data "status" ;;
     ret {| sr_status := "success"; sr_taskId := taskId;
            sr_songStatus := status; sr_details := data |})
    (fun error =>
       console_put Error
         ("Error waiting for song completion: " +:+ message error) ;;;
       throw (mkError
                ("Error waiting for song completion: " +:+ message error))).

(** [prisma.repository.findUnique({ where: { full_name } })]. *)
Definition repository_findUnique (full_name : string)
    : M (option Repository) :=
  db_access env ;;;
  gets (fun w =>
          find (fun r => String.eqb (repo_full_name r) full_name)
            (repositories w)).

(** [prisma.repository.create({ data })]. *)
Definition repository_create (owner name full_name url : string)
    : M Repository :=
  db_access env ;;;
  now <- Date_now ;;
  id <- gets (fun w => next_id repo_id (repositories w)) ;;
  let row := {| repo_id := id; repo_owner := owner; repo_name := name;
                repo_full_name := full_name; repo_url := url;
                repo_description := ""; repo_created_at := now;
                repo_updated_at := now |} in
  modify (fun w => set_repositories (repositories w ++ [row]) w) ;;;
  ret row.

(** [#findOrCreateRepoId(owner, repo, url)]. *)
Definition findOrCreateRepoId (owner repo url : string) : M Z :=
  let full_name := owner +:+ "/" +:+ repo in
  existing <- repository_findUnique full_name ;;
  match existing with
  | Some r => ret (repo_id r)
  | None =>
      created <- repository_create owner repo full_name url ;;
      console_put Log
        ("Created new repository record: " +:+ number_to_string (repo_id created)) ;;;
      ret (repo_id created)
  end.

(** [prisma.song.create({ data })]: [suno_task_id] is a unique string
    column, [cover_image_url] a string column that may be null. *)
Definition song_create (suno_task_id cover_image_url : JsValue)
    (row : Z -> string -> Song) : M Song :=
  match suno_task_id, cover_image_url with
  | JStr task, (JStr _ | JNull) =>
      db_access env ;;;
      taken <- gets (fun w => find_song_by_task task (songs w)) ;;
      match taken with
      | Some _ =>
          throw (mkError
            "Unique constraint failed on the fields: (`suno_task_id`)")
      | None =>
          id <- gets (fun w => next_id song_id (songs w)) ;;
          modify (fun w => set_songs (songs w ++ [row id task]) w) ;;;
          ret (row id task)
      end
  | _, _ => throw (mkError "Invalid `prisma.song.create()` invocation")
  end.

(** [coverAttachment?.metas?.location || null], and the text it stores
    in the column. *)
Definition cover_location (coverAttachment : Attachment) : JsValue :=
  or_else (get_opt (att_metas coverAttachment) "location") JNull.

Definition att_location (coverAttachment : Attachment) : option string :=
  match cover_location coverAttachment with
  | JStr location => Some location
  | _ => None
  end.

Definition coverPrompt (songTitle musicStyle : string) : string :=
  "Genera una imagen que represente el titulo de la cancion "
    +:+ String dquote songTitle +:+ String dquote
    " en un estilo comico sin incluir ninguna palabras olo una imagen mnuy graciosa representativa del nombre de la cacnion y del estilo de musica "
    +:+ String dquote musicStyle +:+ String dquote ".".

(** Step 11 of [generateSongFromRepo], "Send to Suno": the music
    generation request, preceded by the lyrics request unless the song
    is instrumental. *)
Definition submit_to_suno (musicStyle : string) (instrumental : bool)
    (callbackUrl songLyrics songTitle : string) : M JsValue :=
  if instrumental then
    Gateway.generateAudio env
      {| Gateway.ap_prompt :=
           "A " +:+ musicStyle
             +:+ " song about code and software development";
         Gateway.ap_style := Some musicStyle;
         Gateway.ap_title := Some songTitle;
         Gateway.ap_customMode := Some true;
         Gateway.ap_instrumental := Some true;
         Gateway.ap_model := Some "V3_5";
         Gateway.ap_callBackUrl := callbackUrl |}
  else
    console_put Log "Sending lyrics to Suno API for better formatting" ;;;
    Gateway.generateLyrics env songLyrics
      (callbackUrl +:+ "/karaoke/callback/lyrics") ;;;
    Gateway.generateAudio env
      {| Gateway.ap_prompt := songLyrics;
         Gateway.ap_style := Some musicStyle;
         Gateway.ap_title := Some songTitle;
         Gateway.ap_customMode := Some true;
         Gateway.ap_instrumental := Some false;
         Gateway.ap_model := Some "V3_5";
         Gateway.ap_callBackUrl := callbackUrl +:+ "/karaoke/callback" |}.

(** The cover image step: the inner [try] whose [catch] logs and
    rethrows. *)
Definition cover_step (songTitle musicStyle : string) : M Attachment :=
  try_catch
    (AIService.generateCoverImage env (coverPrompt songTitle musicStyle)
       "512x512" "dall-e-2")
    (fun error =>
       console_put Error
         ("Error al generar o guardar la imagen: " +:+ message error) ;;;
       throw error).

(** The song row is created only after the cover image step. *)
Definition store_song (owner repo repoUrl musicStyle : string)
    (instrumental : bool) (songLyrics songTitle : string)
    (commitSummary : CommitSummary) (sunoTaskId : JsValue)
    (coverAttachment : Attachment) : M SongResult :=
  console_put Log "Storing new song record in DB..." ;;;
  repoId <- findOrCreateRepoId owner repo repoUrl ;;
  now <- Date_now ;;
  newSong <- song_create sunoTaskId (cover_location coverAttachment)
    (fun id task =>
       {| song_id := id;
          song_title := songTitle;
          song_lyrics := songLyrics;
          song_style := Some musicStyle;
          song_instrumental := instrumental;
          song_suno_task_id := Some task;
          song_cover_image_url := att_location coverAttachment;
          song_status := "pending";
          song_repository_id := repoId;
          song_time_range :=
            JObj [("start", cs_start commitSummary);
                  ("end", cs_end commitSummary)];
          song_commit_count := cs_commitCount commitSummary;
          song_prompt := Some songLyrics;
          song_created_at := now;
          song_updated_at := now;
          song_completed_at := None |}) ;;
  console_put Log
    ("Song record created: " +:+ number_to_string (song_id newSong)) ;;;
  ret {| sg_status := "success";
         sg_owner := owner; sg_repo := repo; sg_url := repoUrl;
         sg_total := cs_commitCount commitSummary;
         sg_title := songTitle; sg_lyrics := songLyrics;
         sg_taskId := sunoTaskId;
         sg_instrumental := instrumental |}.

(** [songGenerationResponse.data.taskId], when both are truthy. *)
Definition task_of (songGenerationResponse : JsValue) : option JsValue :=
  if negb (truthy songGenerationResponse)
     || negb (truthy (get_opt songGenerationResponse "data"))
  then None
  else
    let sunoTaskId := get_opt (get_opt songGenerationResponse "data") "taskId" in
    if truthy sunoTaskId then Some sunoTaskId else None.

(** [generateSongFromRepo], from step 11 to the end of its [try] block,
    with the enclosing [catch].  The earlier steps run through
    collaborators outside this development and hand over the repository
    coordinates, the commit summary, the lyrics and the title. *)
Definition generateSongFromRepo_submit (owner repo repoUrl musicStyle : string)
    (instrumental : bool) (callbackUrl songLyrics songTitle : string)
    (commitSummary : CommitSummary) : M SongResult :=
  try_catch
    (console_put Log "Generating final audio with Suno API" ;;;
     songGenerationResponse <-
       submit_to_suno musicStyle instrumental callbackUrl songLyrics songTitle ;;
     if negb (truthy songGenerationResponse)
        || negb (truthy (get_opt songGenerationResponse "data"))
     then
       console_put Error "SunoService response:" ;;;
       throw (mkError
                ("No " +:+ String dquote "data" +:+ String dquote
                   " found in response from SunoService.generateAudio()"))
     else
       let sunoTaskId := get_opt (get_opt songGenerationResponse "data") "taskId" in
       if negb (truthy sunoTaskId) then
         console_put Error
           (String dquote "taskId" +:+ String dquote " missing in response data:") ;;;
         throw (mkError
                  ("No " +:+ String dquote "taskId" +:+ String dquote
                     " found in SunoService response data"))
       else
         console_put Log
           ("Song generation task initiated with ID: " +:+ to_string sunoTaskId) ;;;
         coverAttachment <- cover_step songTitle musicStyle ;;
         store_song owner repo repoUrl musicStyle instrumental songLyrics
           songTitle commitSummary sunoTaskId coverAttachment)
    (fun error =>
       console_put Error
         ("Error generating song from repo: " +:+ message error) ;;;
       throw (mkError
                ("Error generating song from repository: " +:+ message error))).

End WithEnv.

(** What the submission throws when the reply of the music service
    carries no task id. *)
Definition no_task_message (resp : JsValue) : string :=
  if negb (truthy resp) || negb (truthy (get_opt resp "data"))
  then "No " +:+ String dquote "data" +:+ String dquote
         " found in response from SunoService.generateAudio()"
  else "No " +:+ String dquote "taskId" +:+ String dquote
         " found in SunoService response data".


(** A song row after a lyrics callback that carries [text]: the lyrics
    and the update time are written, every other column is kept. *)
Definition lyrics_replaced (text : string) (now : Z) (r r' : Song) : Prop :=
  song_lyrics r' = text
  /\ song_updated_at r' = now
  /\ song_id r' = song_id r
  /\ song_title r' = song_title r
  /\ song_status r' = song_status r
  /\ song_suno_task_id r' = song_suno_task_id r
  /\ song_completed_at r' = song_completed_at r
  /\ song_created_at r' = song_created_at r.




(** [taskDetails?.data?.status || 'UNKNOWN']. *)
Definition polled_status (taskDetails : JsValue) : JsValue :=
  or_else (Gateway.task_status taskDetails) (JStr "UNKNOWN").

(** The console line that opens a poll of [waitForSongCompletion]. *)
Definition polling_line (taskId : string) (maxAttempts attempts : Z)
    : Level * string :=
  (Log,
   "Polling attempt " +:+ number_to_string (attempts + 1) +:+ "/"
     +:+ number_to_string maxAttempts +:+ " for taskId=" +:+ taskId).

(** [status.includes('FAILED') || status.includes('ERROR')]; [None] is
    the TypeError of a status without [includes]. *)
Definition verdict (status : JsValue) : option bool :=
  match includes_method status "FAILED" with
  | Some true => Some true
  | Some false => includes_method status "ERROR"
  | None => None
  end.

(** A reply that makes [waitForSongCompletion] give up: its status is a
    text or list with FAILED or ERROR. *)
Definition song_failed (taskDetails : JsValue) : Prop :=
  is_string (polled_status taskDetails) "SUCCESS" = false
  /\ (includes_method (polled_status taskDetails) "FAILED" = Some true
      \/ (includes_method (polled_status taskDetails) "FAILED" = Some false
          /\ includes_method (polled_status taskDetails) "ERROR" = Some true)).

(** No song is known for the task id the callback carries. *)
Definition unknown_task (callbackData : JsValue) (w : World) : Prop :=
  forall task,
    callback_task callbackData = JStr task ->
    find_song_by_task task (songs w) = None.

End KaraokeService.

(* ===================================================================== *)
(** ** KaraokeController: the callback and task status endpoints          *)
(* ===================================================================== *)

Module KaraokeController.
Import JS Schema Runtime.
Local Open Scope js_scope.

(** The argument of [res.respond]; [status] is left out on success. *)
Record Response (A : Type) : Type := {
  rs_status : option Z;
  rs_message : string;
  rs_data : option A
}.
Arguments rs_status {A} _.
Arguments rs_message {A} _.
Arguments rs_data {A} _.

Section WithEnv.
Variable env : Env.

(** [POST /karaoke/callback]; the error object that [console.error]
    prints after its label is left out. *)
Definition handleSunoCallback (callbackData : JsValue)
    : M (Response KaraokeService.CallbackResult) :=
  try_catch
    (result <- KaraokeService.handleSunoCallback env callbackData ;;
     ret {| rs_status := None;
            rs_message := "Callback processed successfully";
            rs_data := Some result |})
    (fun error =>
       console_put Error "handleSunoCallback error:" ;;;
       ret {| rs_status := Some 500;
              rs_message := "Failed to process callback: " +:+ message error;
              rs_data := None |}).

(** [GET /karaoke/tasks/:taskId]. *)
Definition checkSongTaskStatus (taskId : string)
    : M (Response KaraokeService.StatusResult) :=
  try_catch
    (if String.eqb taskId "" then
       ret {| rs_status := Some 400;
              rs_message := "Missing parameter: taskId";
              rs_data := None |}
     else
       statusResult <- KaraokeService.checkSongStatus env taskId ;;
       ret {| rs_status := None;
              rs_message := "Task status retrieved successfully";
              rs_data := Some statusResult |})
    (fun error =>
       console_put Error "checkSongTaskStatus error:" ;;;
       ret {| rs_status := Some 500;
              rs_message := "Failed to check task status: " +:+ message error;
              rs_data := None |}).

End WithEnv.

End KaraokeController.


(* ===================================================================== *)
(** ** Concrete collaborators and worlds for the examples                 *)
(* ===================================================================== *)

Module Fixtures.
Import JS Schema Runtime Gateway.

(** The reply of the music service for task T1. *)
Definition task_reply (status : string) : JsValue :=
  JObj [("code", JNum 200); ("msg", JStr "success");
        ("data", JObj [("taskId", JStr "T1"); ("status", JStr status)])].

(** A stand-in for Node's [path]: the extension starts at the last dot
    that is not the first character, and [basename] drops a suffix that
    is not the whole name. *)
Fixpoint extname (name : string) : string :=
  match name with
  | EmptyString => EmptyString
  | String c r =>
      if includes r "." then extname r
      else if Ascii.eqb c "." then name else EmptyString
  end.

Definition path_extname_of (name : string) : string :=
  match name with
  | EmptyString => EmptyString
  | String _ r => extname r
  end.

Fixpoint drop_suffix (name suffix : string) : string :=
  match name with
  | EmptyString => EmptyString
  | String c r => if String.eqb r suffix then String c "" else String c (drop_suffix r suffix)
  end.

Definition path_basename_of (name suffix : string) : string :=
  if String.eqb suffix "" then name else drop_suffix name suffix.

Definition node : Platform :=
  {| path_extname := path_extname_of;
     path_basename := path_basename_of;
     basename_type_error := fun name =>
       mkError ("The " +:+ String dquote "suffix" +:+ String dquote
                  " argument must be of type string. Received function "
                  +:+ name);
     inspect_inherited := fun name => "[Function: " +:+ name +:+ "]";
     lower_case := toLowerCase;
     uuidv4 := fun n => "0000000" +:+ number_to_string (Z.of_nat n);
     slugify := toLowerCase;
     getFullYear := fun _ => 2025;
     getMonth := fun _ => 0 |}.

(** A download: a request for a file of the example hosts. *)
Definition is_file (rq : Request) : bool := includes (rq_url rq) ".example/".

Definition file_reply : Z * (JsError + (Z * JsValue)) :=
  (300, inr (200, JStr "ID3")).

Definition audio_headers : nat -> list (string * string) :=
  fun _ => [("content-type", "audio/mpeg"); ("content-length", "4096")].

Definition image_headers : nat -> list (string * string) :=
  fun _ => [("content-type", "image/png"); ("content-length", "2048")].

(** The object store keeps every object and answers with its address. *)
Definition s3_stores (n : nat) (params : S3Params)
    : Z * (JsError + JsValue) :=
  (200, inr (JObj [("Location",
                    JStr ("https://cdn.example/" +:+ s3_Key params));
                   ("Key", JStr (s3_Key params))])).

(** The reply of the music service, or the file for a download. *)
Definition answers (reply : Z * (JsError + (Z * JsValue))) (rq : Request)
    : Z * (JsError + (Z * JsValue)) :=
  if is_file rq then file_reply else reply.

Definition network_error : JsError :=
  {| message := "Network Error"; response := None |}.

Definition server_error : JsError :=
  {| message := "Request failed with status code 500";
     response := Some (500, JObj [("error", JStr "upstream")]) |}.

(** Every collaborator answers. *)
Definition env_up : Env :=
  {| axios := fun _ => answers (120, inr (200, task_reply "SUCCESS"));
     reply_headers := audio_headers;
     db_fault := fun _ => None;
     s3_upload := s3_stores;
     platform := node;
     github_api_token := None;
     suno_api_key := Some "suno-key";
     openai_api_key := Some "openai-key";
     spaces_bucket_name := Some "karaoke" |}.

(** The upstream cannot be reached. *)
Definition env_down : Env :=
  {| axios := fun _ _ => (50, inl network_error);
     reply_headers := audio_headers;
     db_fault := fun _ => None;
     s3_upload := s3_stores;
     platform := node;
     github_api_token := None;
     suno_api_key := Some "suno-key";
     openai_api_key := Some "openai-key";
     spaces_bucket_name := Some "karaoke" |}.

(** The upstream answers; persistence operation [k] throws. *)
Definition env_db_fails_at (k : nat) : Env :=
  {| axios := fun _ => answers (120, inr (200, task_reply "SUCCESS"));
     reply_headers := audio_headers;
     db_fault := fun n =>
       if Nat.eqb n k then Some "Can't reach database server" else None;
     s3_upload := s3_stores;
     platform := node;
     github_api_token := None;
     suno_api_key := Some "suno-key";
     openai_api_key := Some "openai-key";
     spaces_bucket_name := Some "karaoke" |}.

(** The music service accepts the task; the image service fails. *)
Definition env_no_cover : Env :=
  {| axios := fun _ rq =>
       if String.eqb (rq_url rq) "https://api.openai.com/v1/images/generations"
       then (80, inl server_error)
       else (120, inr (200, task_reply "PENDING"));
     reply_headers := audio_headers;
     db_fault := fun _ => None;
     s3_upload := s3_stores;
     platform := node;
     github_api_token := None;
     suno_api_key := Some "suno-key";
     openai_api_key := Some "openai-key";
     spaces_bucket_name := Some "karaoke" |}.

Definition w_empty : World :=
  {| apiCalls := ∅; apiLimits := ∅; songs := []; audioFiles := [];
     repositories := []; attachments := []; clock := 1000; requests := [];
     uploads := [];
     db_ops := 0; console := [] |}.

Definition poll_params : JsValue := JObj [("taskId", JStr "T1")].
Definition poll_endpoint : string := "/v1/generate/record-info".

(** The world after one successful status poll of T1: the cache holds a
    fresh successful row for the fingerprint of the poll. *)
Definition w_polled : World :=
  snd (cachedApiCall env_up Suno "GET" poll_endpoint poll_params
         (force_disableCache no_options) w_empty).

Definition repo_endpoint : string := "/repos/octocat/hello".

(** The world after one successful GitHub call, and the row it wrote. *)
Definition w_cached : World :=
  snd (cachedApiCall env_up Github "GET" repo_endpoint JUndefined no_options
         w_empty).

Definition row_cached : ApiCall :=
  success_create Github "GET" repo_endpoint
    (generateRequestHash Github "GET" repo_endpoint JUndefined)
    (JObj []) (200, task_reply "SUCCESS") 1000 1120 120
    (Some (1120 + 24 * 60 * 60 * 1000)) 1120.

(** The same parameters written in two property orders. *)
Definition page_first : JsValue :=
  JObj [("page", JNum 1); ("per_page", JNum 100)].
Definition per_page_first : JsValue :=
  JObj [("per_page", JNum 100); ("page", JNum 1)].
Definition commits_endpoint : string := "/repos/octocat/hello/commits".

(** A song submitted as task T1, still pending. *)
Definition song_T1 : Song :=
  {| song_id := 1;
     song_title := "Merge Conflict Blues";
     song_lyrics := "Late night, red build";
     song_style := Some "Rock";
     song_instrumental := false;
     song_suno_task_id := Some "T1";
     song_cover_image_url := None;
     song_status := "pending";
     song_repository_id := 1;
     song_time_range := JNull;
     song_commit_count := 3;
     song_prompt := Some "Late night, red build";
     song_created_at := 500;
     song_updated_at := 500;
     song_completed_at := None |}.

Definition w_pending : World := set_songs [song_T1] w_empty.

Definition callback (task callbackType : string) : JsValue :=
  JObj [("code", JNum 200);
        ("data", JObj [("callbackType", JStr callbackType);
                       ("task_id", JStr task);
                       ("data", JArr [JObj [("id", JStr "a1");
                                            ("audio_url",
                                             JStr "https://suno.example/a1.mp3")]])])].

(** The first "complete" callback for T1 arrives at time 1000, its
    duplicate at time 5000. *)
Definition w_completed : World :=
  snd (KaraokeService.handleSunoCallback env_up (callback "T1" "complete")
         w_pending).

(** A token estimate in the style of the chat format: four tokens of
    framing per message and one token per four code units. *)
Definition tokens_by_length (msgs : list (@AIService.Message ascii)) : Z :=
  fold_right
    (fun m acc => 4 + Z.of_nat (length (AIService.content m)) / 4 + acc) 0 msgs.

Definition short_turn : @AIService.Message ascii :=
  {| AIService.role := "user"; AIService.content := ["o"; "k"]%char |}.

Definition system_text : list ascii :=
  String.list_ascii_of_string "You are a creative songwriter.".
Definition prompt_text : list ascii :=
  String.list_ascii_of_string "Write a Rock style song.".

Definition summary : KaraokeService.CommitSummary :=
  {| KaraokeService.cs_start := JStr "2025-01-01T00:00:00Z";
     KaraokeService.cs_end := JStr "2025-01-07T00:00:00Z";
     KaraokeService.cs_commitCount := 3 |}.

(** One run of the submission with the image service failing. *)
Definition run_no_cover :
    Outcome KaraokeService.SongResult * World :=
  KaraokeService.generateSongFromRepo_submit env_no_cover "octocat" "hello"
    "https://github.com/octocat/hello" "Rock" false "https://api.example"
    "Late night, red build" "Merge Conflict Blues" summary w_empty.

(** The task is pending for the first three polls, then done. *)
Definition env_pending_then_success : Env :=
  {| axios := fun n _ =>
       if (n <? 3)%nat then (100, inr (200, task_reply "PENDING"))
       else (120, inr (200, task_reply "SUCCESS"));
     reply_headers := audio_headers;
     db_fault := fun _ => None;
     s3_upload := s3_stores;
     platform := node;
     github_api_token := None;
     suno_api_key := Some "suno-key";
     openai_api_key := Some "openai-key";
     spaces_bucket_name := Some "karaoke" |}.

(** The music service answers every poll with the same status. *)
Definition env_status (status : string) : Env :=
  {| axios := fun _ _ => (100, inr (200, task_reply status));
     reply_headers := audio_headers;
     db_fault := fun _ => None;
     s3_upload := s3_stores;
     platform := node;
     github_api_token := None;
     suno_api_key := Some "suno-key";
     openai_api_key := Some "openai-key";
     spaces_bucket_name := Some "karaoke" |}.

(** The object store refuses every file. *)
Definition env_no_upload : Env :=
  {| axios := fun _ => answers (120, inr (200, task_reply "SUCCESS"));
     reply_headers := audio_headers;
     db_fault := fun _ => None;
     s3_upload := fun _ _ => (50, inl (mkError "Upload refused"));
     platform := node;
     github_api_token := None;
     suno_api_key := Some "suno-key";
     openai_api_key := Some "openai-key";
     spaces_bucket_name := Some "karaoke" |}.

(** The attachment of the cover image that a run of the cover step
    returned; an empty row when it returned none. *)
Definition cover_of (run : Outcome Attachment * World) : Attachment :=
  match fst run with
  | Returned cover => cover
  | Thrown _ =>
      {| att_id := 0; att_name := ""; att_slug := ""; att_url := "";
         att_attachment := ""; att_mime := ""; att_size := 0;
         att_source := ""; att_acl := ""; att_metas := JNull;
         att_created_at := 0; att_updated_at := 0 |}
  end.

(** The object store keeps the first object and refuses the others. *)
Definition env_one_upload : Env :=
  {| axios := fun _ => answers (120, inr (200, task_reply "SUCCESS"));
     reply_headers := audio_headers;
     db_fault := fun _ => None;
     s3_upload := fun n params =>
       if Nat.eqb n 0 then s3_stores n params
       else (50, inl (mkError "Upload refused"));
     platform := node;
     github_api_token := None;
     suno_api_key := Some "suno-key";
     openai_api_key := Some "openai-key";
     spaces_bucket_name := Some "karaoke" |}.

Definition callback_two_tracks (task callbackType : string) : JsValue :=
  JObj [("code", JNum 200);
        ("data", JObj [("callbackType", JStr callbackType);
                       ("task_id", JStr task);
                       ("data", JArr [JObj [("id", JStr "a1");
                                            ("audio_url",
                                             JStr "https://suno.example/a1.mp3")];
                                      JObj [("id", JStr "a2");
                                            ("audio_url",
                                             JStr "https://suno.example/a2.mp3")]])])].

Definition image_reply : JsValue :=
  JObj [("created", JNum 1700000000);
        ("data", JArr [JObj [("url", JStr "https://img.example/cover.png")]])].

(** The music service accepts the task and the image service draws. *)
Definition env_cover : Env :=
  {| axios := fun _ rq =>
       if String.eqb (rq_url rq) "https://api.openai.com/v1/images/generations"
       then (80, inr (200, image_reply))
       else answers (120, inr (200, task_reply "PENDING")) rq;
     reply_headers := image_headers;
     db_fault := fun _ => None;
     s3_upload := s3_stores;
     platform := node;
     github_api_token := None;
     suno_api_key := Some "suno-key";
     openai_api_key := Some "openai-key";
     spaces_bucket_name := Some "karaoke" |}.

(** The music service answers without a task. *)
Definition env_no_task : Env :=
  {| axios := fun _ _ => (120, inr (200, JObj [("code", JNum 429)]));
     reply_headers := audio_headers;
     db_fault := fun _ => None;
     s3_upload := s3_stores;
     platform := node;
     github_api_token := None;
     suno_api_key := Some "suno-key";
     openai_api_key := Some "openai-key";
     spaces_bucket_name := Some "karaoke" |}.

Definition commit (sha : string) : JsValue := JObj [("sha", JStr sha)].

(** A repository whose commits come in two pages; the third is empty. *)
Definition env_two_pages : Env :=
  {| axios := fun n _ =>
       (90, inr (200, JArr (match n with
                            | 0%nat => [commit "c1"; commit "c2"]
                            | 1%nat => [commit "c3"]
                            | _ => []
                            end)));
     reply_headers := audio_headers;
     db_fault := fun _ => None;
     s3_upload := s3_stores;
     platform := node;
     github_api_token := Some "ghp-token";
     suno_api_key := None;
     openai_api_key := None;
     spaces_bucket_name := Some "karaoke" |}.

Definition this_week : list (string * JsValue) :=
  [("since", JStr "2025-01-01T00:00:00.000Z");
   ("until", JStr "2025-01-08T00:00:00.000Z")].

(** The world after the commits of the week were collected. *)
Definition w_collected : World :=
  snd (getAllCommitsInDateRange env_two_pages 3 "octocat" "hello" this_week
         w_empty).

(** The row of T1 one day and a second after it was stored. *)
Definition w_expired : World :=
  set_clock (1120 + 24 * 60 * 60 * 1000 + 1000) w_cached.

Definition lyrics_callback (task lyrics : string) : JsValue :=
  JObj [("code", JNum 200);
        ("data", JObj [("callbackType", JStr "complete");
                       ("task_id", JStr task);
                       ("lyrics", JStr lyrics)])].

Definition audio_params : AudioParams :=
  {| ap_prompt := "Late night, red build";
     ap_style := Some "Rock";
     ap_title := Some "Merge Conflict Blues";
     ap_customMode := None;
     ap_instrumental := None;
     ap_model := None;
     ap_callBackUrl := "https://api.example/karaoke/callback" |}.

Definition formatted (author : option string)
    (files : list (string * Z * Z)) : GithubSummary.FormattedCommit :=
  {| GithubSummary.fc_author_name := author;
     GithubSummary.fc_files :=
       Some (map (fun f =>
                    {| GithubSummary.cf_filename := fst (fst f);
                       GithubSummary.cf_additions := snd (fst f);
                       GithubSummary.cf_deletions := snd f |}) files);
     GithubSummary.fc_date := Some "2025-01-02T10:00:00Z" |}.

Definition week_commits : list GithubSummary.FormattedCommit :=
  [formatted (Some "ada") [("src/app.js", 10, 2); ("README.md", 1, 0)];
   formatted (Some "7") [("src/app.js", 3, 3)];
   formatted None [("package.json", 40, 1)];
   formatted (Some "ada") [("README.md", 5, 5)]].

End Fixtures.


(* ===================================================================== *)
(** * Properties                                                          *)
(* ===================================================================== *)

Import JS Schema Runtime Gateway.

(* ===================================================================== *)
(** * The request fingerprint                                             *)
(* ===================================================================== *)

Section FingerprintFacts.

Lemma append_inv_head (p a b : string) : p +:+ a = p +:+ b -> a = b.
Proof.
  induction p as [| c p IH]; intros H; [done |].
  apply IH. by injection H.
Qed.

(** A field without colon is delimited by the colon that follows it. *)
Lemma colon_delimits (a a' b b' : string) :
  no_colon a = true -> no_colon a' = true ->
  a +:+ ":" +:+ b = a' +:+ ":" +:+ b' -> a = a' /\ b = b'.
Proof.
  revert a'. induction a as [| c a IH]; intros [| c' a'] Ha Ha' H; cbn in *.
  - split; [done | by injection H].
  - injection H as <- _. by rewrite Ascii.eqb_refl in Ha'.
  - injection H as -> _. by rewrite Ascii.eqb_refl in Ha.
  - injection H as -> H.
    apply andb_prop in Ha as [_ Ha]. apply andb_prop in Ha' as [_ Ha'].
    destruct (IH a' Ha Ha' H) as [-> ->]. done.
Qed.

(** ** C2 *)

(** C2 (as amended).  The fingerprint is the MD5 digest of the message
    [service:method:endpoint:JSON.stringify(params)], a function of its
    arguments.  For methods and endpoints without a colon two requests have
    the same message exactly when they agree on method, endpoint and on the
    serialization of their parameters, in which property order counts; and
    equal messages give equal fingerprints. *)
Theorem fingerprint_follows_serialization svc method endpoint params
    method' endpoint' params' :
  no_colon method = true -> no_colon method' = true ->
  no_colon endpoint = true -> no_colon endpoint' = true ->
  (hash_message svc method endpoint params
   = hash_message svc method' endpoint' params'
   <-> method = method' /\ endpoint = endpoint'
       /\ serialized params = serialized params')
  /\ (method = method' -> endpoint = endpoint' ->
      serialized params = serialized params' ->
      generateRequestHash svc method endpoint params
      = generateRequestHash svc method' endpoint' params').
Proof.
  intros Hm Hm' He He'. unfold generateRequestHash, hash_message, serialized.
  split; [split |].
  - intros H. apply append_inv_head, append_inv_head in H.
    destruct (colon_delimits _ _ _ _ Hm Hm' H) as [-> H2].
    destruct (colon_delimits _ _ _ _ He He' H2) as [-> H3]. done.
  - by intros (-> & -> & ->).
  - by intros -> -> ->.
Qed.

End FingerprintFacts.

(* ===================================================================== *)
(** * Properties of the cache and the rate counter                        *)
(* ===================================================================== *)

Section GatewayFacts.
Local Opaque String.append.

Lemma default_object_idem v :
  default_object (default_object v) = default_object v.
Proof. by destruct v. Qed.

Lemma generateRequestHash_default svc method endpoint params :
  generateRequestHash svc method endpoint (default_object params)
  = generateRequestHash svc method endpoint params.
Proof.
  unfold generateRequestHash, hash_message. by rewrite default_object_idem.
Qed.

Ltac unfold_gateway :=
  unfold cachedApiCall, cache_read, live_call, record_failure, updateApiLimit,
    apiCall_findUnique, apiCall_upsert, apiLimit_upsert, db_access, axios_call,
    console_put, Date_now, try_catch, bind, gets, modify, ret, throw;
  cbv zeta.

(** Entering a call of [#cachedApiCall]: the fingerprint and the request
    are named, and the cache read is decided by [reaches_upstream]. *)
Ltac enter_call h cfg :=
  unfold request_of in *; unfold cachedApiCall;
  rewrite generateRequestHash_default;
  remember (generateRequestHash _ _ _ _) as h;
  unfold_gateway;
  remember (axios_config _ _ _ _ _ _) as cfg.

(** A call that is not ended by its cache read sends exactly one request,
    whatever the upstream and the database then do. *)
Lemma miss_sends_request env svc method endpoint params o w :
  reaches_upstream env svc (generateRequestHash svc method endpoint params) o w ->
  requests (snd (cachedApiCall env svc method endpoint params o w))
  = requests w ++ [request_of env svc method endpoint params o].
Proof.
  intros Hmiss. enter_call h cfg. unfold write_index.
  destruct Hmiss as [Hoff | [Hdb Hmiss]].
  - rewrite Hoff. cbn.
    destruct (axios env (length (requests w)) cfg) as [dt [e | reply]]; cbn.
    + destruct (db_fault env (db_ops w)); reflexivity.
    + destruct (db_fault env (db_ops w)); cbn;
        destruct (db_fault env (S (db_ops w))); reflexivity.
  - destruct (cache_disabled svc o); cbn.
    + destruct (axios env (length (requests w)) cfg) as [dt [e | reply]]; cbn.
      * destruct (db_fault env (db_ops w)); reflexivity.
      * destruct (db_fault env (db_ops w)); cbn;
          destruct (db_fault env (S (db_ops w))); reflexivity.
    + rewrite Hdb. cbn. rewrite Hmiss. cbn.
      destruct (axios env (length (requests w)) cfg) as [dt [e | reply]]; cbn.
      * destruct (db_fault env (S (db_ops w))); reflexivity.
      * destruct (db_fault env (S (db_ops w))); cbn;
          destruct (db_fault env (S (S (db_ops w)))); reflexivity.
Qed.

(** The whole effect of a live call that succeeds on a healthy database. *)
Lemma live_success env svc method endpoint params o w dt reply :
  reaches_upstream env svc (generateRequestHash svc method endpoint params) o w ->
  axios env (length (requests w)) (request_of env svc method endpoint params o)
    = (dt, inr reply) ->
  healthy env ->
  let h := generateRequestHash svc method endpoint params in
  let run := cachedApiCall env svc method endpoint params o w in
  let now := clock w + dt in
  let expiresAt := expiry now (default DEFAULT_CACHE_HOURS (cacheHours o)) in
  fst run = Returned (snd reply)
  /\ apiCalls (snd run)
     = <[h := match apiCalls w !! h with
              | Some row =>
                  success_update reply now (now - clock w) expiresAt now row
              | None =>
                  success_create svc method endpoint h (default_object params)
                    reply (clock w) now (now - clock w) expiresAt now
              end]> (apiCalls w)
  /\ apiLimits (snd run)
     = <[service_name svc :=
           match apiLimits w !! service_name svc with
           | Some row => limit_update now row
           | None => limit_create svc now
           end]> (apiLimits w).
Proof.
  intros Hmiss Hreply Hdb. cbv zeta. enter_call h cfg.
  destruct Hmiss as [Hoff | [_ Hmiss]].
  - rewrite Hoff. cbn. rewrite Hreply. cbn. rewrite !Hdb. cbn. done.
  - destruct (cache_disabled svc o); cbn.
    + rewrite Hreply. cbn. rewrite !Hdb. cbn. done.
    + rewrite !Hdb. cbn. rewrite Hmiss. cbn. rewrite Hreply. cbn.
      rewrite !Hdb. cbn. done.
Qed.

(** The whole effect of a live call that fails. *)
Lemma live_failure env svc method endpoint params o w dt e :
  reaches_upstream env svc (generateRequestHash svc method endpoint params) o w ->
  axios env (length (requests w)) (request_of env svc method endpoint params o)
    = (dt, inl e) ->
  let h := generateRequestHash svc method endpoint params in
  let run := cachedApiCall env svc method endpoint params o w in
  let now := clock w + dt in
  apiLimits (snd run) = apiLimits w
  /\ match db_fault env (write_index svc o w) with
     | Some msg =>
         fst run = Thrown (mkError msg) /\ apiCalls (snd run) = apiCalls w
     | None =>
         fst run = Thrown (rethrown svc e)
         /\ apiCalls (snd run)
            = <[h := match apiCalls w !! h with
                     | Some row => failure_update e now row
                     | None =>
                         failure_create svc method endpoint h
                           (default_object params) e now
                     end]> (apiCalls w)
     end.
Proof.
  intros Hmiss Hreply. cbv zeta. enter_call h cfg. unfold write_index.
  destruct Hmiss as [Hoff | [Hdb Hmiss]].
  - rewrite Hoff. cbn. rewrite Hreply. cbn.
    destruct (db_fault env (db_ops w)); cbn; done.
  - destruct (cache_disabled svc o); cbn.
    + rewrite Hreply. cbn. destruct (db_fault env (db_ops w)); cbn; done.
    + rewrite Hdb. cbn. rewrite Hmiss. cbn. rewrite Hreply. cbn.
      destruct (db_fault env (S (db_ops w))); cbn; done.
Qed.


(** ** C1 *)

(** C1 (as amended).  While the cache read is on (always for GitHub, for
    Suno unless [disableCache] is set) and the lookup is answered, a row
    with [is_success] and an expiry that is null or in the future is
    returned as it is stored: no request is sent, and neither the rate
    counter nor the cache table changes. *)
Theorem fresh_hit_served_from_cache env svc method endpoint params o w c :
  cache_disabled svc o = false ->
  db_fault env (db_ops w) = None ->
  apiCalls w !! generateRequestHash svc method endpoint params = Some c ->
  ac_is_success c = true ->
  not_expired (clock w) (ac_expires_at c) = true ->
  let run := cachedApiCall env svc method endpoint params o w in
  fst run = Returned (ac_response c)
  /\ requests (snd run) = requests w
  /\ used svc (snd run) = used svc w
  /\ apiLimits (snd run) = apiLimits w
  /\ apiCalls (snd run) = apiCalls w.
Proof.
  intros Hon Hdb Hrow Hok Hfresh. cbv zeta.
  unfold used, cachedApiCall. rewrite generateRequestHash_default.
  remember (generateRequestHash svc method endpoint params) as h.
  unfold_gateway. rewrite Hon. cbn. rewrite Hdb. cbn.
  rewrite Hrow. cbn. rewrite Hok, Hfresh. cbn. done.
Qed.

(** ** C4 *)

(** C4.  When the live call fails the rate counter of the service is left
    as it was and the call throws.  On a healthy database the failure is
    written to the row of the fingerprint with [is_success = false] and
    the error message, the expiry of the row is the one it had (none for a
    new row), and any later call that finds this row sends the request
    again. *)
Theorem failed_call_recorded_not_counted env svc method endpoint params o w dt e :
  reaches_upstream env svc (generateRequestHash svc method endpoint params) o w ->
  axios env (length (requests w)) (request_of env svc method endpoint params o)
    = (dt, inl e) ->
  let h := generateRequestHash svc method endpoint params in
  let run := cachedApiCall env svc method endpoint params o w in
  used svc (snd run) = used svc w
  /\ apiLimits (snd run) = apiLimits w
  /\ (exists e', fst run = Thrown e')
  /\ (healthy env ->
      fst run = Thrown (rethrown svc e)
      /\ exists row,
          apiCalls (snd run) !! h = Some row
          /\ ac_is_success row = false
          /\ ac_error_message row = Some (message e)
          /\ ac_status_code row = Some (error_status e)
          /\ ac_expires_at row = (apiCalls w !! h) ≫= ac_expires_at
          /\ forall env2 o2 w2,
               apiCalls w2 !! h = Some row ->
               cache_disabled svc o2 = true \/ db_fault env2 (db_ops w2) = None ->
               requests (snd (cachedApiCall env2 svc method endpoint params o2 w2))
               = requests w2 ++ [request_of env2 svc method endpoint params o2]).
Proof.
  intros Hmiss Hreply h run.
  destruct (live_failure env svc method endpoint params o w dt e Hmiss Hreply)
    as [Hlim Hrest].
  fold h in Hrest. fold run in Hlim, Hrest.
  split; [by unfold used; rewrite Hlim |]. split; [done |]. split.
  { destruct (db_fault env (write_index svc o w)); destruct Hrest; eauto. }
  intros Hdb. rewrite Hdb in Hrest. destruct Hrest as [Hres Hcalls].
  split; [done |]. rewrite Hcalls, lookup_insert_eq.
  eexists. split; [reflexivity |].
  assert (Hnext : forall row, ac_is_success row = false ->
            forall env2 o2 w2,
              apiCalls w2 !! h = Some row ->
              cache_disabled svc o2 = true \/ db_fault env2 (db_ops w2) = None ->
              requests (snd (cachedApiCall env2 svc method endpoint params o2 w2))
              = requests w2 ++ [request_of env2 svc method endpoint params o2]).
  { intros row Hrow env2 o2 w2 Hw2 Hread. apply miss_sends_request.
    destruct Hread as [Hoff | Hup]; [by left | right].
    split; [done |]. fold h. rewrite Hw2. cbn. by rewrite Hrow. }
  destruct (apiCalls w !! h) as [old |]; cbn; repeat split; try done;
    by apply Hnext.
Qed.

(** ** C5 *)

(** C5, what the code does.  When the live call succeeds and the write of
    its ApiCall row throws, the call does not return the reply: control
    passes to the [catch] block, the rate counter is not touched, and
    the call throws.  If the database answers again by then, the row of
    the fingerprint is written as a failure carrying the persistence
    error. *)
Theorem cache_write_error_fails_the_call env svc method endpoint params o w dt
    reply msg :
  reaches_upstream env svc (generateRequestHash svc method endpoint params) o w ->
  axios env (length (requests w)) (request_of env svc method endpoint params o)
    = (dt, inr reply) ->
  db_fault env (write_index svc o w) = Some msg ->
  let h := generateRequestHash svc method endpoint params in
  let run := cachedApiCall env svc method endpoint params o w in
  (exists e', fst run = Thrown e')
  /\ fst run <> Returned (snd reply)
  /\ apiLimits (snd run) = apiLimits w
  /\ (db_fault env (S (write_index svc o w)) = None ->
      fst run = Thrown (rethrown svc (mkError msg))
      /\ exists row,
          apiCalls (snd run) !! h = Some row
          /\ ac_is_success row = false
          /\ ac_error_message row = Some msg).
Proof.
  intros Hmiss Hreply Hfault. cbv zeta. enter_call h cfg.
  unfold write_index in *.
  destruct Hmiss as [Hoff | [Hdb Hmiss]].
  - rewrite Hoff in *. cbn. rewrite Hreply. cbn. rewrite Hfault. cbn.
    destruct (db_fault env (S (db_ops w))) as [msg2 |] eqn:Hnext; cbn.
    + repeat split; eauto; done.
    + repeat split; eauto; try done. rewrite lookup_insert_eq.
      destruct (apiCalls w !! h); eauto.
  - destruct (cache_disabled svc o); cbn.
    + rewrite Hreply. cbn. rewrite Hfault. cbn.
      destruct (db_fault env (S (db_ops w))) as [msg2 |] eqn:Hnext; cbn.
      * repeat split; eauto; done.
      * repeat split; eauto; try done. rewrite lookup_insert_eq.
        destruct (apiCalls w !! h); eauto.
    + rewrite Hdb. cbn. rewrite Hmiss. cbn. rewrite Hreply. cbn.
      rewrite Hfault. cbn.
      destruct (db_fault env (S (S (db_ops w)))) as [msg2 |] eqn:Hnext; cbn.
      * repeat split; eauto; done.
      * repeat split; eauto; try done. rewrite lookup_insert_eq.
        destruct (apiCalls w !! h); eauto.
Qed.

(** The sibling write: an error of the ApiLimit upsert is warned about and
    swallowed by [#updateApiLimit], and the call returns the reply. *)
Lemma limit_write_error_swallowed env svc method endpoint params o w dt
    reply msg :
  reaches_upstream env svc (generateRequestHash svc method endpoint params) o w ->
  axios env (length (requests w)) (request_of env svc method endpoint params o)
    = (dt, inr reply) ->
  db_fault env (write_index svc o w) = None ->
  db_fault env (S (write_index svc o w)) = Some msg ->
  let run := cachedApiCall env svc method endpoint params o w in
  fst run = Returned (snd reply)
  /\ last (console (snd run)) = Some (Warn, msg_limit svc msg)
  /\ apiLimits (snd run) = apiLimits w.
Proof.
  intros Hmiss Hreply Hw Hl. cbv zeta. enter_call h cfg.
  unfold write_index in *.
  destruct Hmiss as [Hoff | [Hdb Hmiss]].
  - rewrite Hoff in *. cbn. rewrite Hreply. cbn. rewrite Hw. cbn.
    rewrite Hl. cbn. by rewrite last_snoc.
  - destruct (cache_disabled svc o); cbn.
    + rewrite Hreply. cbn. rewrite Hw. cbn. rewrite Hl. cbn.
      by rewrite last_snoc.
    + rewrite Hdb. cbn. rewrite Hmiss. cbn. rewrite Hreply. cbn.
      rewrite Hw. cbn. rewrite Hl. cbn. by rewrite last_snoc.
Qed.


(** ** C10 *)

Lemma forced_poll_is_live env endpoint taskId o w :
  poll_is_live env
    (fun t o' =>
       cachedApiCall env Suno "GET" endpoint (JObj [("taskId", JStr t)])
         (force_disableCache o'))
    endpoint taskId o w.
Proof.
  unfold poll_is_live. cbv zeta.
  assert (Hup : reaches_upstream env Suno
                  (generateRequestHash Suno "GET" endpoint
                     (JObj [("taskId", JStr taskId)]))
                  (force_disableCache o) w) by (by left).
  split; [exact (miss_sends_request _ _ _ _ _ _ _ Hup) |].
  intros dt reply Hreply Hdb.
  destruct (live_success env Suno "GET" endpoint _ (force_disableCache o) w
              dt reply Hup Hreply Hdb) as (Hres & Hcalls & Hlim).
  split; [done |]. split.
  - unfold used. rewrite Hlim, lookup_insert_eq.
    destruct (apiLimits w !! service_name Suno); reflexivity.
  - rewrite Hcalls, lookup_insert_eq.
    destruct (apiCalls w !! _); eexists; done.
Qed.

(** C10.  [getTaskDetails] and [getLyricsTaskDetails] set [disableCache]
    over whatever the caller passed, so for a non-empty task id each poll
    is a live call in the sense of [poll_is_live], even when the cache
    holds a fresh successful row for the same fingerprint. *)
Theorem status_polls_skip_the_cache env taskId o w :
  taskId <> "" ->
  poll_is_live env (getTaskDetails env) "/v1/generate/record-info" taskId o w
  /\ poll_is_live env (getLyricsTaskDetails env) "/v1/lyrics/record-info"
       taskId o w.
Proof.
  intros Hid.
  assert (Hne : String.eqb taskId "" = false) by (by apply String.eqb_neq).
  split.
  - pose proof (forced_poll_is_live env "/v1/generate/record-info" taskId o w)
      as H.
    unfold poll_is_live, getTaskDetails in *. rewrite Hne. exact H.
  - pose proof (forced_poll_is_live env "/v1/lyrics/record-info" taskId o w)
      as H.
    unfold poll_is_live, getLyricsTaskDetails in *. rewrite Hne. exact H.
Qed.

End GatewayFacts.

(* ===================================================================== *)
(** * The context trimmer                                                 *)
(* ===================================================================== *)

Section AdjustContentFacts.
Context {C : Type}.
Variable estimateTokens : list (@AIService.Message C) -> Z.
Import AIService.

Lemma messages_bump (t : @Trim C) : messages (bump t) = messages t.
Proof. reflexivity. Qed.

Lemma trim_once_iteration targetTokens (t t' : @Trim C) :
  trim_once estimateTokens targetTokens t = Some t' -> iteration t' = iteration t.
Proof.
  unfold trim_once. intros H.
  repeat match type of H with
         | (if ?b then _ else _) = _ => destruct b
         end; by simplify_eq.
Qed.

Lemma trim_once_floor targetTokens (t : @Trim C) :
  trim_once estimateTokens targetTokens t = None ->
  at_floor (system t, history t, prompt t).
Proof.
  unfold trim_once, at_floor. intros H.
  destruct (Nat.ltb_spec 1 (length (history t))); [done |].
  destruct (Z.ltb_spec 50 (Z.of_nat (length (system t)))); [done |].
  destruct (Z.ltb_spec 50 (Z.of_nat (length (prompt t)))); [done |].
  lia.
Qed.

(** The loop invariant, for a counter that still has [left] passes before
    it exceeds [maxIterations]. *)
Lemma while_loop_exit targetTokens :
  forall left (t : @Trim C),
    0 <= iteration t ->
    iteration t + Z.of_nat left = maxIterations ->
    let t' := while_loop estimateTokens left targetTokens t in
    iteration t <= iteration t' <= maxIterations + 1
    /\ (estimateTokens (messages t') <= targetTokens
        \/ at_floor (system t', history t', prompt t')
        \/ iteration t' = maxIterations + 1).
Proof.
  unfold maxIterations.
  induction left as [| left IH]; intros t Hpos Hleft; cbn zeta.
  - cbn [while_loop].
    destruct (Z.ltb_spec targetTokens (estimateTokens (messages t)));
      [| split; [lia | left; lia]].
    cbv zeta. unfold maxIterations. cbn [iteration bump].
    destruct (Z.ltb_spec 100 (iteration t + 1)); [| lia].
    cbn [iteration bump]. split; [lia | right; right; lia].
  - cbn [while_loop].
    destruct (Z.ltb_spec targetTokens (estimateTokens (messages t)));
      [| split; [lia | left; lia]].
    cbv zeta. unfold maxIterations. cbn [iteration bump].
    destruct (Z.ltb_spec 100 (iteration t + 1)); [lia |].
    destruct (trim_once _ _ _) as [t2 |] eqn:Hstep.
    + pose proof (trim_once_iteration _ _ _ Hstep) as Hit. cbn in Hit.
      destruct (IH t2 ltac:(lia) ltac:(lia)) as [Hbound Hexit].
      split; [lia | exact Hexit].
    + split; [cbn; lia |]. right; left.
      exact (trim_once_floor _ _ Hstep).
Qed.

(** The extra argument of the loop never decides: any [left] that covers
    the passes the counter allows gives the same result. *)
Lemma while_loop_fuel targetTokens :
  forall left left' (t : @Trim C),
    maxIterations <= iteration t + Z.of_nat left ->
    maxIterations <= iteration t + Z.of_nat left' ->
    while_loop estimateTokens left targetTokens t
    = while_loop estimateTokens left' targetTokens t.
Proof.
  unfold maxIterations.
  induction left as [| left IH]; intros left' t H1 H2.
  - destruct left'; cbn [while_loop]; [done |].
    destruct (_ <? _); [| done]. unfold maxIterations. cbn [iteration bump].
    destruct (Z.ltb_spec 100 (iteration t + 1)); [done | lia].
  - destruct left' as [| left']; cbn [while_loop].
    + destruct (_ <? _); [| done]. unfold maxIterations. cbn [iteration bump].
      destruct (Z.ltb_spec 100 (iteration t + 1)); [done | lia].
    + destruct (_ <? _); [| done]. unfold maxIterations. cbn [iteration bump].
      destruct (Z.ltb_spec 100 (iteration t + 1)); [done |].
      destruct (trim_once _ _ _) as [t2 |] eqn:Hstep; [| done].
      pose proof (trim_once_iteration _ _ _ Hstep) as Hit. cbn in Hit.
      apply IH; lia.
Qed.

(** ** C6 *)

(** C6 (as amended).  [adjustContent] ends after at most [maxIterations]
    trimming passes (its counter ends between 0 and [maxIterations + 1]),
    and its result has an estimate within the budget, or is at the floor
    (history of at most one entry, system and prompt of at most 50 code
    units), or the counter has passed [maxIterations]: the cap ended the
    loop. *)
Theorem adjustContent_exit (sys : list C) (hist : list Message) (prm : list C)
    (contextWindow : Z) :
  let t := adjustContent_run estimateTokens sys hist prm contextWindow in
  let r := adjustContent estimateTokens sys hist prm contextWindow in
  0 <= iteration t <= maxIterations + 1
  /\ (estimate_of estimateTokens r <= contextWindow
      \/ at_floor r
      \/ iteration t = maxIterations + 1).
Proof.
  cbv zeta. unfold adjustContent, adjustContent_run.
  pose proof (while_loop_exit contextWindow (Z.to_nat maxIterations)
                {| iteration := 0; system := sys; history := hist; prompt := prm |}
                ltac:(done) ltac:(done)) as [Hbound Hexit].
  cbn [iteration] in Hbound. split; [lia |]. exact Hexit.
Qed.

End AdjustContentFacts.

(* ===================================================================== *)
(** * The chunker                                                         *)
(* ===================================================================== *)

Section ChunkerFacts.
Context {C : Type}.
Implicit Types (text : list C) (chunks rest : list (list C)).

Lemma slice_in_range text b e :
  0 <= b <= e -> e <= Z.of_nat (length text) ->
  Text.slice text b e = take (Z.to_nat (e - b)) (drop (Z.to_nat b) text).
Proof.
  intros Hb He. unfold Text.slice.
  destruct (Z.ltb_spec b 0); [lia |]. destruct (Z.ltb_spec e 0); [lia |].
  do 2 f_equal; lia.
Qed.

(** More fuel never changes the outcome of a run that ended. *)
Lemma chunk_loop_more_fuel text size fuel :
  forall start chunks result fuel',
    KaraokeService.chunk_loop fuel text size start chunks = Some result ->
    (fuel <= fuel')%nat ->
    KaraokeService.chunk_loop fuel' text size start chunks = Some result.
Proof.
  induction fuel as [| fuel IH]; intros start chunks result fuel' Hrun Hle.
  - destruct fuel'; cbn in *; destruct (start <? _); done.
  - destruct fuel' as [| fuel']; [lia |]. cbn in *.
    destruct (start <? _); [| done]. eapply IH; [exact Hrun | lia].
Qed.

(** The loop invariant: from [start] on, the loop appends pieces that
    rebuild the rest of the text. *)
Lemma chunk_loop_pieces text size :
  0 < size ->
  forall fuel start chunks,
    0 <= start <= Z.of_nat (length text) ->
    Z.of_nat (length text) - start <= Z.of_nat fuel ->
    exists rest,
      KaraokeService.chunk_loop fuel text size start chunks = Some (chunks ++ rest)
      /\ concat rest = drop (Z.to_nat start) text
      /\ Forall (fun c => Z.of_nat (length c) <= size) rest
      /\ (Z.of_nat (length rest) - 1) * size < Z.of_nat (length text) - start
         <= Z.of_nat (length rest) * size
      /\ forall i c,
           rest !! i = Some c ->
           c = Text.slice text (start + Z.of_nat i * size)
                 (Z.min (start + (Z.of_nat i + 1) * size)
                    (Z.of_nat (length text))).
Proof.
  intros Hsize. remember (Z.of_nat (length text)) as L eqn:HL.
  assert (Hdone : forall fuel start chunks,
            0 <= start <= L -> ~ start < L ->
            exists rest,
              (if start <? L
               then match fuel with O => None | S _ => Some chunks end
               else Some chunks) = Some (chunks ++ rest)
              /\ concat rest = drop (Z.to_nat start) text
              /\ Forall (fun c => Z.of_nat (length c) <= size) rest
              /\ (Z.of_nat (length rest) - 1) * size < L - start
                 <= Z.of_nat (length rest) * size
              /\ forall i c, rest !! i = Some c ->
                   c = Text.slice text (start + Z.of_nat i * size)
                         (Z.min (start + (Z.of_nat i + 1) * size) L)).
  { intros fuel start chunks Hstart Hend. exists [].
    destruct (Z.ltb_spec start L); [lia |].
    rewrite app_nil_r. repeat split; try done; cbn; try lia.
    rewrite drop_ge; [done | lia]. }
  induction fuel as [| fuel IH]; intros start chunks Hstart Hfuel.
  - cbn. rewrite <- HL. apply (Hdone O); [done | lia].
  - cbn. rewrite <- HL. destruct (Z.ltb_spec start L) as [Hlt | Hge].
    2:{ destruct (Hdone (S fuel) start chunks Hstart ltac:(lia)) as [rest Hrest].
        destruct (Z.ltb_spec start L); [lia |]. eauto. }
    set (e := Z.min (start + size) L).
    assert (He : start < e <= L) by (subst e; lia).
    destruct (IH e (chunks ++ [Text.slice text start e]) ltac:(lia) ltac:(lia))
      as (rest & Hrun & Hcat & Hlen & Hcount & Hpos).
    exists (Text.slice text start e :: rest).
    rewrite Hrun, <- app_assoc. cbn [app].
    assert (Hslice : Text.slice text start e
                     = take (Z.to_nat (e - start)) (drop (Z.to_nat start) text))
      by (apply slice_in_range; lia).
    split; [done |]. split; [| split; [| split]].
    + cbn [concat]. rewrite Hcat, Hslice.
      replace (Z.to_nat e) with (Z.to_nat start + Z.to_nat (e - start))%nat by lia.
      rewrite <- drop_drop. apply take_drop.
    + constructor; [| done]. rewrite Hslice, length_take. subst e. lia.
    + cbn [length]. rewrite Nat2Z.inj_succ.
      pose proof (Nat2Z.is_nonneg (length rest)) as Hn.
      remember (Z.of_nat (length rest)) as n. subst e.
      destruct (Z.min_spec (start + size) L) as [[? Hm] | [? Hm]];
        rewrite Hm in *.
      * nia.
      * assert (n = 0) as -> by nia. lia.
    + intros [| i] c Hc; cbn in Hc.
      * injection Hc as <-. f_equal; subst e; lia.
      * specialize (Hpos i c Hc).
        destruct (Z.min_spec (start + size) L) as [[? Hm] | [? Hm]];
          subst e; rewrite Hm in *.
        -- rewrite Hpos. f_equal; lia.
        -- assert (rest = []) as ->; [| done].
           destruct rest; [done |]. cbn [length] in Hcount.
           rewrite Nat2Z.inj_succ in Hcount. nia.
Qed.

(** ** C7 *)

(** C7.  For a positive token budget the chunker ends (any fuel of at
    least the length of the text gives the same chunks), and for chunk size
    [C = 4 * maxTokens] and text length [L] the number [n] of chunks is the
    ceiling of [L / C], that is [(n - 1) * C < L <= n * C]; every chunk has
    at most [C] code units, the chunks concatenate to the text, and chunk
    [i] is the text from [i * C] up to [min ((i + 1) * C) L]. *)
Theorem chunker_partitions_text text (maxTokens : option Z) :
  0 < default 3000 maxTokens ->
  let size := default 3000 maxTokens * 4 in
  let L := Z.of_nat (length text) in
  exists chunks,
    (forall fuel, (length text <= fuel)%nat ->
       KaraokeService.chunkTextByTokens fuel text maxTokens = Some chunks)
    /\ (Z.of_nat (length chunks) - 1) * size < L <= Z.of_nat (length chunks) * size
    /\ Forall (fun c => Z.of_nat (length c) <= size) chunks
    /\ concat chunks = text
    /\ forall i c,
         chunks !! i = Some c ->
         c = Text.slice text (Z.of_nat i * size)
               (Z.min ((Z.of_nat i + 1) * size) L).
Proof.
  intros Hpos size L.
  destruct (chunk_loop_pieces text size ltac:(subst size; lia) (length text) 0 []
              ltac:(lia) ltac:(lia))
    as (chunks & Hrun & Hcat & Hlen & Hcount & Hat).
  exists chunks. cbn [app] in Hrun.
  split; [| split; [lia | split; [done | split; [done |]]]].
  - intros fuel Hfuel. unfold KaraokeService.chunkTextByTokens.
    eapply chunk_loop_more_fuel; [exact Hrun | done].
  - intros i c Hc. rewrite (Hat i c Hc). f_equal.
Qed.

(** With a chunk size of zero the loop never advances: on a text that is
    not empty no amount of fuel ends it. *)
Lemma chunker_zero_budget_never_ends text fuel :
  text <> [] ->
  KaraokeService.chunkTextByTokens fuel text (Some 0) = None.
Proof.
  intros Hne. unfold KaraokeService.chunkTextByTokens. cbn [default].
  change (0 * 4) with 0. generalize (@nil (list C)).
  assert (Hlen : 0 < Z.of_nat (length text)) by (destruct text; [done | cbn; lia]).
  induction fuel as [| fuel IH]; intros chunks; cbn.
  - destruct (Z.ltb_spec 0 (Z.of_nat (length text))); [done | lia].
  - destruct (Z.ltb_spec 0 (Z.of_nat (length text))); [| lia].
    rewrite Z.min_l by lia. apply IH.
Qed.

End ChunkerFacts.

(* ===================================================================== *)
(** * Frame rules: what a computation leaves alone                        *)
(* ===================================================================== *)

Section Frames.
Context {B : Type} (f : World -> B).

Lemma keeps_ret {A} (a : A) : keeps f (ret a).
Proof. by intros w. Qed.

Lemma keeps_throw {A} e : keeps f (@throw A e).
Proof. by intros w. Qed.

Lemma keeps_gets {A} (g : World -> A) : keeps f (gets g).
Proof. by intros w. Qed.

Lemma keeps_bind {A A'} (m : M A) (k : A -> M A') :
  keeps f m -> (forall a, keeps f (k a)) -> keeps f (bind m k).
Proof.
  intros Hm Hk w. unfold bind. specialize (Hm w).
  destruct (m w) as [[a | e] w1]; cbn in *; [by rewrite Hk | done].
Qed.

Lemma keeps_try_catch {A} (m : M A) (h : JsError -> M A) :
  keeps f m -> (forall e, keeps f (h e)) -> keeps f (try_catch m h).
Proof.
  intros Hm Hh w. unfold try_catch. specialize (Hm w).
  destruct (m w) as [[a | e] w1]; cbn in *; [done | by rewrite Hh].
Qed.

Lemma keeps_console_put l msg : ignores f set_console -> keeps f (console_put l msg).
Proof. intros H w. apply H. Qed.

Lemma keeps_Date_now : keeps f Date_now.
Proof. by intros w. Qed.

Lemma keeps_db_access env : ignores f set_db_ops -> keeps f (db_access env).
Proof. intros H w. unfold db_access. destruct (db_fault _ _); apply H. Qed.

Lemma keeps_s3_upload_call env params :
  ignores f set_clock -> ignores f set_uploads ->
  keeps f (s3_upload_call env params).
Proof.
  intros Hc Hu w. unfold s3_upload_call.
  destruct (s3_upload _ _ _) as [dt [e | r]]; cbn; by rewrite Hc, Hu.
Qed.

Lemma keeps_axios_call env rq :
  ignores f set_clock -> ignores f set_requests -> keeps f (axios_call env rq).
Proof.
  intros Hc Hr w. unfold axios_call.
  destruct (axios _ _ _) as [dt [e | r]]; cbn; by rewrite Hc, Hr.
Qed.

Lemma keeps_modify (g : World -> World) :
  (forall w, f (g w) = f w) -> keeps f (modify g).
Proof. intros H w. apply H. Qed.

Lemma keeps_property v key : keeps f (property v key).
Proof. unfold property. destruct (get v key); [apply keeps_ret | apply keeps_throw]. Qed.

End Frames.

(** The observations of the task tables ignore every field the gateway and
    the collaborators write. *)
Ltac ignore_field := intros ? ?; reflexivity.

Ltac frame_step :=
  first
    [ apply keeps_ret | apply keeps_throw | apply keeps_gets
    | apply keeps_Date_now | apply keeps_property
    | apply keeps_console_put; ignore_field
    | apply keeps_db_access; ignore_field
    | apply keeps_s3_upload_call; ignore_field
    | apply keeps_axios_call; ignore_field
    | apply keeps_bind; [| intros ?]
    | apply keeps_try_catch; [| intros ?]
    | match goal with
      | |- keeps _ (if ?b then _ else _) => destruct b
      | |- keeps _ (match ?x with _ => _ end) => destruct x
      end ].

Ltac frame := repeat frame_step.

Section GatewayFrames.
Context {B : Type} (f : World -> B).
Hypothesis f_console : ignores f set_console.
Hypothesis f_db_ops : ignores f set_db_ops.
Hypothesis f_clock : ignores f set_clock.
Hypothesis f_requests : ignores f set_requests.
Variable env : Env.

(** The frame tactic for an observation [f] that is only known through the
    fields it ignores. *)
Ltac frame_by known :=
  repeat first
    [ known
    | apply keeps_console_put; assumption
    | apply keeps_db_access; assumption
    | apply keeps_s3_upload_call; assumption
    | apply keeps_axios_call; assumption
    | apply keeps_modify; intros ?;
      match goal with H : ignores _ _ |- _ => apply H end
    | frame_step ].
Ltac frame_f := frame_by fail.

Section UploadFrames.
Hypothesis f_uploads : ignores f set_uploads.
Hypothesis f_attachments : ignores f set_attachments.

Lemma keeps_createAttachment file params :
  keeps f (UploadService.createAttachment env file params).
Proof.
  unfold UploadService.createAttachment, UploadService.attachment_create.
  cbv zeta. frame_f.
Qed.

Lemma keeps_createAttachmentFromUrl url params :
  keeps f (UploadService.createAttachmentFromUrl env url params).
Proof.
  unfold UploadService.createAttachmentFromUrl. cbv zeta.
  frame_by ltac:(apply keeps_createAttachment).
Qed.

Lemma keeps_download_tracks task tracks :
  forall results, keeps f (download_tracks env task tracks results).
Proof.
  induction tracks as [| track rest IH]; intros results; cbn [download_tracks].
  - apply keeps_ret.
  - frame_by ltac:(first [apply keeps_createAttachmentFromUrl | apply IH]).
Qed.

Lemma keeps_download callbackData :
  keeps f (downloadAndSaveSongFromCallback env callbackData).
Proof.
  unfold downloadAndSaveSongFromCallback.
  frame_by ltac:(apply keeps_download_tracks).
Qed.

Lemma keeps_generateCoverImage prompt size model :
  keeps f (AIService.generateCoverImage env prompt size model).
Proof.
  unfold AIService.generateCoverImage. cbv zeta.
  frame_by ltac:(apply keeps_createAttachmentFromUrl).
Qed.

End UploadFrames.

Hypothesis f_apiLimits : ignores f set_apiLimits.
Hypothesis f_apiCalls : ignores f set_apiCalls.

Lemma keeps_cachedApiCall svc method endpoint params o :
  keeps f (cachedApiCall env svc method endpoint params o).
Proof.
  unfold cachedApiCall, cache_read. cbv zeta.
  generalize (generateRequestHash svc method endpoint (default_object params)).
  intros h. frame_f.
Qed.

Lemma keeps_getTaskDetails taskId o : keeps f (getTaskDetails env taskId o).
Proof. unfold getTaskDetails. frame_f; apply keeps_cachedApiCall. Qed.


Lemma keeps_generateAudio p : keeps f (generateAudio env p).
Proof. unfold generateAudio. cbv zeta. frame_f; apply keeps_cachedApiCall. Qed.

Lemma keeps_generateLyrics prompt callBackUrl :
  keeps f (generateLyrics env prompt callBackUrl).
Proof. unfold generateLyrics. frame_f; apply keeps_cachedApiCall. Qed.

End GatewayFrames.

(* ===================================================================== *)
(** * What a stored attachment looks like                                 *)
(* ===================================================================== *)

Section UploadFacts.
Import UploadService.
Variable env : Env.
Local Opaque String.append.

Lemma bind_returned {A A'} (m : M A) (k : A -> M A') w b w' :
  bind m k w = (Returned b, w') ->
  exists a w1, m w = (Returned a, w1) /\ k a w1 = (Returned b, w').
Proof.
  unfold bind. destruct (m w) as [[a | e] w1]; [| done]. intros H.
  by exists a, w1.
Qed.

Lemma try_rethrow_returned {A} (m : M A) (h : JsError -> M A) w a w' :
  (forall e w1, exists e' w2, h e w1 = (Thrown e', w2)) ->
  try_catch m h w = (Returned a, w') ->
  m w = (Returned a, w').
Proof.
  intros Hh. unfold try_catch. destruct (m w) as [[b | e] w1]; [done |].
  destruct (Hh e w1) as (e' & w2 & ->). done.
Qed.

(** The row that [prisma.attachment.create] returns is the row it
    appended. *)
Lemma attachment_create_returned name slug url attachment mime size acl metas
    w a w' :
  attachment_create env name slug url attachment mime size acl metas w
  = (Returned a, w') ->
  attachments w' = attachments w ++ [a]
  /\ url = JStr (att_url a)
  /\ att_metas a = json_clone metas
  /\ att_created_at a = clock w
  /\ clock w' = clock w
  /\ uploads w' = uploads w
  /\ Forall (fun x => att_id x < att_id a) (attachments w).
Proof.
  unfold attachment_create.
  destruct url as [| | | | location | |]; try done.
  destruct size as [bytes |]; [| done].
  destruct (_ && _); [| done].
  unfold bind at 1, db_access. destruct (db_fault env (db_ops w)); [done |].
  cbn [fst snd]. unfold bind at 1, gets at 1. cbn [fst snd attachments set_db_ops].
  destruct (existsb _ (attachments w)); [done |].
  unfold bind, Date_now, gets, modify, ret. cbn. intros [= <- <-]. cbn.
  repeat split; try done.
  unfold next_id. clear. induction (attachments w) as [| x l IH]; cbn;
    constructor; [lia |].
  eapply Forall_impl; [exact IH |]. cbn. intros y Hy. lia.
Qed.

(** An attachment that [createAttachment] returns was stored in the
    object store and in the Attachment table, and its [metas] are the
    location of the object, the data of the store and the given metas. *)
Lemma createAttachment_returned file params w a w' :
  createAttachment env file params w = (Returned a, w') ->
  exists data,
    attachments w' = attachments w ++ [a]
    /\ length (uploads w') = S (length (uploads w))
    /\ att_metas a
       = json_clone
           (JObj (spread_props [("location", JStr (att_url a)); ("s3", data)]
                    (default [] (params_metas params))))
    /\ att_created_at a = clock w'.
Proof.
  unfold createAttachment. cbv zeta. intros H.
  apply bind_returned in H as ([] & w1 & H1 & H).
  assert (Hw1 : attachments w1 = attachments w /\ uploads w1 = uploads w)
    by (unfold console_put, modify in H1; by simplify_eq).
  destruct Hw1 as [<- <-]. clear H1.
  apply try_rethrow_returned in H;
    [| intros e w2; unfold bind, console_put, modify, throw; cbn; eauto].
  apply bind_returned in H as ([] & w2 & H2 & H).
  assert (Hw2 : attachments w2 = attachments w1 /\ uploads w2 = uploads w1)
    by (unfold console_put, modify in H2; by simplify_eq).
  destruct Hw2 as [<- <-]. clear H2.
  apply bind_returned in H as (extension & w3 & H3 & H).
  assert (Hw3 : attachments w3 = attachments w2 /\ uploads w3 = uploads w2).
  { destruct (String.eqb _ ""); unfold bind, console_put, modify, ret in H3;
      cbn in H3; by simplify_eq. }
  destruct Hw3 as [<- <-]. clear H3.
  destruct extension as [extension | name].
  2: { apply bind_returned in H as ([] & w4 & _ & H). done. }
  apply bind_returned in H as ([] & w4 & H4 & H).
  assert (Hw4 : attachments w4 = attachments w3 /\ uploads w4 = uploads w3)
    by (unfold console_put, modify in H4; by simplify_eq).
  destruct Hw4 as [<- <-]. clear H4.
  apply bind_returned in H as (drawn & w5 & H5 & H).
  unfold gets in H5. injection H5 as <- <-.
  apply bind_returned in H as ([] & w6 & H6 & H).
  assert (Hw6 : attachments w6 = attachments w4 /\ uploads w6 = uploads w4)
    by (unfold console_put, modify in H6; by simplify_eq).
  destruct Hw6 as [<- <-]. clear H6.
  apply bind_returned in H as (date & w7 & H7 & H).
  unfold Date_now, gets in H7. injection H7 as <- <-.
  apply bind_returned in H as ([] & w8 & H8 & H).
  assert (Hw8 : attachments w8 = attachments w6 /\ uploads w8 = uploads w6)
    by (unfold console_put, modify in H8; by simplify_eq).
  destruct Hw8 as [<- <-]. clear H8.
  apply bind_returned in H as (data & w9 & H9 & H).
  assert (Hw9 : attachments w9 = attachments w8
                /\ length (uploads w9) = S (length (uploads w8))).
  { unfold s3_upload_call in H9.
    destruct (s3_upload env _ _) as [dt [e | r]]; [done |].
    injection H9 as <- <-. cbn. rewrite length_app. cbn. split; [done | lia]. }
  destruct Hw9 as [<- Hup]. clear H9.
  apply bind_returned in H as (location & w10 & H10 & H).
  assert (Hw10 : w10 = w9).
  { unfold property in H10. destruct (get data "Location"); [| done].
    unfold ret in H10. by simplify_eq. }
  subst w10. clear H10.
  apply bind_returned in H as (row & w11 & H11 & H).
  unfold ret in H. injection H as <- <-.
  apply attachment_create_returned in H11
    as (Hatt & Hurl & Hmetas & Hcreated & Hclock & Hup11 & _).
  exists data. rewrite Hurl in Hmetas.
  split; [exact Hatt |]. split; [by rewrite Hup11 |]. split; [exact Hmetas |].
  by rewrite Hcreated, Hclock.
Qed.

Lemma createAttachmentFromUrl_returned url params w a w' :
  createAttachmentFromUrl env url params w = (Returned a, w') ->
  exists data,
    attachments w' = attachments w ++ [a]
    /\ length (uploads w') = S (length (uploads w))
    /\ length (requests w') = S (length (requests w))
    /\ att_metas a
       = json_clone
           (JObj (spread_props [("location", JStr (att_url a)); ("s3", data)]
                    (default [] (params_metas params))))
    /\ att_created_at a = clock w'.
Proof.
  unfold createAttachmentFromUrl. cbv zeta. intros H.
  apply bind_returned in H as ([] & w1 & H1 & H).
  assert (Hw1 : attachments w1 = attachments w /\ uploads w1 = uploads w
                /\ requests w1 = requests w)
    by (unfold console_put, modify in H1; by simplify_eq).
  destruct Hw1 as (<- & <- & <-). clear H1.
  apply try_rethrow_returned in H;
    [| intros e w2; unfold bind, console_put, modify, throw; cbn; eauto].
  apply bind_returned in H as (sent & w2 & H2 & H).
  unfold gets in H2. injection H2 as <- <-.
  apply bind_returned in H as (response & w3 & H3 & H).
  assert (Hw3 : attachments w3 = attachments w1 /\ uploads w3 = uploads w1
                /\ length (requests w3) = S (length (requests w1))).
  { unfold axios_call in H3.
    destruct (axios env _ _) as [dt [e | r]]; [done |].
    injection H3 as <- <-. cbn. rewrite length_app. cbn.
    repeat split; lia. }
  destruct Hw3 as (<- & <- & Hreq). clear H3.
  apply bind_returned in H as (originalname & w4 & H4 & H).
  assert (Hw4 : w4 = w3).
  { destruct url; unfold ret, throw in H4; by simplify_eq. }
  subst w4. clear H4.
  apply bind_returned in H as ([] & w5 & H5 & H).
  assert (Hw5 : attachments w5 = attachments w3 /\ uploads w5 = uploads w3
                /\ requests w5 = requests w3)
    by (unfold console_put, modify in H5; by simplify_eq).
  destruct Hw5 as (<- & <- & Hrq5). clear H5.
  apply bind_returned in H as (row & w6 & H6 & H).
  unfold ret in H. injection H as <- <-.
  assert (Hrq6 : requests w6 = requests w5).
  { match type of H6 with
    | createAttachment env ?file params w5 = _ =>
        pose proof (keeps_createAttachment requests ltac:(ignore_field)
                      ltac:(ignore_field) ltac:(ignore_field) env
                      ltac:(ignore_field) ltac:(ignore_field) file params w5)
          as Hk
    end.
    rewrite H6 in Hk. exact Hk. }
  apply createAttachment_returned in H6 as (data & Hatt & Hup & Hmetas & Hcl).
  exists data. repeat split; try done. by rewrite Hrq6, Hrq5.
Qed.

(** The attachment of a cover image carries the location of its file. *)
Lemma cover_image_location prompt size model w cover w' :
  AIService.generateCoverImage env prompt size model w = (Returned cover, w') ->
  get_opt (att_metas cover) "location" = JStr (att_url cover).
Proof.
  unfold AIService.generateCoverImage. cbv zeta.
  destruct (String.eqb prompt ""); [done |]. intros H.
  apply try_rethrow_returned in H;
    [| intros e w2; unfold bind, console_put, modify, throw; cbn; eauto].
  apply bind_returned in H as (startTime & w1 & _ & H).
  apply bind_returned in H as (reply & w2 & _ & H).
  apply bind_returned in H as (endTime & w3 & _ & H).
  destruct (_ || _); [done |].
  apply bind_returned in H as (imageUrl & w4 & _ & H).
  destruct (negb (truthy imageUrl)); [done |].
  apply createAttachmentFromUrl_returned in H as (data & _ & _ & _ & -> & _).
  cbn. by destruct data.
Qed.

End UploadFacts.

(* ===================================================================== *)
(** * Callbacks and polls against the song table                          *)
(* ===================================================================== *)

Section CallbackFacts.
Import KaraokeService.
Variable env : Env.
Local Opaque String.append.

Lemma song_findUnique_run task w :
  song_findUnique env (JStr task) w
  = match db_fault env (db_ops w) with
    | Some msg => (Thrown (mkError msg), set_db_ops (S (db_ops w)) w)
    | None => (Returned (find_song_by_task task (songs w)),
               set_db_ops (S (db_ops w)) w)
    end.
Proof.
  unfold song_findUnique, bind, db_access, gets.
  by destruct (db_fault env (db_ops w)).
Qed.


Lemma link_without_song {B} (f : World -> B) files :
  ignores f set_console ->
  forall acc w,
    fst (link_attachments env None files acc w) = Returned (acc ++ map snd files)
    /\ f (snd (link_attachments env None files acc w)) = f w.
Proof.
  intros Hc. induction files as [| [trackInfo attachment] rest IH]; intros acc w.
  - cbn. by rewrite app_nil_r.
  - cbn [link_attachments map snd]. unfold bind, console_put, modify, ret.
    cbn [fst snd].
    destruct (IH (acc ++ [attachment])
                (set_console
                   (console w ++
                    [(Log, "We already have an attachment from SunoService: "
                             +:+ att_url attachment)]) w)) as [Hr Hf].
    rewrite Hr, Hf, Hc, <- app_assoc. done.
Qed.

Lemma link_without_song_console files :
  forall acc w,
    exists extra,
      console (snd (link_attachments env None files acc w)) = console w ++ extra.
Proof.
  induction files as [| [trackInfo attachment] rest IH]; intros acc w.
  - exists []. cbn. by rewrite app_nil_r.
  - cbn [link_attachments]. unfold bind, console_put, modify, ret.
    cbn [fst snd].
    match goal with
    | |- context [link_attachments env None rest ?acc' ?w'] =>
        destruct (IH acc' w') as [extra Hextra];
        destruct (link_attachments env None rest acc' w') as [[r | e] w2]
    end; cbn [fst snd] in *; rewrite Hextra; cbn [console set_console];
      rewrite <- app_assoc; eauto.
Qed.

(** The reconciliation step for a task id without a song record. *)
Lemma reconcile_unknown {B} (f : World -> B) cb files w :
  ignores f set_console -> ignores f set_db_ops ->
  unknown_task cb w ->
  f (snd (reconcile env cb files w)) = f w.
Proof.
  intros Hc Hd Hu. unfold reconcile. cbv zeta.
  destruct (callback_task cb) as [| | | | task | |] eqn:Ht; try by cbn.
  unfold bind at 1. rewrite song_findUnique_run.
  destruct (db_fault env (db_ops w)); [apply Hd |].
  rewrite (Hu task Ht).
  unfold bind, console_put, modify, ret. cbn [fst snd].
  match goal with
  | |- context [link_attachments env None files [] ?w0] =>
      destruct (link_without_song f files Hc [] w0) as [Hr Hf];
      destruct (link_attachments env None files [] w0) as [[r | e] w2]
  end; cbn in *; by rewrite Hf, Hc, Hd.
Qed.

Lemma reconcile_unknown_result cb files w task :
  healthy env ->
  callback_task cb = JStr task ->
  unknown_task cb w ->
  fst (reconcile env cb files w)
  = Returned {| cr_status := "success";
                cr_taskId := JStr task;
                cr_callbackType := callback_type cb "";
                cr_savedFiles := files;
                cr_doAttachments := map snd files |}
  /\ exists extra,
       console (snd (reconcile env cb files w))
       = console w
           ++ (Warn, "No Song record found for suno_task_id: " +:+ task)
           :: extra.
Proof.
  intros Hdb Ht Hu.
  set (w0 := set_console
               (console w
                  ++ [(Warn, "No Song record found for suno_task_id: " +:+ task)])
               (set_db_ops (S (db_ops w)) w)).
  assert (E : reconcile env cb files w
              = match link_attachments env None files [] w0 with
                | (Returned d, w2) =>
                    (Returned {| cr_status := "success";
                                 cr_taskId := JStr task;
                                 cr_callbackType := callback_type cb "";
                                 cr_savedFiles := files;
                                 cr_doAttachments := d |}, w2)
                | (Thrown e, w2) => (Thrown e, w2)
                end).
  { unfold reconcile. cbv zeta. rewrite Ht.
    unfold bind at 1. rewrite song_findUnique_run, Hdb.
    rewrite (Hu task Ht). reflexivity. }
  rewrite E.
  destruct (link_without_song songs files ltac:(done) [] w0) as [Hr _].
  destruct (link_without_song_console files [] w0) as [extra Hextra].
  destruct (link_attachments env None files [] w0) as [[r | e] w2];
    cbn [fst snd] in *; [| done].
  split; [by simplify_eq |].
  exists extra. rewrite Hextra. subst w0. cbn. by rewrite <- app_assoc.
Qed.










(** ** C3 *)


(** The audio callback for a task id without a song record. *)
Lemma audio_callback_unknown {B} (f : World -> B) cb w :
  ignores f set_console -> ignores f set_db_ops -> ignores f set_clock ->
  ignores f set_requests -> ignores f set_uploads ->
  ignores f set_attachments ->
  unknown_task cb w ->
  f (snd (handleSunoCallback env cb w)) = f w.
Proof.
  intros Hc Hd Hcl Hrq Hup Hat Hu. unfold handleSunoCallback, try_catch.
  unfold bind at 1. unfold console_put at 1, modify at 1. cbn [fst snd].
  set (w0 := set_console _ w).
  assert (Hu0 : unknown_task cb w0) by exact Hu.
  rewrite <- (Hc (console w0) w : f w0 = f w). clearbody w0.
  destruct (callback_invalid cb); [cbn; apply Hc |].
  unfold bind at 1. unfold console_put at 1, modify at 1. cbn [fst snd].
  set (w0' := set_console _ w0).
  assert (Hu0' : unknown_task cb w0') by exact Hu0.
  rewrite <- (Hc (console w0') w0 : f w0' = f w0).
  clearbody w0'. clear Hu0 w0. rename w0' into w0, Hu0' into Hu0.
  unfold bind at 1.
  assert (Hf : f (snd (downloadAndSaveSongFromCallback env cb w0)) = f w0)
    by (by apply keeps_download).
  assert (Hs : songs (snd (downloadAndSaveSongFromCallback env cb w0)) = songs w0)
    by (apply keeps_download; ignore_field).
  destruct (downloadAndSaveSongFromCallback env cb w0) as [[files | e] w1];
    cbn [fst snd] in *; [| cbn; by rewrite Hc].
  assert (Hu1 : unknown_task cb w1) by (intros task Ht; rewrite Hs; by apply Hu0).
  pose proof (reconcile_unknown f cb files w1 Hc Hd Hu1) as Hr.
  destruct (reconcile env cb files w1) as [[r | e] w2]; cbn [fst snd] in *;
    [congruence | cbn; rewrite Hc; congruence].
Qed.

(** The lyrics callback for a task id without a song record. *)
Lemma lyrics_callback_unknown {B} (f : World -> B) cb w :
  ignores f set_console -> ignores f set_db_ops ->
  unknown_task cb w ->
  f (snd (handleSunoCallbackLyrics env cb w)) = f w.
Proof.
  intros Hc Hd Hu. unfold handleSunoCallbackLyrics, try_catch. cbv zeta.
  unfold bind at 1. unfold console_put at 1, modify at 1. cbn [fst snd].
  set (w0 := set_console _ w).
  assert (Hu0 : unknown_task cb w0) by exact Hu.
  rewrite <- (Hc (console w0) w : f w0 = f w). clearbody w0.
  destruct (callback_invalid cb); [cbn; apply Hc |].
  destruct (callback_task cb) as [| | | | task | |] eqn:Ht;
    try (cbn; by rewrite Hc).
  unfold bind at 1. unfold bind at 1. rewrite song_findUnique_run.
  destruct (db_fault env (db_ops w0)); [cbn; by rewrite Hc, Hd |].
  rewrite (Hu0 task Ht). cbn. by rewrite Hc, Hd.
Qed.

(** ** C8 *)

(** C8.  A callback whose task id has no song record leaves the song table
    and the audio-file table as they were, in both handlers: no record is
    made from the callback.  On a healthy database, for a well-formed
    callback that carries a task id, the lyrics handler warns and returns
    success, and the audio handler warns and returns success whenever its
    download step returned. *)
Theorem unknown_task_callback_is_noop cb w :
  unknown_task cb w ->
  let audio := handleSunoCallback env cb w in
  let lyrics := handleSunoCallbackLyrics env cb w in
  songs (snd audio) = songs w
  /\ audioFiles (snd audio) = audioFiles w
  /\ songs (snd lyrics) = songs w
  /\ audioFiles (snd lyrics) = audioFiles w
  /\ forall task,
       healthy env -> callback_invalid cb = false ->
       callback_task cb = JStr task ->
       fst lyrics
       = Returned {| lr_status := "success";
                     lr_taskId := JStr task;
                     lr_callbackType := callback_type cb "lyrics";
                     lr_message := "Lyrics callback processed successfully" |}
       /\ last (console (snd lyrics))
          = Some (Warn, "No Song record found for suno_task_id: " +:+ task)
       /\ forall files w1,
            downloadAndSaveSongFromCallback env cb
              (snd ((console_put Log "Received Suno callback" ;;;
                     console_put Log "Downloading song files from callback...")%js
                      w))
            = (Returned files, w1) ->
            fst audio
            = Returned {| cr_status := "success";
                          cr_taskId := JStr task;
                          cr_callbackType := callback_type cb "";
                          cr_savedFiles := files;
                          cr_doAttachments := map snd files |}
            /\ (Warn, "No Song record found for suno_task_id: " +:+ task)
               ∈ console (snd audio).
Proof.
  intros Hu. cbv zeta.
  split; [by apply audio_callback_unknown |].
  split; [by apply audio_callback_unknown |].
  split; [by apply lyrics_callback_unknown |].
  split; [by apply lyrics_callback_unknown |].
  intros task Hdb Hvalid Ht. split; [| split].
  - unfold handleSunoCallbackLyrics, try_catch. cbv zeta. rewrite Hvalid, Ht.
    unfold bind at 1. unfold console_put at 1, modify at 1. cbn [fst snd].
    unfold bind at 1. unfold bind at 1. rewrite song_findUnique_run, Hdb.
    cbn [songs set_console]. rewrite (Hu task Ht). by cbn.
  - unfold handleSunoCallbackLyrics, try_catch. cbv zeta. rewrite Hvalid, Ht.
    unfold bind at 1. unfold console_put at 1, modify at 1. cbn [fst snd].
    unfold bind at 1. unfold bind at 1. rewrite song_findUnique_run, Hdb.
    cbn [songs set_console]. rewrite (Hu task Ht). cbn.
    by rewrite last_snoc.
  - intros files w1 Hdl.
    assert (E : handleSunoCallback env cb w
                = match reconcile env cb files w1 with
                  | (Returned a, w') => (Returned a, w')
                  | (Thrown e, w') =>
                      (Thrown (mkError ("Error handling Suno callback: "
                                          +:+ message e)),
                       set_console
                         (console w'
                            ++ [(Error, "Error handling Suno callback: "
                                          +:+ message e)]) w')
                  end).
    { unfold handleSunoCallback, try_catch. rewrite Hvalid.
      unfold bind, console_put, modify, throw in Hdl |- *.
      cbn [fst snd] in Hdl |- *. rewrite Hdl.
      by destruct (reconcile env cb files w1) as [[r | e] w2]. }
    rewrite E.
    assert (Hs : songs w1 = songs w).
    { pose proof (keeps_download songs ltac:(ignore_field) ltac:(ignore_field)
                    ltac:(ignore_field) ltac:(ignore_field) env
                    ltac:(ignore_field) ltac:(ignore_field) cb) as Hk.
      match type of Hdl with
      | downloadAndSaveSongFromCallback env cb ?w0 = _ =>
          specialize (Hk w0)
      end.
      rewrite Hdl in Hk. exact Hk. }
    assert (Hu1 : unknown_task cb w1) by (intros t Hte; rewrite Hs; by apply Hu).
    destruct (reconcile_unknown_result cb files w1 task Hdb Ht Hu1)
      as [Hr [extra Hextra]].
    destruct (reconcile env cb files w1) as [[r | e] w2]; cbn [fst snd] in *;
      [| done].
    split; [done |]. rewrite Hextra. set_solver.
Qed.

End CallbackFacts.

(* ===================================================================== *)
(** * The song submission and its cover image                             *)
(* ===================================================================== *)

Section SubmissionFacts.
Import KaraokeService.
Variable env : Env.

Lemma keeps_submit_to_suno {B} (f : World -> B) musicStyle instrumental
    callbackUrl songLyrics songTitle :
  ignores f set_console -> ignores f set_db_ops -> ignores f set_clock ->
  ignores f set_requests -> ignores f set_apiLimits -> ignores f set_apiCalls ->
  keeps f (submit_to_suno env musicStyle instrumental callbackUrl songLyrics
             songTitle).
Proof.
  intros. unfold submit_to_suno.
  repeat first
    [ apply keeps_generateAudio; assumption
    | apply keeps_generateLyrics; assumption
    | apply keeps_console_put; assumption
    | frame_step ].
Qed.

(** Whatever makes the cover image fail, for a prompt that is not empty
    the error names the cover image step. *)
Lemma cover_error_names_its_step prompt size model w e w2 :
  prompt <> "" ->
  AIService.generateCoverImage env prompt size model w = (Thrown e, w2) ->
  exists cause, message e = "Error generando cover image: " +:+ cause.
Proof.
  intros Hne. unfold AIService.generateCoverImage.
  destruct (String.eqb_spec prompt ""); [done |].
  unfold try_catch.
  match goal with |- context [match ?body w with _ => _ end] =>
    destruct (body w) as [[a | e0] w'] end; [done |].
  unfold bind, console_put, modify, throw. cbn. intros [= <- _]. eauto.
Qed.

Lemma coverPrompt_not_empty songTitle musicStyle :
  coverPrompt songTitle musicStyle <> "".
Proof. done. Qed.

(** ** C9 *)

(** C9 (as amended).  When the music generation task was submitted and the
    cover image step then fails, the run throws one error that names the
    cover image step inside the pipeline error; no song row is written for
    the task (the row is created only after the cover image), the
    repository table is as it was, and the ApiCall and ApiLimit rows that
    the submission wrote stay as the submission left them. *)
Theorem cover_failure_reported_song_not_stored owner repo repoUrl musicStyle
    instrumental callbackUrl songLyrics songTitle commitSummary w resp w1 task
    e w2 :
  submit_to_suno env musicStyle instrumental callbackUrl songLyrics songTitle
    (snd (console_put Log "Generating final audio with Suno API" w))
  = (Returned resp, w1) ->
  task_of resp = Some task ->
  AIService.generateCoverImage env (coverPrompt songTitle musicStyle)
    "512x512" "dall-e-2"
    (snd (console_put Log
            ("Song generation task initiated with ID: " +:+ to_string task) w1))
  = (Thrown e, w2) ->
  let run := generateSongFromRepo_submit env owner repo repoUrl musicStyle
               instrumental callbackUrl songLyrics songTitle commitSummary w in
  fst run
  = Thrown (mkError ("Error generating song from repository: " +:+ message e))
  /\ (exists cause, message e = "Error generando cover image: " +:+ cause)
  /\ songs (snd run) = songs w
  /\ repositories (snd run) = repositories w
  /\ apiCalls (snd run) = apiCalls w1
  /\ apiLimits (snd run) = apiLimits w1.
Proof.
  intros Hsubmit Htask Hcover.
  assert (Hrun :
    generateSongFromRepo_submit env owner repo repoUrl musicStyle instrumental
      callbackUrl songLyrics songTitle commitSummary w
    = (Thrown (mkError ("Error generating song from repository: "
                          +:+ message e)),
       set_console
         (console w2
            ++ [(Error, "Error al generar o guardar la imagen: " +:+ message e)]
            ++ [(Error, "Error generating song from repo: " +:+ message e)])
         w2)).
  { unfold generateSongFromRepo_submit, try_catch.
    unfold bind at 1. unfold bind at 1.
    destruct (console_put Log "Generating final audio with Suno API" w)
      as [[[] | ?] w0] eqn:Hw0; [| done].
    cbn [snd] in Hsubmit. rewrite Hsubmit.
    unfold task_of in Htask.
    destruct (negb (truthy resp) || negb (truthy (get_opt resp "data")));
      [done |].
    destruct (truthy (get_opt (get_opt resp "data") "taskId")); [| done].
    injection Htask as Htask. rewrite Htask.
    cbn [negb]. unfold bind at 1. unfold bind at 1.
    destruct (console_put Log
                ("Song generation task initiated with ID: " +:+ to_string task)
                w1)
      as [[[] | ?] w1'] eqn:Hw1; [| done].
    cbn [snd] in Hcover. unfold cover_step, try_catch. rewrite Hcover.
    unfold bind, console_put, modify, throw. cbn.
    by rewrite <- app_assoc. }
  cbv zeta. rewrite Hrun. cbn [fst snd].
  assert (Hk : forall {B} (f : World -> B),
             ignores f set_console -> ignores f set_db_ops ->
             ignores f set_uploads -> ignores f set_clock ->
             ignores f set_requests -> ignores f set_attachments ->
             f w2 = f w1).
  { intros B f Hc Hd Hu Hcl Hr Hat.
    pose proof (keeps_generateCoverImage f Hc Hd Hcl Hr env Hu Hat
                  (coverPrompt songTitle musicStyle) "512x512" "dall-e-2"
                  (snd (console_put Log
                          ("Song generation task initiated with ID: "
                             +:+ to_string task) w1)))
      as Hkeep.
    rewrite Hcover in Hkeep. cbn [snd] in Hkeep. rewrite Hkeep. apply Hc. }
  assert (Hk1 : forall {B} (f : World -> B),
             ignores f set_console -> ignores f set_db_ops ->
             ignores f set_clock -> ignores f set_requests ->
             ignores f set_apiLimits -> ignores f set_apiCalls ->
             f w1 = f w).
  { intros B f Hc Hd Hcl Hr Hl Ha.
    pose proof (keeps_submit_to_suno f musicStyle instrumental callbackUrl
                  songLyrics songTitle Hc Hd Hcl Hr Hl Ha
                  (snd (console_put Log "Generating final audio with Suno API" w)))
      as Hkeep.
    rewrite Hsubmit in Hkeep. cbn [snd] in Hkeep. rewrite Hkeep. apply Hc. }
  split; [done |]. split.
  { eapply cover_error_names_its_step;
      [apply coverPrompt_not_empty | exact Hcover]. }
  split; [| split; [| split]].
  - change (songs w2 = songs w). rewrite (Hk _ songs), (Hk1 _ songs); done.
  - change (repositories w2 = repositories w).
    rewrite (Hk _ repositories), (Hk1 _ repositories); done.
  - change (apiCalls w2 = apiCalls w1). by rewrite (Hk _ apiCalls).
  - change (apiLimits w2 = apiLimits w1). by rewrite (Hk _ apiLimits).
Qed.

End SubmissionFacts.

(* ===================================================================== *)
(** * The properties at concrete inputs                                   *)
(* ===================================================================== *)

Section Examples.
Import Fixtures.

Example md5_empty : MD5.md5_hex "" = "d41d8cd98f00b204e9800998ecf8427e".
Proof. vm_compute. reflexivity. Qed.

Example md5_abc : MD5.md5_hex "abc" = "900150983cd24fb0d6963f7d28e17f72".
Proof. vm_compute. reflexivity. Qed.

Example md5_two_blocks :
  MD5.md5_hex
    "aaaaaaaaaaaaaaaaaaaaaaaaaaaaaaaaaaaaaaaaaaaaaaaaaaaaaaaaaaaaaaaaaaaaaa"
  = "0f5c6c4e740bfcc08c3c26ccb2673d46".
Proof. vm_compute. reflexivity. Qed.

Example hash_message_of_commits :
  hash_message Github "GET" commits_endpoint page_first
  = "github:GET:/repos/octocat/hello/commits:{"
      +:+ quote "page" +:+ ":1," +:+ quote "per_page" +:+ ":100}".
Proof. vm_compute. reflexivity. Qed.

(** ** C1 at an input *)

Lemma fresh_hit_served_from_cache_witness :
  let run := cachedApiCall env_up Github "GET" repo_endpoint JUndefined
               no_options w_cached in
  fst run = Returned (task_reply "SUCCESS")
  /\ requests (snd run) = requests w_cached
  /\ used Github (snd run) = 1.
Proof.
  destruct (fresh_hit_served_from_cache env_up Github "GET" repo_endpoint
              JUndefined no_options w_cached row_cached)
    as (Hres & Hreq & Hused & _);
    [reflexivity | reflexivity | vm_compute; reflexivity | reflexivity
    | vm_compute; reflexivity |].
  cbv zeta. rewrite Hres, Hreq, Hused. split; [reflexivity |].
  split; [reflexivity | vm_compute; reflexivity].
Defined.

(** Counterexample to C1 as stated: the Suno gateway called with
    [disableCache] finds a fresh successful row for its fingerprint, and
    still sends the request and adds one to the rate counter. *)
Lemma disabled_cache_read_goes_upstream :
  let h := generateRequestHash Suno "GET" poll_endpoint poll_params in
  let run := cachedApiCall env_up Suno "GET" poll_endpoint poll_params
               (force_disableCache no_options) w_polled in
  (exists c, apiCalls w_polled !! h = Some c
             /\ ac_is_success c = true
             /\ not_expired (clock w_polled) (ac_expires_at c) = true)
  /\ length (requests w_polled) = 1%nat
  /\ length (requests (snd run)) = 2%nat
  /\ used Suno w_polled = 1
  /\ used Suno (snd run) = 2.
Proof.
  cbv zeta. split.
  - eexists. split; [vm_compute; reflexivity |]. split; reflexivity.
  - repeat split; vm_compute; reflexivity.
Qed.

(** ** C2 at an input *)

Lemma fingerprint_follows_serialization_witness :
  hash_message Github "GET" commits_endpoint page_first
  = hash_message Github "GET" commits_endpoint per_page_first
  <-> "GET" = "GET" /\ commits_endpoint = commits_endpoint
      /\ serialized page_first = serialized per_page_first.
Proof.
  apply (fingerprint_follows_serialization Github "GET" commits_endpoint
           page_first "GET" commits_endpoint per_page_first); reflexivity.
Defined.

(** Counterexample to C2 as stated: the same keys and values in another
    property order give another fingerprint. *)
Lemma key_order_changes_fingerprint :
  match page_first, per_page_first with
  | JObj props, JObj props' => props ≡ₚ props'
  | _, _ => False
  end
  /\ generateRequestHash Github "GET" commits_endpoint page_first
     <> generateRequestHash Github "GET" commits_endpoint per_page_first.
Proof.
  split; [apply perm_swap |]. vm_compute. discriminate.
Qed.

(** ** C3 at an input *)



(** The lyrics callback for the completed task replaces its lyrics and
    leaves its status and completion time. *)
Example lyrics_callback_after_completion :
  let w := snd (KaraokeService.handleSunoCallbackLyrics env_up
                  (lyrics_callback "T1" "Totally different words")
                  (set_clock 9000 w_completed)) in
  (song_lyrics <$> songs w_completed) = ["Late night, red build"]
  /\ (song_lyrics <$> songs w) = ["Totally different words"]
  /\ (song_updated_at <$> songs w) = [9000]
  /\ (song_status <$> songs w) = ["completed"]
  /\ (song_completed_at <$> songs w) = [Some 1500].
Proof. repeat split; vm_compute; reflexivity. Qed.

(** ** C4 at an input *)

Lemma failed_call_recorded_not_counted_witness :
  let run := cachedApiCall env_down Github "GET" repo_endpoint JUndefined
               no_options w_empty in
  used Github (snd run) = used Github w_empty
  /\ fst run = Thrown network_error.
Proof.
  destruct (failed_call_recorded_not_counted env_down Github "GET" repo_endpoint
              JUndefined no_options w_empty 50 network_error)
    as (Hused & _ & _ & Hrec).
  - right. split; reflexivity.
  - reflexivity.
  - split; [exact Hused |]. apply Hrec. intros n. reflexivity.
Defined.

(** ** C5 at an input *)

Lemma cache_write_error_fails_the_call_witness :
  let run := cachedApiCall (env_db_fails_at 1) Github "GET" repo_endpoint
               JUndefined no_options w_empty in
  fst run = Thrown (mkError "Can't reach database server")
  /\ apiLimits (snd run) = apiLimits w_empty.
Proof.
  destruct (cache_write_error_fails_the_call (env_db_fails_at 1) Github "GET"
              repo_endpoint JUndefined no_options w_empty 120
              (200, task_reply "SUCCESS") "Can't reach database server")
    as (_ & _ & Hlim & Hrow).
  - right. split; reflexivity.
  - reflexivity.
  - reflexivity.
  - split; [| exact Hlim]. apply Hrow. reflexivity.
Defined.

(** The successful reply of the failing input is recorded as a failure. *)
Example cache_write_error_recorded_as_failure :
  let run := cachedApiCall (env_db_fails_at 1) Github "GET" repo_endpoint
               JUndefined no_options w_empty in
  (ac_is_success
     <$> apiCalls (snd run) !! generateRequestHash Github "GET" repo_endpoint
                                 JUndefined) = Some false
  /\ length (requests (snd run)) = 1%nat.
Proof. split; vm_compute; reflexivity. Qed.

(** ** C6 at an input *)

(** Counterexample to C6 as stated: 150 short turns between a system text
    and a prompt, against a budget of 100 tokens.  The cap ends the loop
    after 100 passes with 50 turns left: the estimate is still over the
    budget and the history is not down to one entry. *)
Lemma cap_stops_trimming_early :
  let r := AIService.adjustContent tokens_by_length system_text
             (replicate 150 short_turn) prompt_text 100 in
  ~ (AIService.estimate_of tokens_by_length r <= 100 \/ AIService.at_floor r).
Proof.
  cbv zeta.
  assert (Hr : AIService.adjustContent tokens_by_length system_text
                 (replicate 150 short_turn) prompt_text 100
               = (system_text, replicate 50 short_turn, prompt_text))
    by (vm_compute; reflexivity).
  rewrite Hr. intros [Hest | (Hhist & _)].
  - vm_compute in Hest. by apply Hest.
  - vm_compute in Hhist. lia.
Qed.

Example cap_stops_trimming_early_count :
  AIService.iteration
    (AIService.adjustContent_run tokens_by_length system_text
       (replicate 150 short_turn) prompt_text 100) = 101
  /\ AIService.estimate_of tokens_by_length
       (system_text, replicate 50 short_turn, prompt_text) = 221.
Proof. split; vm_compute; reflexivity. Qed.

(** ** C7 at an input *)

Lemma chunker_partitions_text_witness :
  exists chunks,
    (forall fuel, (10 <= fuel)%nat ->
       KaraokeService.chunkTextByTokens fuel
         ["a"; "b"; "c"; "d"; "e"; "f"; "g"; "h"; "i"; "j"]%char (Some 1)
       = Some chunks)
    /\ concat chunks = ["a"; "b"; "c"; "d"; "e"; "f"; "g"; "h"; "i"; "j"]%char.
Proof.
  destruct (chunker_partitions_text
              ["a"; "b"; "c"; "d"; "e"; "f"; "g"; "h"; "i"; "j"]%char (Some 1))
    as (chunks & Hrun & _ & _ & Hcat & _); [reflexivity |].
  exists chunks. split; [exact Hrun | exact Hcat].
Defined.

Example chunks_of_ten :
  KaraokeService.chunkTextByTokens 10
    ["a"; "b"; "c"; "d"; "e"; "f"; "g"; "h"; "i"; "j"]%char (Some 1)
  = Some [["a"; "b"; "c"; "d"]; ["e"; "f"; "g"; "h"]; ["i"; "j"]]%char.
Proof. reflexivity. Qed.

(** ** C8 at an input *)

Lemma unknown_task_callback_is_noop_witness :
  songs (snd (KaraokeService.handleSunoCallback env_up
                (callback "T9" "complete") w_pending))
  = songs w_pending.
Proof.
  apply (unknown_task_callback_is_noop env_up (callback "T9" "complete")
           w_pending).
  intros task [= <-]. reflexivity.
Defined.

(** ** C9 at an input *)

Lemma cover_failure_reported_song_not_stored_witness :
  fst run_no_cover
  = Thrown (mkError
              ("Error generating song from repository: "
                 +:+ "Error generando cover image: "
                 +:+ "Request failed with status code 500"))
  /\ songs (snd run_no_cover) = songs w_empty.
Proof.
  pose (w1 := snd (KaraokeService.submit_to_suno env_no_cover "Rock" false
                     "https://api.example" "Late night, red build"
                     "Merge Conflict Blues"
                     (snd (console_put Log "Generating final audio with Suno API"
                             w_empty)))).
  pose (w2 := snd (AIService.generateCoverImage env_no_cover
                     (KaraokeService.coverPrompt "Merge Conflict Blues" "Rock")
                     "512x512" "dall-e-2"
                     (snd (console_put Log
                             "Song generation task initiated with ID: T1" w1)))).
  destruct (cover_failure_reported_song_not_stored env_no_cover "octocat" "hello"
              "https://github.com/octocat/hello" "Rock" false
              "https://api.example" "Late night, red build"
              "Merge Conflict Blues" summary w_empty (task_reply "PENDING") w1
              (JStr "T1")
              (mkError ("Error generando cover image: "
                          +:+ "Request failed with status code 500")) w2)
    as (Hres & _ & Hsongs & _).
  - vm_compute. reflexivity.
  - reflexivity.
  - vm_compute. reflexivity.
  - split; [exact Hres | exact Hsongs].
Defined.

(** Counterexample to C9 as stated: the lyrics and the music task were
    submitted (three requests went out, the task is T1), the cover image
    failed, and after the run no song row holds the lyrics or the task. *)
Lemma cover_failure_drops_song :
  length (requests (snd run_no_cover)) = 3%nat
  /\ (exists e, fst run_no_cover = Thrown e)
  /\ KaraokeService.find_song_by_task "T1" (songs (snd run_no_cover)) = None
  /\ songs (snd run_no_cover) = [].
Proof.
  split; [vm_compute; reflexivity |]. split; [| split; vm_compute; reflexivity].
  eexists. vm_compute. reflexivity.
Qed.

(** ** C10 at an input *)

Lemma status_polls_skip_the_cache_witness :
  requests (snd (getTaskDetails env_up "T1" no_options w_polled))
  = requests w_polled
      ++ [request_of env_up Suno "GET" poll_endpoint poll_params no_options].
Proof.
  apply (status_polls_skip_the_cache env_up "T1" no_options w_polled).
  discriminate.
Defined.

End Examples.

(* ===================================================================== *)
(** * Further properties of the cache and the rate counter                *)
(* ===================================================================== *)

Section CacheLifeCycle.
Local Opaque String.append.

Ltac run_gateway :=
  unfold cachedApiCall, cache_read, live_call, record_failure, updateApiLimit,
    apiCall_findUnique, apiCall_upsert, apiLimit_upsert, db_access, axios_call,
    console_put, Date_now, try_catch, bind, gets, modify, ret, throw;
  cbv zeta.

(** The run of a call that is answered by its cache read. *)
Lemma hit_run env svc method endpoint params o w c :
  cache_disabled svc o = false ->
  db_fault env (db_ops w) = None ->
  apiCalls w !! generateRequestHash svc method endpoint params = Some c ->
  cache_hit (clock w) (Some c) = Some (ac_response c) ->
  cachedApiCall env svc method endpoint params o w
  = (Returned (ac_response c),
     set_console (console w ++ [(Log, msg_cached method endpoint)])
       (set_db_ops (S (db_ops w)) w)).
Proof.
  intros Hon Hdb Hrow Hhit.
  unfold cachedApiCall. rewrite generateRequestHash_default.
  remember (generateRequestHash svc method endpoint params) as h.
  run_gateway. rewrite Hon. cbn. rewrite Hdb. cbn.
  rewrite Hrow, Hhit. reflexivity.
Qed.

(** The clock and the operation count after a live call that succeeds on a
    healthy database. *)
Lemma live_success_clock env svc method endpoint params o w dt reply :
  reaches_upstream env svc (generateRequestHash svc method endpoint params) o w ->
  axios env (length (requests w)) (request_of env svc method endpoint params o)
    = (dt, inr reply) ->
  healthy env ->
  clock (snd (cachedApiCall env svc method endpoint params o w)) = clock w + dt.
Proof.
  intros Hmiss Hreply Hdb.
  unfold request_of in *. unfold cachedApiCall.
  rewrite generateRequestHash_default.
  remember (generateRequestHash _ _ _ _) as h.
  run_gateway. remember (axios_config _ _ _ _ _ _) as cfg.
  destruct Hmiss as [Hoff | [_ Hmiss]].
  - rewrite Hoff. cbn. rewrite Hreply. cbn. rewrite !Hdb. cbn. done.
  - destruct (cache_disabled svc o); cbn.
    + rewrite Hreply. cbn. rewrite !Hdb. cbn. done.
    + rewrite !Hdb. cbn. rewrite Hmiss. cbn. rewrite Hreply. cbn.
      rewrite !Hdb. cbn. done.
Qed.

Lemma used_after_success svc now (limits : gmap string ApiLimit) :
  default 0
    (al_requests_used <$>
       (<[service_name svc :=
            match limits !! service_name svc with
            | Some row => limit_update now row
            | None => limit_create svc now
            end]> limits) !! service_name svc)
  = default 0 (al_requests_used <$> limits !! service_name svc) + 1.
Proof.
  rewrite lookup_insert_eq. destruct (limits !! service_name svc); reflexivity.
Qed.

(** X1.  Two identical calls.  When a call goes upstream and succeeds on a
    healthy database, the rate counter of the service grows by one, and a
    later call with the same method, endpoint and parameters whose cache
    read is on is answered with the same response without a request and
    without touching the counter, as long as the row is as the first call
    left it and either the cache duration is 0 (the row never expires) or
    the clock is still before the expiry. *)
Theorem repeated_call_served_from_cache env svc method endpoint params o o2 w
    dt reply w2 :
  reaches_upstream env svc (generateRequestHash svc method endpoint params) o w ->
  axios env (length (requests w)) (request_of env svc method endpoint params o)
    = (dt, inr reply) ->
  healthy env ->
  cache_disabled svc o2 = false ->
  let h := generateRequestHash svc method endpoint params in
  let hours := default DEFAULT_CACHE_HOURS (cacheHours o) in
  let run1 := cachedApiCall env svc method endpoint params o w in
  apiCalls w2 !! h = apiCalls (snd run1) !! h ->
  hours = 0 \/ clock w2 < clock w + dt + hours * 60 * 60 * 1000 ->
  let run2 := cachedApiCall env svc method endpoint params o2 w2 in
  fst run1 = Returned (snd reply)
  /\ used svc (snd run1) = used svc w + 1
  /\ fst run2 = Returned (snd reply)
  /\ requests (snd run2) = requests w2
  /\ used svc (snd run2) = used svc w2.
Proof.
  intros Hmiss Hreply Hdb Hon h hours run1 Hrow Hfresh run2.
  destruct (live_success env svc method endpoint params o w dt reply
              Hmiss Hreply Hdb) as (Hres & Hcalls & Hlim).
  fold h in Hcalls. fold run1 in Hres, Hcalls, Hlim.
  split; [done |]. split.
  { unfold used. rewrite Hlim. apply used_after_success. }
  rewrite Hcalls, lookup_insert_eq in Hrow.
  set (row := match apiCalls w !! h with
              | Some r => success_update reply (clock w + dt)
                            (clock w + dt - clock w)
                            (expiry (clock w + dt) hours) (clock w + dt) r
              | None => success_create svc method endpoint h
                          (default_object params) reply (clock w)
                          (clock w + dt) (clock w + dt - clock w)
                          (expiry (clock w + dt) hours) (clock w + dt)
              end) in *.
  assert (Hok : ac_is_success row = true /\ ac_response row = snd reply
                /\ ac_expires_at row = expiry (clock w + dt) hours).
  { unfold row. destruct (apiCalls w !! h); done. }
  destruct Hok as (Hok & Hresp & Hexp).
  assert (Hhit : cache_hit (clock w2) (Some row) = Some (ac_response row)).
  { unfold cache_hit. rewrite Hok, Hexp. unfold expiry, not_expired.
    destruct Hfresh as [H0 | Hlt].
    - rewrite H0. reflexivity.
    - destruct (hours =? 0); [reflexivity |].
      cbn. by rewrite (proj2 (Z.ltb_lt _ _)) by lia. }
  unfold run2.
  rewrite (hit_run env svc method endpoint params o2 w2 row Hon (Hdb _) Hrow Hhit).
  cbn. rewrite Hresp. done.
Qed.

(** X2.  A row that is not served (it records a failure, or its expiry is
    not in the future) is refreshed by the next call that succeeds: the
    request is sent, the reply is returned, and the row of the fingerprint
    is updated in place, with the new response, [is_success], no error
    message and a new expiry, while its creation time, request time and
    stored parameters stay those of the old row. *)
Theorem stale_row_is_refreshed env svc method endpoint params o w c dt reply :
  apiCalls w !! generateRequestHash svc method endpoint params = Some c ->
  cache_hit (clock w) (Some c) = None ->
  healthy env ->
  axios env (length (requests w)) (request_of env svc method endpoint params o)
    = (dt, inr reply) ->
  let h := generateRequestHash svc method endpoint params in
  let run := cachedApiCall env svc method endpoint params o w in
  fst run = Returned (snd reply)
  /\ requests (snd run)
     = requests w ++ [request_of env svc method endpoint params o]
  /\ exists row,
       apiCalls (snd run) !! h = Some row
       /\ ac_response row = snd reply
       /\ ac_is_success row = true
       /\ ac_error_message row = None
       /\ ac_expires_at row
          = expiry (clock w + dt) (default DEFAULT_CACHE_HOURS (cacheHours o))
       /\ ac_created_at row = ac_created_at c
       /\ ac_request_time row = ac_request_time c
       /\ ac_params row = ac_params c.
Proof.
  intros Hrow Hstale Hdb Hreply h run.
  assert (Hmiss : reaches_upstream env svc h o w).
  { right. split; [apply Hdb |]. unfold h. by rewrite Hrow. }
  destruct (live_success env svc method endpoint params o w dt reply
              Hmiss Hreply Hdb) as (Hres & Hcalls & _).
  fold h in Hcalls. fold run in Hres, Hcalls.
  split; [done |]. split; [by apply miss_sends_request |].
  rewrite Hcalls, lookup_insert_eq. fold h in Hrow. rewrite Hrow.
  eexists. split; [reflexivity |]. done.
Qed.

(** X3.  When the cache lookup itself is refused by the database, no
    request is sent: the call throws, and neither the counter nor (when
    the database still refuses the write of the failure) the cache table
    changes.  If the database answers again for that write, the failure
    is recorded under the fingerprint with the database error. *)
Theorem lookup_error_sends_nothing env svc method endpoint params o w msg :
  cache_disabled svc o = false ->
  db_fault env (db_ops w) = Some msg ->
  let h := generateRequestHash svc method endpoint params in
  let run := cachedApiCall env svc method endpoint params o w in
  requests (snd run) = requests w
  /\ apiLimits (snd run) = apiLimits w
  /\ match db_fault env (S (db_ops w)) with
     | Some msg2 =>
         fst run = Thrown (mkError msg2) /\ apiCalls (snd run) = apiCalls w
     | None =>
         fst run = Thrown (rethrown svc (mkError msg))
         /\ exists row,
              apiCalls (snd run) !! h = Some row
              /\ ac_is_success row = false
              /\ ac_error_message row = Some msg
     end.
Proof.
  intros Hon Hdb. cbv zeta.
  unfold cachedApiCall. rewrite generateRequestHash_default.
  remember (generateRequestHash svc method endpoint params) as h.
  run_gateway. rewrite Hon. cbn. rewrite Hdb. cbn.
  destruct (db_fault env (S (db_ops w))) as [msg2 |]; cbn.
  - done.
  - repeat split; try done. rewrite lookup_insert_eq.
    destruct (apiCalls w !! h); eexists; done.
Qed.

(** X4.  The rate counter is written, never read: whatever the ApiLimit
    table holds (a counter above its limit, an inactive row, no row), a
    call returns or throws the same value, sends the same requests and
    leaves the same cache table. *)
Theorem rate_counter_is_never_consulted env svc method endpoint params o w
    (limits : gmap string ApiLimit) :
  let run := cachedApiCall env svc method endpoint params o w in
  let run' :=
    cachedApiCall env svc method endpoint params o (set_apiLimits limits w) in
  fst run' = fst run
  /\ requests (snd run') = requests (snd run)
  /\ apiCalls (snd run') = apiCalls (snd run).
Proof.
  cbv zeta. unfold cachedApiCall.
  remember (generateRequestHash _ _ _ _) as h.
  run_gateway. remember (axios_config _ _ _ _ _ _) as cfg.
  destruct (cache_disabled svc o); cbn.
  - destruct (axios env (length (requests w)) cfg) as [dt [e | reply]]; cbn.
    + destruct (db_fault env (db_ops w)); cbn; done.
    + destruct (db_fault env (db_ops w)); cbn;
        destruct (db_fault env (S (db_ops w))); cbn; done.
  - destruct (db_fault env (db_ops w)); cbn.
    + destruct (db_fault env (S (db_ops w))); cbn; done.
    + destruct (cache_hit (clock w) (apiCalls w !! h)); cbn; [done |].
      destruct (axios env (length (requests w)) cfg) as [dt [e | reply]]; cbn.
      * destruct (db_fault env (S (db_ops w))); cbn; done.
      * destruct (db_fault env (S (db_ops w))); cbn;
          destruct (db_fault env (S (S (db_ops w)))); cbn; done.
Qed.

(** X5.  An error of the rate-counter write does not cost the reply: the
    call returns it, the counter stays as it was, a warning is printed,
    and the row of the fingerprint is stored as a success, so that the
    next call is answered from the cache. *)
Theorem counter_write_error_keeps_the_reply env svc method endpoint params o w
    dt reply msg :
  reaches_upstream env svc (generateRequestHash svc method endpoint params) o w ->
  axios env (length (requests w)) (request_of env svc method endpoint params o)
    = (dt, inr reply) ->
  db_fault env (write_index svc o w) = None ->
  db_fault env (S (write_index svc o w)) = Some msg ->
  let h := generateRequestHash svc method endpoint params in
  let run := cachedApiCall env svc method endpoint params o w in
  fst run = Returned (snd reply)
  /\ used svc (snd run) = used svc w
  /\ last (console (snd run)) = Some (Warn, msg_limit svc msg)
  /\ exists row,
       apiCalls (snd run) !! h = Some row
       /\ ac_is_success row = true
       /\ ac_response row = snd reply.
Proof.
  intros Hmiss Hreply Hw Hl. cbv zeta.
  unfold request_of in *. unfold cachedApiCall, used.
  rewrite generateRequestHash_default.
  remember (generateRequestHash _ _ _ _) as h.
  run_gateway. remember (axios_config _ _ _ _ _ _) as cfg.
  unfold write_index in *.
  destruct Hmiss as [Hoff | [Hdb Hmiss]].
  - rewrite Hoff in *. cbn. rewrite Hreply. cbn. rewrite Hw. cbn.
    rewrite Hl. cbn. rewrite last_snoc, lookup_insert_eq.
    repeat split; try done. destruct (apiCalls w !! h); eexists; done.
  - destruct (cache_disabled svc o); cbn.
    + rewrite Hreply. cbn. rewrite Hw. cbn. rewrite Hl. cbn.
      rewrite last_snoc, lookup_insert_eq.
      repeat split; try done. destruct (apiCalls w !! h); eexists; done.
    + rewrite Hdb. cbn. rewrite Hmiss. cbn. rewrite Hreply. cbn.
      rewrite Hw. cbn. rewrite Hl. cbn.
      rewrite last_snoc, lookup_insert_eq.
      repeat split; try done. destruct (apiCalls w !! h); eexists; done.
Qed.

End CacheLifeCycle.

(* ===================================================================== *)
(** * Waiting for a task: bounded polling                                 *)
(* ===================================================================== *)

Section PollingFacts.
Local Opaque String.append.

(** The poll of a wait is the forced live call of the status endpoint. *)
Lemma status_poll env taskType taskId :
  taskId <> "" ->
  (if String.eqb taskType "lyrics"
   then getLyricsTaskDetails env taskId (force_disableCache no_options)
   else getTaskDetails env taskId (force_disableCache no_options))
  = cachedApiCall env Suno "GET" (status_endpoint taskType)
      (JObj [("taskId", JStr taskId)])
      (force_disableCache (force_disableCache no_options)).
Proof.
  intros Hid.
  assert (Hne : String.eqb taskId "" = false) by (by apply String.eqb_neq).
  unfold getLyricsTaskDetails, getTaskDetails, status_endpoint. rewrite Hne.
  destruct (String.eqb taskType "lyrics"); reflexivity.
Qed.

(** One poll always sends its request. *)
Lemma poll_sends env taskType taskId w :
  requests
    (snd (cachedApiCall env Suno "GET" (status_endpoint taskType)
            (JObj [("taskId", JStr taskId)])
            (force_disableCache (force_disableCache no_options)) w))
  = requests w ++ [status_request env taskType taskId].
Proof.
  pose proof (forced_poll_is_live env (status_endpoint taskType) taskId
                (force_disableCache no_options) w) as [Hreq _].
  exact Hreq.
Qed.

(** One poll that is answered, on a healthy database. *)
Lemma poll_answered env taskType taskId w dt reply :
  healthy env ->
  axios env (length (requests w)) (status_request env taskType taskId)
    = (dt, inr reply) ->
  exists w1,
    cachedApiCall env Suno "GET" (status_endpoint taskType)
      (JObj [("taskId", JStr taskId)])
      (force_disableCache (force_disableCache no_options)) w
    = (Returned (snd reply), w1)
    /\ requests w1 = requests w ++ [status_request env taskType taskId]
    /\ used Suno w1 = used Suno w + 1.
Proof.
  intros Hdb Hreply.
  pose proof (forced_poll_is_live env (status_endpoint taskType) taskId
                (force_disableCache no_options) w) as [Hreq Hrest].
  destruct (Hrest dt reply Hreply Hdb) as (Hres & Hused & _).
  destruct (cachedApiCall env Suno "GET" (status_endpoint taskType) _ _ w)
    as [res w1] eqn:E.
  cbn in *. exists w1. by subst res.
Qed.

(** What [checkStatus] does with the answer of its poll. *)
Lemma checkStatus_answered env left taskId maxAttempts interval taskType
    attempts w taskData w1 :
  taskId <> "" ->
  cachedApiCall env Suno "GET" (status_endpoint taskType)
    (JObj [("taskId", JStr taskId)])
    (force_disableCache (force_disableCache no_options)) w
  = (Returned taskData, w1) ->
  checkStatus env left taskId maxAttempts interval taskType attempts w
  = if is_string (task_status taskData) "SUCCESS" then (Returned taskData, w1)
    else
      match (if truthy (task_status taskData)
             then includes_method (task_status taskData) "FAILED"
             else Some false) with
      | None =>
          (Thrown (mkError (includes_error "status" (task_status taskData))), w1)
      | Some true =>
          (Thrown (mkError (task_failed (task_status taskData) taskData)), w1)
      | Some false =>
          if maxAttempts <=? attempts + 1 then
            (Thrown (mkError (task_not_complete maxAttempts)), w1)
          else
            match left with
            | O => (Thrown (mkError (task_not_complete maxAttempts)), w1)
            | S left' =>
                checkStatus env left' taskId maxAttempts interval taskType
                  (attempts + 1)
                  (set_clock (clock w1 + timer_delay interval) w1)
            end
      end.
Proof.
  intros Hid Hpoll.
  assert (Hstep : forall (rest : M JsValue),
    try_catch
      (taskData <-
         (if String.eqb taskType "lyrics"
          then getLyricsTaskDetails env taskId (force_disableCache no_options)
          else getTaskDetails env taskId (force_disableCache no_options)) ;;
       let status := task_status taskData in
       if is_string status "SUCCESS" then ret taskData
       else
         failed <- (if truthy status then status_includes status "FAILED"
                    else ret false) ;;
         if failed : bool then throw (mkError (task_failed status taskData))
         else
           let attempts := attempts + 1 in
           if maxAttempts <=? attempts then
             throw (mkError (task_not_complete maxAttempts))
           else rest)%js
      (fun error => throw error) w
    = if is_string (task_status taskData) "SUCCESS" then (Returned taskData, w1)
      else
        match (if truthy (task_status taskData)
               then includes_method (task_status taskData) "FAILED"
               else Some false) with
        | None =>
            (Thrown (mkError (includes_error "status" (task_status taskData))),
             w1)
        | Some true =>
            (Thrown (mkError (task_failed (task_status taskData) taskData)), w1)
        | Some false =>
            if maxAttempts <=? attempts + 1 then
              (Thrown (mkError (task_not_complete maxAttempts)), w1)
            else try_catch rest (fun error => throw error) w1
        end).
  { intros rest. rewrite (status_poll env taskType taskId Hid).
    unfold try_catch, bind at 1. rewrite Hpoll. cbv zeta.
    destruct (is_string (task_status taskData) "SUCCESS"); [reflexivity |].
    unfold bind, status_includes.
    destruct (truthy (task_status taskData)).
    - destruct (includes_method (task_status taskData) "FAILED") as [[|] |];
        cbn; try reflexivity.
      destruct (maxAttempts <=? attempts + 1); cbn; [reflexivity |].
      by destruct (rest w1) as [[a | e] w2].
    - cbn. destruct (maxAttempts <=? attempts + 1); cbn; [reflexivity |].
      by destruct (rest w1) as [[a | e] w2]. }
  destruct left as [| left']; cbn [checkStatus]; rewrite Hstep.
  - reflexivity.
  - destruct (is_string (task_status taskData) "SUCCESS"); [reflexivity |].
    destruct (if truthy (task_status taskData)
              then includes_method (task_status taskData) "FAILED"
              else Some false) as [[|] |]; try reflexivity.
    destruct (maxAttempts <=? attempts + 1); [reflexivity |].
    unfold try_catch, bind, sleep, modify. cbn.
    by destruct (checkStatus env left' _ _ _ _ _ _) as [[a | e] w2].
Qed.

Lemma pending_branch taskData :
  task_pending taskData ->
  is_string (task_status taskData) "SUCCESS" = false
  /\ (if truthy (task_status taskData)
      then includes_method (task_status taskData) "FAILED"
      else Some false) = Some false.
Proof.
  intros [Hns [Hf | Hinc]]; split; try done.
  - by rewrite Hf.
  - rewrite Hinc. by destruct (truthy _).
Qed.

(** The wait from the middle of its run: [pending] are the answers of the
    polls that find the task unfinished, then one answer says SUCCESS. *)
Lemma checkStatus_resolves env taskId maxAttempts interval taskType dt final :
  taskId <> "" ->
  healthy env ->
  task_succeeded (snd final) ->
  forall (pending : list (Z * (Z * JsValue))) left attempts w,
    attempts + Z.of_nat (length pending) < maxAttempts ->
    (length pending <= left)%nat ->
    (forall i r, pending !! i = Some r ->
       axios env (length (requests w) + i)%nat
         (status_request env taskType taskId) = (fst r, inr (snd r))
       /\ task_pending (snd (snd r))) ->
    axios env (length (requests w) + length pending)%nat
      (status_request env taskType taskId) = (dt, inr final) ->
    let run :=
      checkStatus env left taskId maxAttempts interval taskType attempts w in
    fst run = Returned (snd final)
    /\ requests (snd run)
       = requests w
           ++ replicate (S (length pending)) (status_request env taskType taskId)
    /\ used Suno (snd run) = used Suno w + Z.of_nat (length pending) + 1.
Proof.
  intros Hid Hdb Hok pending.
  induction pending as [| r pending IH]; intros left attempts w Hcap Hleft Hpend
    Hfinal; cbv zeta.
  - cbn in Hfinal. rewrite Nat.add_0_r in Hfinal.
    destruct (poll_answered env taskType taskId w dt final Hdb Hfinal)
      as (w1 & Hrun & Hreq & Hused).
    rewrite (checkStatus_answered _ _ _ _ _ _ _ _ _ _ Hid Hrun).
    unfold task_succeeded in Hok. rewrite Hok. cbn.
    rewrite Hreq, Hused. repeat split; try done; lia.
  - destruct (Hpend 0%nat r eq_refl) as [Hfirst Hstill].
    rewrite Nat.add_0_r in Hfirst.
    destruct r as [dt0 reply0]. cbn in Hfirst, Hstill.
    destruct (poll_answered env taskType taskId w dt0 reply0 Hdb Hfirst)
      as (w1 & Hrun & Hreq & Hused).
    rewrite (checkStatus_answered _ _ _ _ _ _ _ _ _ _ Hid Hrun).
    destruct (pending_branch _ Hstill) as [Hns Hnf]. rewrite Hns, Hnf.
    cbn [length] in Hcap, Hleft.
    rewrite (proj2 (Z.leb_gt _ _)) by lia.
    destruct left as [| left']; [lia |].
    set (w2 := set_clock (clock w1 + timer_delay interval) w1).
    assert (Hreq2 : requests w2 = requests w ++ [status_request env taskType taskId])
      by exact Hreq.
    assert (Hlen : length (requests w2) = S (length (requests w))).
    { rewrite Hreq2, length_app. cbn. lia. }
    specialize (IH left' (attempts + 1) w2).
    cbv zeta in IH.
    destruct IH as (Hres & Hreqs & Husd).
    + lia.
    + lia.
    + intros i r' Hi. rewrite Hlen.
      replace (S (length (requests w)) + i)%nat
        with (length (requests w) + S i)%nat by lia.
      by apply Hpend.
    + rewrite Hlen.
      replace (S (length (requests w)) + length pending)%nat
        with (length (requests w) + length ((dt0, reply0) :: pending))%nat
        by (cbn [length]; lia).
      exact Hfinal.
    + split; [exact Hres |]. split.
      * rewrite Hreqs, Hreq2, <- app_assoc. reflexivity.
      * rewrite Husd.
        assert (Hw2 : used Suno w2 = used Suno w1) by reflexivity.
        rewrite Hw2, Hused. cbn [length]. lia.
Qed.

(** X6.  Waiting for a task that finishes.  When the upstream answers
    [length pending] polls with a status that is not final and the next
    one with SUCCESS, and that poll is still within [maxAttempts], the
    wait returns the SUCCESS reply after exactly [length pending + 1]
    requests, every one of them sent upstream, and the rate counter grows
    by as many. *)
Theorem wait_returns_the_first_success env taskId maxAttempts interval taskType
    w (pending : list (Z * (Z * JsValue))) dt final :
  taskId <> "" ->
  healthy env ->
  Z.of_nat (length pending) < maxAttempts ->
  (forall i r, pending !! i = Some r ->
     axios env (length (requests w) + i)%nat
       (status_request env taskType taskId) = (fst r, inr (snd r))
     /\ task_pending (snd (snd r))) ->
  axios env (length (requests w) + length pending)%nat
    (status_request env taskType taskId) = (dt, inr final) ->
  task_succeeded (snd final) ->
  let run :=
    waitForTaskCompletion env taskId (Some maxAttempts) (Some interval)
      (Some taskType) w in
  fst run = Returned (snd final)
  /\ requests (snd run)
     = requests w
         ++ replicate (S (length pending)) (status_request env taskType taskId)
  /\ used Suno (snd run) = used Suno w + Z.of_nat (length pending) + 1.
Proof.
  intros Hid Hdb Hcap Hpend Hfinal Hok. unfold waitForTaskCompletion. cbn.
  apply (checkStatus_resolves env taskId maxAttempts interval taskType dt final
           Hid Hdb Hok pending); try done; lia.
Qed.

(** The wait from the middle of its run when no poll finds a final
    status: it gives up when the counter reaches [maxAttempts]. *)
Lemma checkStatus_gives_up env taskId maxAttempts interval taskType :
  taskId <> "" ->
  healthy env ->
  forall (more : nat) left attempts w,
    more = Z.to_nat (maxAttempts - attempts - 1) ->
    (more <= left)%nat ->
    (forall i, (i <= more)%nat ->
       exists dt reply,
         axios env (length (requests w) + i)%nat
           (status_request env taskType taskId) = (dt, inr reply)
         /\ task_pending (snd reply)) ->
    let run :=
      checkStatus env left taskId maxAttempts interval taskType attempts w in
    fst run = Thrown (mkError (task_not_complete maxAttempts))
    /\ requests (snd run)
       = requests w ++ replicate (S more) (status_request env taskType taskId).
Proof.
  intros Hid Hdb more.
  induction more as [| more IH]; intros left attempts w Hmore Hleft Hpend;
    cbv zeta.
  - destruct (Hpend 0%nat (Nat.le_refl _)) as (dt & reply & Hfirst & Hstill).
    rewrite Nat.add_0_r in Hfirst.
    destruct (poll_answered env taskType taskId w dt reply Hdb Hfirst)
      as (w1 & Hrun & Hreq & _).
    rewrite (checkStatus_answered _ _ _ _ _ _ _ _ _ _ Hid Hrun).
    destruct (pending_branch _ Hstill) as [Hns Hnf]. rewrite Hns, Hnf.
    rewrite (proj2 (Z.leb_le _ _)) by lia. cbn. by rewrite Hreq.
  - destruct (Hpend 0%nat ltac:(lia)) as (dt & reply & Hfirst & Hstill).
    rewrite Nat.add_0_r in Hfirst.
    destruct (poll_answered env taskType taskId w dt reply Hdb Hfirst)
      as (w1 & Hrun & Hreq & _).
    rewrite (checkStatus_answered _ _ _ _ _ _ _ _ _ _ Hid Hrun).
    destruct (pending_branch _ Hstill) as [Hns Hnf]. rewrite Hns, Hnf.
    rewrite (proj2 (Z.leb_gt _ _)) by lia.
    destruct left as [| left']; [lia |].
    set (w2 := set_clock (clock w1 + timer_delay interval) w1).
    assert (Hreq2 : requests w2 = requests w ++ [status_request env taskType taskId])
      by exact Hreq.
    assert (Hlen : length (requests w2) = S (length (requests w))).
    { rewrite Hreq2, length_app. cbn. lia. }
    specialize (IH left' (attempts + 1) w2). cbv zeta in IH.
    destruct IH as (Hres & Hreqs).
    + lia.
    + lia.
    + intros i Hi. rewrite Hlen.
      replace (S (length (requests w)) + i)%nat
        with (length (requests w) + S i)%nat by lia.
      apply Hpend. lia.
    + split; [exact Hres |].
      rewrite Hreqs, Hreq2, <- app_assoc. reflexivity.
Qed.

(** X7.  Waiting for a task that does not finish.  When every poll is
    answered with a status that is not final, the wait sends exactly
    [max 1 maxAttempts] requests and then throws the error that names the
    number of attempts: the first poll is made even for a [maxAttempts]
    of 0 or less. *)
Theorem wait_gives_up_after_max_attempts env taskId maxAttempts interval
    taskType w :
  taskId <> "" ->
  healthy env ->
  (forall i, Z.of_nat i < Z.max 1 maxAttempts ->
     exists dt reply,
       axios env (length (requests w) + i)%nat
         (status_request env taskType taskId) = (dt, inr reply)
       /\ task_pending (snd reply)) ->
  let run :=
    waitForTaskCompletion env taskId (Some maxAttempts) (Some interval)
      (Some taskType) w in
  fst run = Thrown (mkError (task_not_complete maxAttempts))
  /\ requests (snd run)
     = requests w
         ++ replicate (Z.to_nat (Z.max 1 maxAttempts))
              (status_request env taskType taskId).
Proof.
  intros Hid Hdb Hpend. unfold waitForTaskCompletion. cbn.
  replace (Z.to_nat (Z.max 1 maxAttempts))
    with (S (Z.to_nat (maxAttempts - 0 - 1))) by lia.
  apply (checkStatus_gives_up env taskId maxAttempts interval taskType Hid Hdb);
    try done; try lia.
  intros i Hi. apply Hpend. lia.
Qed.

End PollingFacts.

(* ===================================================================== *)
(** * Waiting for a song                                                  *)
(* ===================================================================== *)

Section SongWaitFacts.
Import KaraokeService.
Local Opaque String.append.

Lemma poll_thrown env left taskId maxAttempts interval attempts w e w1 :
  taskId <> "" ->
  cachedApiCall env Suno "GET" (status_endpoint "audio")
    (JObj [("taskId", JStr taskId)])
    (force_disableCache (force_disableCache no_options))
    (set_console (console w ++ [polling_line taskId maxAttempts attempts]) w)
  = (Thrown e, w1) ->
  poll env left taskId maxAttempts interval attempts w = (Thrown e, w1).
Proof.
  intros Hid Hpoll.
  assert (Hcall : getTaskDetails env taskId (force_disableCache no_options)
                  = cachedApiCall env Suno "GET" (status_endpoint "audio")
                      (JObj [("taskId", JStr taskId)])
                      (force_disableCache (force_disableCache no_options)))
    by exact (status_poll env "audio" taskId Hid).
  destruct left; cbn [poll]; rewrite Hcall;
    unfold bind at 1; unfold console_put at 1, modify at 1; cbn [fst snd];
    unfold bind at 1; unfold polling_line in Hpoll; by rewrite Hpoll.
Qed.

Lemma poll_answered_step env left taskId maxAttempts interval attempts w
    taskDetails w1 :
  taskId <> "" ->
  cachedApiCall env Suno "GET" (status_endpoint "audio")
    (JObj [("taskId", JStr taskId)])
    (force_disableCache (force_disableCache no_options))
    (set_console (console w ++ [polling_line taskId maxAttempts attempts]) w)
  = (Returned taskDetails, w1) ->
  poll env left taskId maxAttempts interval attempts w
  = if is_string (polled_status taskDetails) "SUCCESS" then
      (Returned taskDetails,
       set_console
         (console w1 ++ [(Log, "Song generation success for task: " +:+ taskId)])
         w1)
    else
      match verdict (polled_status taskDetails) with
      | None =>
          (Thrown (mkError (includes_error "status" (polled_status taskDetails))),
           w1)
      | Some true =>
          (Thrown (mkError ("Song generation failed with status: "
                              +:+ to_string (polled_status taskDetails))), w1)
      | Some false =>
          if maxAttempts <=? attempts + 1 then
            (Thrown (mkError (song_not_complete maxAttempts)), w1)
          else
            match left with
            | O =>
                (Thrown (mkError (song_not_complete maxAttempts)),
                 set_clock (clock w1 + timer_delay interval) w1)
            | S left' =>
                poll env left' taskId maxAttempts interval (attempts + 1)
                  (set_clock (clock w1 + timer_delay interval) w1)
            end
      end.
Proof.
  intros Hid Hpoll.
  assert (Hcall : getTaskDetails env taskId (force_disableCache no_options)
                  = cachedApiCall env Suno "GET" (status_endpoint "audio")
                      (JObj [("taskId", JStr taskId)])
                      (force_disableCache (force_disableCache no_options)))
    by exact (status_poll env "audio" taskId Hid).
  unfold polling_line in Hpoll.
  destruct left as [| left']; cbn [poll]; rewrite Hcall;
    unfold bind at 1; unfold console_put at 1, modify at 1; cbn [fst snd];
    unfold bind at 1; rewrite Hpoll; cbv zeta;
    fold (polled_status taskDetails);
    (destruct (is_string (polled_status taskDetails) "SUCCESS");
     [reflexivity |]);
    unfold verdict, status_includes, bind;
    (destruct (includes_method (polled_status taskDetails) "FAILED")
       as [[|] |]; cbn; try reflexivity);
    (destruct (includes_method (polled_status taskDetails) "ERROR")
       as [[|] |]; cbn; try reflexivity);
    destruct (maxAttempts <=? attempts + 1); reflexivity.
Qed.

(** The polls of a wait, whatever the upstream and the database do: at
    least one, and no more than the counter allows. *)
Lemma poll_bounded env taskId maxAttempts interval :
  taskId <> "" ->
  forall left attempts w,
    exists n,
      (1 <= n <= S (Z.to_nat (maxAttempts - attempts - 1)))%nat
      /\ requests (snd (poll env left taskId maxAttempts interval attempts w))
         = requests w ++ replicate n (status_request env "audio" taskId).
Proof.
  intros Hid left.
  induction left as [| left IH]; intros attempts w.
  - pose proof (poll_sends env "audio" taskId
                  (set_console
                     (console w ++ [polling_line taskId maxAttempts attempts]) w))
      as Hreq.
    destruct (cachedApiCall env Suno "GET" (status_endpoint "audio") _ _ _)
      as [[taskDetails | e] w1] eqn:E; cbn [snd] in Hreq.
    + rewrite (poll_answered_step _ _ _ _ _ _ _ _ _ Hid E).
      exists 1%nat. split; [lia |].
      destruct (is_string _ _); [exact Hreq |].
      destruct (verdict _) as [[|] |]; try exact Hreq.
      destruct (maxAttempts <=? attempts + 1); exact Hreq.
    + rewrite (poll_thrown _ _ _ _ _ _ _ _ _ Hid E).
      exists 1%nat. split; [lia | exact Hreq].
  - pose proof (poll_sends env "audio" taskId
                  (set_console
                     (console w ++ [polling_line taskId maxAttempts attempts]) w))
      as Hreq.
    destruct (cachedApiCall env Suno "GET" (status_endpoint "audio") _ _ _)
      as [[taskDetails | e] w1] eqn:E; cbn [snd] in Hreq.
    + rewrite (poll_answered_step _ _ _ _ _ _ _ _ _ Hid E).
      destruct (is_string _ _);
        [exists 1%nat; split; [lia | exact Hreq] |].
      destruct (verdict _) as [[|] |];
        try (exists 1%nat; split; [lia | exact Hreq]).
      destruct (maxAttempts <=? attempts + 1) eqn:Hcap;
        [exists 1%nat; split; [lia | exact Hreq] |].
      apply Z.leb_gt in Hcap.
      destruct (IH (attempts + 1)
                  (set_clock (clock w1 + timer_delay interval) w1))
        as (n & Hn & Hreqs).
      exists (S n). split; [lia |].
      rewrite Hreqs. cbn [requests set_clock] in *. rewrite Hreq.
      by rewrite <- app_assoc.
    + rewrite (poll_thrown _ _ _ _ _ _ _ _ _ Hid E).
      exists 1%nat. split; [lia | exact Hreq].
Qed.

Lemma keeps_poll {B} (f : World -> B) env taskId maxAttempts interval :
  ignores f set_console -> ignores f set_db_ops -> ignores f set_clock ->
  ignores f set_requests -> ignores f set_apiLimits -> ignores f set_apiCalls ->
  forall left attempts,
    keeps f (poll env left taskId maxAttempts interval attempts).
Proof.
  intros Hc Hd Hk Hr Hl Ha left.
  induction left as [| left IH]; intros attempts; cbn [poll];
    unfold status_includes, sleep;
    repeat first
      [ apply keeps_getTaskDetails; assumption
      | apply keeps_console_put; assumption
      | apply keeps_modify; intros ?; apply Hk
      | apply IH
      | frame_step ].
Qed.

(** X8.  Waiting for a song is bounded and read-only on the song table.
    For a task id that is not empty, and whatever the upstream and the
    database do, [waitForSongCompletion] sends the status request at
    least once and at most [max 1 maxAttempts] times, sends nothing else,
    and leaves the song and audio-file tables as they were: a song is
    never marked completed by waiting for it. *)
Theorem song_wait_is_bounded env taskId maxAttempts interval w :
  taskId <> "" ->
  let run :=
    waitForSongCompletion env taskId (Some maxAttempts) (Some interval) w in
  (exists n,
     (1 <= n <= Z.to_nat (Z.max 1 maxAttempts))%nat
     /\ requests (snd run)
        = requests w ++ replicate n (status_request env "audio" taskId))
  /\ songs (snd run) = songs w
  /\ audioFiles (snd run) = audioFiles w.
Proof.
  intros Hid. cbv zeta. split; [| split].
  - unfold waitForSongCompletion.
    change (default 60 (Some maxAttempts)) with maxAttempts.
    change (default 5000 (Some interval)) with interval. cbv zeta.
    unfold try_catch, bind, console_put, modify, property, ret, throw.
    cbn [fst snd].
    set (w0 := set_console _ w).
    destruct (poll_bounded env taskId maxAttempts interval Hid
                (Z.to_nat maxAttempts) 0 w0) as (n & Hn & Hreqs).
    exists n. split; [lia |].
    change (requests w) with (requests w0).
    destruct (poll env (Z.to_nat maxAttempts) taskId maxAttempts interval 0 w0)
      as [[completedTask | e] w1]; cbn [fst snd] in *; [| exact Hreqs].
    rewrite <- Hreqs.
    destruct (get completedTask "data") as [data |]; cbn; [| done].
    destruct (get data "status"); cbn; done.
  - revert w.
    change (keeps songs
              (waitForSongCompletion env taskId (Some maxAttempts)
                 (Some interval))).
    unfold waitForSongCompletion.
    repeat first [ apply keeps_poll; ignore_field | frame_step ].
  - revert w.
    change (keeps audioFiles
              (waitForSongCompletion env taskId (Some maxAttempts)
                 (Some interval))).
    unfold waitForSongCompletion.
    repeat first [ apply keeps_poll; ignore_field | frame_step ].
Qed.

(** X9.  A failure reported by the upstream ends the wait at once.  When
    the first poll is answered with a status that contains FAILED or
    ERROR, the wait sends no further request and throws an error that
    carries the status, which is not the error of a wait that ran out of
    attempts. *)
Theorem song_wait_stops_at_failure env taskId maxAttempts interval w dt reply :
  taskId <> "" ->
  healthy env ->
  axios env (length (requests w)) (status_request env "audio" taskId)
    = (dt, inr reply) ->
  song_failed (snd reply) ->
  let run :=
    waitForSongCompletion env taskId (Some maxAttempts) (Some interval) w in
  fst run
  = Thrown (mkError ("Error waiting for song completion: "
                       +:+ ("Song generation failed with status: "
                              +:+ to_string (polled_status (snd reply)))))
  /\ requests (snd run) = requests w ++ [status_request env "audio" taskId]
  /\ fst run
     <> Thrown (mkError ("Error waiting for song completion: "
                           +:+ song_not_complete maxAttempts)).
Proof.
  intros Hid Hdb Hreply [Hns Hfail]. cbv zeta.
  set (w0 := set_console
               (console w ++ [(Log, "Waiting for song completion: " +:+ taskId)])
               w).
  set (w0' := set_console
                (console w0 ++ [polling_line taskId maxAttempts 0]) w0).
  destruct (poll_answered env "audio" taskId w0' dt reply Hdb Hreply)
    as (w1 & Hrun & Hreq & _).
  assert (Hv : verdict (polled_status (snd reply)) = Some true).
  { unfold verdict. destruct Hfail as [-> | [-> ->]]; reflexivity. }
  set (msg := "Song generation failed with status: "
                +:+ to_string (polled_status (snd reply))).
  assert (E : waitForSongCompletion env taskId (Some maxAttempts)
                (Some interval) w
              = (Thrown (mkError ("Error waiting for song completion: " +:+ msg)),
                 set_console
                   (console w1
                      ++ [(Error, "Error waiting for song completion: " +:+ msg)])
                   w1)).
  { unfold waitForSongCompletion.
    change (default 60 (Some maxAttempts)) with maxAttempts.
    change (default 5000 (Some interval)) with interval. cbv zeta.
    unfold try_catch. unfold bind at 1.
    unfold console_put at 1, modify at 1. cbn [fst snd]. fold w0.
    unfold bind at 1.
    rewrite (poll_answered_step _ _ _ _ _ _ _ _ _ Hid Hrun).
    rewrite Hns, Hv. reflexivity. }
  rewrite E. cbn [fst snd requests set_console].
  split; [reflexivity |]. split; [exact Hreq |].
  intros Heq.
  apply (f_equal (fun o : Outcome StatusResult =>
                    match o with
                    | Thrown e => String.get 41 (message e)
                    | Returned _ => None
                    end)) in Heq.
  unfold song_not_complete, msg in Heq.
  vm_compute in Heq. discriminate Heq.
Qed.

End SongWaitFacts.

(* ===================================================================== *)
(** * Callbacks for a known task                                          *)
(* ===================================================================== *)

Section KnownTaskFacts.
Import KaraokeService.
Variable env : Env.
Local Opaque String.append.

(** X10.  A callback without a body or without a [data] field is refused
    by both handlers before anything is downloaded or looked up: the
    handler throws the error that names the missing field, and the world
    is as it was but for the console. *)
Theorem invalid_callback_is_refused cb w :
  callback_invalid cb = true ->
  (fst (handleSunoCallback env cb w)
   = Thrown (mkError ("Error handling Suno callback: " +:+ invalid_callback))
   /\ exists lines,
        snd (handleSunoCallback env cb w) = set_console (console w ++ lines) w)
  /\ (fst (handleSunoCallbackLyrics env cb w)
      = Thrown (mkError ("Error handling Suno lyrics callback: "
                           +:+ invalid_callback))
      /\ exists lines,
           snd (handleSunoCallbackLyrics env cb w)
           = set_console (console w ++ lines) w).
Proof.
  intros Hbad. split.
  - unfold handleSunoCallback, try_catch, bind, console_put, modify, throw.
    rewrite Hbad. cbn. split; [reflexivity |].
    eexists [_; _]. unfold set_console. cbn. by rewrite <- app_assoc.
  - unfold handleSunoCallbackLyrics, try_catch, bind, console_put, modify, throw.
    rewrite Hbad. cbn. split; [reflexivity |].
    eexists [_; _]. unfold set_console. cbn. by rewrite <- app_assoc.
Qed.

(** The outcome of the audio handler on a body it refuses. *)
Lemma refused_callback_outcome cb w :
  callback_invalid cb = true ->
  fst (handleSunoCallback env cb w)
  = Thrown (mkError ("Error handling Suno callback: " +:+ invalid_callback)).
Proof.
  intros Hbad.
  unfold handleSunoCallback, try_catch, bind, console_put, modify, throw.
  by rewrite Hbad.
Qed.

(** The run of the audio handler around its download step. *)
Lemma handleSunoCallback_run cb w :
  callback_invalid cb = false ->
  handleSunoCallback env cb w
  = match
      downloadAndSaveSongFromCallback env cb
        (snd ((console_put Log "Received Suno callback" ;;;
               console_put Log "Downloading song files from callback...")%js w))
    with
    | (Returned files, w1) =>
        match reconcile env cb files w1 with
        | (Returned a, w') => (Returned a, w')
        | (Thrown e, w') =>
            (Thrown (mkError ("Error handling Suno callback: " +:+ message e)),
             set_console
               (console w'
                  ++ [(Error, "Error handling Suno callback: " +:+ message e)])
               w')
        end
    | (Thrown e, w1) =>
        (Thrown (mkError ("Error handling Suno callback: " +:+ message e)),
         set_console
           (console w1
              ++ [(Error, "Error handling Suno callback: " +:+ message e)]) w1)
    end.
Proof.
  intros Hvalid. unfold handleSunoCallback, try_catch. rewrite Hvalid.
  unfold bind, console_put, modify, throw. cbn [fst snd].
  destruct (downloadAndSaveSongFromCallback env cb _) as [[files | e] w1];
    [| reflexivity].
  by destruct (reconcile env cb files w1) as [[r | e] w2].
Qed.

(** X11.  The files are downloaded before the song is looked up, so a
    download step that fails (a callback without a track list, a file
    that cannot be fetched or stored) fails the whole callback: the
    handler throws the error of the download, and after the download
    step it only prints one console line: the song is not looked up, and
    the song and audio file tables are as they were before the callback,
    also for a callback of type "complete" for a known task. *)
Theorem failed_download_leaves_song_as_it_was cb w e w1 :
  callback_invalid cb = false ->
  downloadAndSaveSongFromCallback env cb
    (snd ((console_put Log "Received Suno callback" ;;;
           console_put Log "Downloading song files from callback...")%js w))
  = (Thrown e, w1) ->
  let run := handleSunoCallback env cb w in
  fst run = Thrown (mkError ("Error handling Suno callback: " +:+ message e))
  /\ snd run
     = set_console
         (console w1
            ++ [(Error, "Error handling Suno callback: " +:+ message e)]) w1
  /\ db_ops (snd run) = db_ops w1
  /\ songs (snd run) = songs w
  /\ audioFiles (snd run) = audioFiles w.
Proof.
  intros Hvalid Hdl. cbv zeta.
  rewrite (handleSunoCallback_run cb w Hvalid), Hdl. cbn [fst snd].
  split; [reflexivity |]. split; [reflexivity |]. split; [reflexivity |].
  pose proof (keeps_download
                (fun w => (songs w, audioFiles w))
                ltac:(ignore_field) ltac:(ignore_field) ltac:(ignore_field)
                ltac:(ignore_field) env ltac:(ignore_field)
                ltac:(ignore_field) cb
                (snd ((console_put Log "Received Suno callback" ;;;
                       console_put Log
                         "Downloading song files from callback...")%js w)))
    as Hk.
  rewrite Hdl in Hk. cbn in Hk. by simplify_eq.
Qed.



Lemma find_song_in task (l : list Song) sg :
  find_song_by_task task l = Some sg ->
  existsb (fun s => song_id s =? song_id sg) l = true.
Proof.
  unfold find_song_by_task. induction l as [| s l IH]; cbn; [done |].
  destruct (bool_decide _).
  - intros [= ->]. by rewrite Z.eqb_refl.
  - intros H. rewrite (IH H). by rewrite orb_true_r.
Qed.


(** X13.  The lyrics callback for a known task replaces the lyrics and
    nothing else: on a healthy database, when the callback carries a text,
    the handler returns success; a text that is not empty becomes the
    lyrics of the song of the task and stamps its update time, while the
    status, title, task id and completion time of the song and every other
    song stay as they were; an empty text changes nothing.  No audio file
    row is written. *)
Theorem lyrics_callback_replaces_lyrics_only cb w task sg text :
  healthy env ->
  callback_invalid cb = false ->
  callback_task cb = JStr task ->
  find_song_by_task task (songs w) = Some sg ->
  get_opt (get_opt cb "data") "lyrics" = JStr text ->
  let run := handleSunoCallbackLyrics env cb w in
  fst run
  = Returned {| lr_status := "success";
                lr_taskId := JStr task;
                lr_callbackType := callback_type cb "lyrics";
                lr_message := "Lyrics callback processed successfully" |}
  /\ audioFiles (snd run) = audioFiles w
  /\ (if String.eqb text "" then songs (snd run) = songs w
      else
        Forall2
          (fun r r' =>
             if song_id r =? song_id sg
             then lyrics_replaced text (clock w) r r' else r' = r)
          (songs w) (songs (snd run))).
Proof.
  intros Hdb Hvalid Htask Hsong Hlyrics. cbv zeta.
  assert (E : handleSunoCallbackLyrics env cb w
              = (Returned
                   {| lr_status := "success";
                      lr_taskId := JStr task;
                      lr_callbackType := callback_type cb "lyrics";
                      lr_message := "Lyrics callback processed successfully" |},
                 if String.eqb text "" then
                   set_db_ops (S (db_ops w))
                     (set_console (console w ++ [(Log, "LYRICS CALLBACK DEBUG")])
                        w)
                 else
                   set_songs
                     (map (fun s =>
                             if song_id s =? song_id sg
                             then with_lyrics text (clock w) s
                             else s) (songs w))
                     (set_db_ops (S (S (db_ops w)))
                        (set_console
                           (console w
                              ++ [(Log, "LYRICS CALLBACK DEBUG");
                                  (Log, "Updating song with improved lyrics from callback...")])
                           w)))).
  { unfold handleSunoCallbackLyrics, try_catch. cbv zeta.
    rewrite Hvalid, Htask, Hlyrics.
    unfold bind at 1. unfold console_put at 1, modify at 1. cbn [fst snd].
    unfold bind at 1. unfold bind at 1. rewrite song_findUnique_run.
    cbn [db_ops set_console songs]. rewrite Hdb, Hsong.
    cbn [truthy]. destruct (String.eqb text ""); cbn [negb].
    - reflexivity.
    - unfold bind at 1. unfold console_put at 1, modify at 1. cbn [fst snd].
      unfold bind at 1, Date_now, gets. cbn [fst snd].
      unfold song_update. unfold bind at 1, db_access.
      cbn [db_ops set_console set_db_ops]. rewrite Hdb. cbn [fst snd].
      unfold bind at 1, gets. cbn [fst snd songs set_db_ops set_console].
      rewrite (find_song_in task (songs w) sg Hsong).
      unfold modify, ret. cbn. unfold set_songs, set_console, set_db_ops. cbn.
      by rewrite <- app_assoc. }
  rewrite E. cbn [fst snd]. split; [reflexivity |].
  destruct (String.eqb text ""); cbn; [done |]. split; [done |].
  clear E Hsong. generalize (clock w). intros now.
  induction (songs w) as [| s l IH]; cbn; [constructor |].
  constructor; [| exact IH].
  destruct (song_id s =? song_id sg); [| reflexivity].
  by repeat split.
Qed.

End KnownTaskFacts.

(* ===================================================================== *)
(** * Storing the song of a submission                                    *)
(* ===================================================================== *)

Section StoreFacts.
Import KaraokeService.
Variable env : Env.
Local Opaque String.append.

Lemma next_id_fresh {A} (id : A -> Z) (l : list A) :
  Forall (fun x => id x < next_id id l) l.
Proof.
  unfold next_id. induction l as [| x l IH]; cbn; constructor; [lia |].
  eapply Forall_impl; [exact IH |]. cbn. intros y Hy. lia.
Qed.

Lemma find_snoc {A} (p : A -> bool) (l : list A) (x : A) :
  find p (l ++ [x])
  = match find p l with
    | Some y => Some y
    | None => if p x then Some x else None
    end.
Proof.
  induction l as [| y l IH]; cbn; [done |]. by destruct (p y).
Qed.

(** The run of [#findOrCreateRepoId] on a healthy database. *)
Lemma findOrCreateRepoId_run owner repo url w :
  healthy env ->
  let full_name := owner +:+ "/" +:+ repo in
  let known r := String.eqb (repo_full_name r) full_name in
  exists id w1,
    findOrCreateRepoId env owner repo url w = (Returned id, w1)
    /\ songs w1 = songs w
    /\ clock w1 = clock w
    /\ (exists r, find known (repositories w1) = Some r /\ repo_id r = id)
    /\ match find known (repositories w) with
       | Some _ => repositories w1 = repositories w
       | None =>
           exists row,
             repositories w1 = repositories w ++ [row]
             /\ repo_id row = id
             /\ repo_owner row = owner /\ repo_name row = repo
             /\ repo_full_name row = full_name /\ repo_url row = url
             /\ Forall (fun r => repo_id r < id) (repositories w)
       end.
Proof.
  intros Hdb. cbv zeta.
  unfold findOrCreateRepoId, repository_findUnique. cbv zeta.
  unfold bind at 1. unfold bind at 1, db_access. rewrite Hdb.
  unfold gets at 1. cbn [fst snd repositories set_db_ops].
  destruct (find _ (repositories w)) as [r |] eqn:Hfind.
  - eexists _, _. split; [reflexivity |]. cbn. rewrite Hfind.
    repeat split; eauto.
  - unfold repository_create, bind, db_access, Date_now, gets, modify,
      console_put, ret.
    cbn [db_ops set_db_ops]. rewrite Hdb. cbn.
    eexists _, _. split; [reflexivity |]. cbn.
    split; [done |]. split; [done |]. split.
    + eexists. rewrite find_snoc, Hfind. cbn.
      rewrite String.eqb_refl. done.
    + eexists. split; [reflexivity |]. cbn.
      repeat split; try done. apply next_id_fresh.
Qed.

(** X14.  The repository of a song is found or created once.  On a
    healthy database [#findOrCreateRepoId] returns the id of the row that
    the table holds under the full name [owner/repo] after the call.
    That is the row that was there, and then the table is as it was; or,
    when there was none, a new row with the owner, name and URL of the
    call, appended with an id larger than every id in the table.  A
    second call for the same owner and repository returns the same id
    and adds no row, whatever URL it is given. *)
Theorem repository_is_created_once owner repo url url2 w :
  healthy env ->
  let known r := String.eqb (repo_full_name r) (owner +:+ "/" +:+ repo) in
  let run1 := findOrCreateRepoId env owner repo url w in
  exists id row,
    fst run1 = Returned id
    /\ find known (repositories (snd run1)) = Some row
    /\ repo_id row = id
    /\ match find known (repositories w) with
       | Some old => row = old /\ repositories (snd run1) = repositories w
       | None =>
           repositories (snd run1) = repositories w ++ [row]
           /\ repo_owner row = owner /\ repo_name row = repo
           /\ repo_url row = url
           /\ Forall (fun r => repo_id r < id) (repositories w)
       end
    /\ forall w2,
         repositories w2 = repositories (snd run1) ->
         let run2 := findOrCreateRepoId env owner repo url2 w2 in
         fst run2 = Returned id
         /\ repositories (snd run2) = repositories w2.
Proof.
  intros Hdb. cbv zeta.
  destruct (findOrCreateRepoId_run owner repo url w Hdb)
    as (id & w1 & Hrun & _ & _ & (r & Hfound & Hid) & Hrows).
  cbv zeta in Hfound, Hrows.
  rewrite Hrun. cbn [fst snd]. exists id, r.
  split; [done |]. split; [exact Hfound |]. split; [exact Hid |]. split.
  { destruct (find _ (repositories w)) as [old |] eqn:Hold.
    - rewrite Hrows, Hold in Hfound. by simplify_eq.
    - destruct Hrows as (row & Happ & ? & ? & ? & Hfull & ? & ?).
      rewrite Happ, find_snoc, Hold in Hfound.
      rewrite Hfull, String.eqb_refl in Hfound. by simplify_eq. }
  intros w2 Hw2.
  destruct (findOrCreateRepoId_run owner repo url2 w2 Hdb)
    as (id2 & w3 & Hrun2 & _ & _ & (r2 & Hfound2 & Hid2) & Hrows2).
  cbv zeta in Hfound2, Hrows2.
  rewrite Hrun2. cbn [fst snd]. rewrite Hw2, Hfound in Hrows2.
  rewrite Hrows2, Hfound in Hfound2. simplify_eq.
  split; [done | by rewrite Hw2].
Qed.


(** The run of the storing step on a healthy database: the song row is
    appended unless the task id is taken. *)
Lemma store_song_run owner repo repoUrl musicStyle instrumental songLyrics
    songTitle commitSummary task cover w :
  healthy env ->
  get_opt (att_metas cover) "location" = JStr (att_url cover) ->
  exists w',
    store_song env owner repo repoUrl musicStyle instrumental songLyrics
      songTitle commitSummary (JStr task) cover w
    = (match find_song_by_task task (songs w) with
       | Some _ =>
           Thrown (mkError
             "Unique constraint failed on the fields: (`suno_task_id`)")
       | None =>
           Returned {| sg_status := "success";
                       sg_owner := owner; sg_repo := repo; sg_url := repoUrl;
                       sg_total := cs_commitCount commitSummary;
                       sg_title := songTitle; sg_lyrics := songLyrics;
                       sg_taskId := JStr task;
                       sg_instrumental := instrumental |}
       end, w')
    /\ match find_song_by_task task (songs w) with
       | Some _ => songs w' = songs w
       | None =>
           exists row repoRow,
             songs w' = songs w ++ [row]
             /\ song_status row = "pending"
             /\ song_suno_task_id row = Some task
             /\ song_title row = songTitle
             /\ song_lyrics row = songLyrics
             /\ song_style row = Some musicStyle
             /\ song_instrumental row = instrumental
             /\ song_cover_image_url row = att_location cover
             /\ song_commit_count row = cs_commitCount commitSummary
             /\ song_created_at row = clock w
             /\ song_completed_at row = None
             /\ Forall (fun s => song_id s < song_id row) (songs w)
             /\ find (fun r => String.eqb (repo_full_name r)
                                 (owner +:+ "/" +:+ repo))
                  (repositories w') = Some repoRow
             /\ song_repository_id row = repo_id repoRow
       end.
Proof.
  intros Hdb Hloc. unfold store_song.
  unfold bind at 1. unfold console_put at 1, modify at 1. cbn [fst snd].
  set (w0 := set_console _ w).
  destruct (findOrCreateRepoId_run owner repo repoUrl w0 Hdb)
    as (id & w1 & Hrun & Hs & Hc & (r & Hfound & Hid) & _).
  unfold bind at 1. rewrite Hrun.
  unfold bind at 1, Date_now. unfold gets at 1. cbn [fst snd].
  unfold bind at 1. unfold song_create.
  assert (Hvalid : cover_location cover = JNull
                   \/ exists l, cover_location cover = JStr l).
  { unfold cover_location, or_else. rewrite Hloc.
    destruct (truthy _); eauto. }
  assert (E : forall A (a b : A),
            match cover_location cover with
            | JStr _ | JNull => a
            | _ => b
            end = a).
  { intros A a b. by destruct Hvalid as [-> | [l ->]]. }
  rewrite E. clear E Hvalid.
  unfold bind at 1, db_access.
  rewrite Hdb. cbn [fst snd].
  unfold bind at 1. unfold gets at 1. cbn [fst snd songs set_db_ops].
  rewrite Hs. change (songs w0) with (songs w).
  destruct (find_song_by_task task (songs w)) as [taken |].
  - eexists. split; [reflexivity |]. cbn. exact Hs.
  - unfold bind, gets, modify, console_put, ret. cbn.
    eexists. split; [reflexivity |]. cbn.
    eexists _, r. rewrite Hs. change (songs w0) with (songs w).
    split; [reflexivity |]. cbn.
    repeat split; try done. apply next_id_fresh.
Qed.

(** X15.  A reply of the music service without a task id stops the run
    before the cover image: the run throws the error that names what is
    missing inside the pipeline error, no further request is sent,
    nothing is uploaded, the database is not touched again, and no song or
    repository row is written. *)
Theorem missing_task_id_stops_the_run owner repo repoUrl musicStyle
    instrumental callbackUrl songLyrics songTitle commitSummary w resp w1 :
  submit_to_suno env musicStyle instrumental callbackUrl songLyrics songTitle
    (snd (console_put Log "Generating final audio with Suno API" w))
  = (Returned resp, w1) ->
  task_of resp = None ->
  let run := generateSongFromRepo_submit env owner repo repoUrl musicStyle
               instrumental callbackUrl songLyrics songTitle commitSummary w in
  fst run
  = Thrown (mkError ("Error generating song from repository: "
                       +:+ no_task_message resp))
  /\ requests (snd run) = requests w1
  /\ db_ops (snd run) = db_ops w1
  /\ uploads (snd run) = uploads w
  /\ songs (snd run) = songs w
  /\ repositories (snd run) = repositories w.
Proof.
  intros Hsubmit Htask.
  assert (Hrun : exists lines,
    generateSongFromRepo_submit env owner repo repoUrl musicStyle instrumental
      callbackUrl songLyrics songTitle commitSummary w
    = (Thrown (mkError ("Error generating song from repository: "
                          +:+ no_task_message resp)),
       set_console (console w1 ++ lines) w1)).
  { unfold generateSongFromRepo_submit, try_catch.
    unfold bind at 1. unfold bind at 1.
    destruct (console_put Log "Generating final audio with Suno API" w)
      as [[[] | ?] w0] eqn:Hw0; [| done].
    cbn [snd] in Hsubmit. rewrite Hsubmit.
    unfold task_of in Htask. unfold no_task_message.
    destruct (negb (truthy resp) || negb (truthy (get_opt resp "data"))).
    - unfold bind, console_put, modify, throw. cbn.
      eexists [_; _]. by rewrite <- app_assoc.
    - destruct (truthy (get_opt (get_opt resp "data") "taskId")); [done |].
      unfold bind, console_put, modify, throw. cbn.
      eexists [_; _]. by rewrite <- app_assoc. }
  destruct Hrun as [lines Hrun]. cbv zeta. rewrite Hrun. cbn [fst snd].
  pose proof (keeps_submit_to_suno env
                (fun w => (uploads w, songs w, repositories w))
                musicStyle instrumental callbackUrl songLyrics songTitle
                ltac:(ignore_field) ltac:(ignore_field) ltac:(ignore_field)
                ltac:(ignore_field) ltac:(ignore_field) ltac:(ignore_field)
                (snd (console_put Log "Generating final audio with Suno API" w)))
    as Hkeep.
  rewrite Hsubmit in Hkeep. cbn in Hkeep.
  repeat split; try done; cbn; by simplify_eq.
Qed.

(** X16.  A submission that goes through.  On a healthy database, when
    the music service returned a task id that has no song yet and the
    cover image step returned its attachment, the run returns success
    with the task id and appends one song row: status "pending", the task
    id, title, lyrics and style of the run, the location of the cover
    image, no completion time, an id above every id in the table, and the
    id of the repository row of [owner/repo]. *)
Theorem submission_stores_a_pending_song owner repo repoUrl musicStyle
    instrumental callbackUrl songLyrics songTitle commitSummary w resp w1 task
    cover w2 :
  healthy env ->
  submit_to_suno env musicStyle instrumental callbackUrl songLyrics songTitle
    (snd (console_put Log "Generating final audio with Suno API" w))
  = (Returned resp, w1) ->
  task_of resp = Some (JStr task) ->
  cover_step env songTitle musicStyle
    (snd (console_put Log
            ("Song generation task initiated with ID: " +:+ task) w1))
  = (Returned cover, w2) ->
  find_song_by_task task (songs w) = None ->
  let run := generateSongFromRepo_submit env owner repo repoUrl musicStyle
               instrumental callbackUrl songLyrics songTitle commitSummary w in
  fst run
  = Returned {| sg_status := "success";
                sg_owner := owner; sg_repo := repo; sg_url := repoUrl;
                sg_total := cs_commitCount commitSummary;
                sg_title := songTitle; sg_lyrics := songLyrics;
                sg_taskId := JStr task;
                sg_instrumental := instrumental |}
  /\ exists row repoRow,
       songs (snd run) = songs w ++ [row]
       /\ song_status row = "pending"
       /\ song_suno_task_id row = Some task
       /\ song_title row = songTitle
       /\ song_lyrics row = songLyrics
       /\ song_style row = Some musicStyle
       /\ song_cover_image_url row = att_location cover
       /\ song_completed_at row = None
       /\ Forall (fun s => song_id s < song_id row) (songs w)
       /\ find (fun r => String.eqb (repo_full_name r)
                           (owner +:+ "/" +:+ repo))
            (repositories (snd run)) = Some repoRow
       /\ song_repository_id row = repo_id repoRow.
Proof.
  intros Hdb Hsubmit Htask Hcover Hfree.
  assert (Hloc : get_opt (att_metas cover) "location" = JStr (att_url cover)).
  { revert Hcover. unfold cover_step. intros Hcover.
    apply try_rethrow_returned in Hcover;
      [| intros e0 w0; unfold bind, console_put, modify, throw; cbn; eauto].
    by apply cover_image_location in Hcover. }
  destruct (store_song_run owner repo repoUrl musicStyle instrumental
              songLyrics songTitle commitSummary task cover w2 Hdb Hloc)
    as (w3 & Hstore & Hrows).
  assert (Hs : songs w2 = songs w).
  { pose proof (keeps_submit_to_suno env songs
                  musicStyle instrumental callbackUrl songLyrics songTitle
                  ltac:(ignore_field) ltac:(ignore_field) ltac:(ignore_field)
                  ltac:(ignore_field) ltac:(ignore_field) ltac:(ignore_field)
                  (snd (console_put Log "Generating final audio with Suno API"
                          w)))
      as Hk1.
    rewrite Hsubmit in Hk1. cbn in Hk1.
    assert (Hk2 : keeps songs (cover_step env songTitle musicStyle)).
    { unfold cover_step.
      repeat first [ apply keeps_generateCoverImage; ignore_field
                   | frame_step ]. }
    specialize (Hk2 (snd (console_put Log
                            ("Song generation task initiated with ID: "
                               +:+ task) w1))).
    rewrite Hcover in Hk2. cbn in Hk2. congruence. }
  rewrite Hs, Hfree in Hstore, Hrows.
  assert (Hrun :
    generateSongFromRepo_submit env owner repo repoUrl musicStyle instrumental
      callbackUrl songLyrics songTitle commitSummary w
    = (Returned {| sg_status := "success";
                   sg_owner := owner; sg_repo := repo; sg_url := repoUrl;
                   sg_total := cs_commitCount commitSummary;
                   sg_title := songTitle; sg_lyrics := songLyrics;
                   sg_taskId := JStr task;
                   sg_instrumental := instrumental |}, w3)).
  { unfold generateSongFromRepo_submit, try_catch.
    unfold bind at 1. unfold bind at 1.
    destruct (console_put Log "Generating final audio with Suno API" w)
      as [[[] | ?] w0] eqn:Hw0; [| done].
    cbn [snd] in Hsubmit. rewrite Hsubmit.
    unfold task_of in Htask.
    destruct (negb (truthy resp) || negb (truthy (get_opt resp "data")));
      [done |].
    destruct (truthy (get_opt (get_opt resp "data") "taskId")); [| done].
    injection Htask as Htask. rewrite Htask.
    cbn [negb to_string]. unfold bind at 1. unfold bind at 1.
    destruct (console_put Log
                ("Song generation task initiated with ID: " +:+ task) w1)
      as [[[] | ?] w1'] eqn:Hw1; [| done].
    cbn [snd] in Hcover. rewrite Hcover, Hstore. reflexivity. }
  cbv zeta. rewrite Hrun. cbn [fst snd]. split; [reflexivity |].
  destruct Hrows as (row & repoRow & H). exists row, repoRow.
  destruct H as (? & ? & ? & ? & ? & ? & ? & ? & ? & ? & ? & ? & ? & ?).
  by repeat split.
Qed.

(** X17.  One song for each task id.  When the music service returns a
    task id that already has a song (as it does when the submission is
    answered from the cache), the run fails at the storing step with the
    uniqueness error of the task id column inside the pipeline error,
    after the cover image step has run, and the song table is as it
    was. *)
Theorem known_task_id_is_not_stored_twice owner repo repoUrl musicStyle
    instrumental callbackUrl songLyrics songTitle commitSummary w resp w1 task
    cover w2 sg :
  healthy env ->
  submit_to_suno env musicStyle instrumental callbackUrl songLyrics songTitle
    (snd (console_put Log "Generating final audio with Suno API" w))
  = (Returned resp, w1) ->
  task_of resp = Some (JStr task) ->
  cover_step env songTitle musicStyle
    (snd (console_put Log
            ("Song generation task initiated with ID: " +:+ task) w1))
  = (Returned cover, w2) ->
  find_song_by_task task (songs w) = Some sg ->
  let run := generateSongFromRepo_submit env owner repo repoUrl musicStyle
               instrumental callbackUrl songLyrics songTitle commitSummary w in
  fst run
  = Thrown (mkError
      ("Error generating song from repository: "
         +:+ "Unique constraint failed on the fields: (`suno_task_id`)"))
  /\ songs (snd run) = songs w.
Proof.
  intros Hdb Hsubmit Htask Hcover Htaken.
  assert (Hloc : get_opt (att_metas cover) "location" = JStr (att_url cover)).
  { revert Hcover. unfold cover_step. intros Hcover.
    apply try_rethrow_returned in Hcover;
      [| intros e0 w0; unfold bind, console_put, modify, throw; cbn; eauto].
    by apply cover_image_location in Hcover. }
  destruct (store_song_run owner repo repoUrl musicStyle instrumental
              songLyrics songTitle commitSummary task cover w2 Hdb Hloc)
    as (w3 & Hstore & Hrows).
  assert (Hs : songs w2 = songs w).
  { pose proof (keeps_submit_to_suno env songs
                  musicStyle instrumental callbackUrl songLyrics songTitle
                  ltac:(ignore_field) ltac:(ignore_field) ltac:(ignore_field)
                  ltac:(ignore_field) ltac:(ignore_field) ltac:(ignore_field)
                  (snd (console_put Log "Generating final audio with Suno API"
                          w)))
      as Hk1.
    rewrite Hsubmit in Hk1. cbn in Hk1.
    assert (Hk2 : keeps songs (cover_step env songTitle musicStyle)).
    { unfold cover_step.
      repeat first [ apply keeps_generateCoverImage; ignore_field
                   | frame_step ]. }
    specialize (Hk2 (snd (console_put Log
                            ("Song generation task initiated with ID: "
                               +:+ task) w1))).
    rewrite Hcover in Hk2. cbn in Hk2. congruence. }
  rewrite Hs, Htaken in Hstore, Hrows.
  assert (Hrun :
    generateSongFromRepo_submit env owner repo repoUrl musicStyle instrumental
      callbackUrl songLyrics songTitle commitSummary w
    = (Thrown (mkError
         ("Error generating song from repository: "
            +:+ "Unique constraint failed on the fields: (`suno_task_id`)")),
       set_console
         (console w3
            ++ [(Error,
                 "Error generating song from repo: "
                   +:+ "Unique constraint failed on the fields: (`suno_task_id`)")])
         w3)).
  { unfold generateSongFromRepo_submit, try_catch.
    unfold bind at 1. unfold bind at 1.
    destruct (console_put Log "Generating final audio with Suno API" w)
      as [[[] | ?] w0] eqn:Hw0; [| done].
    cbn [snd] in Hsubmit. rewrite Hsubmit.
    unfold task_of in Htask.
    destruct (negb (truthy resp) || negb (truthy (get_opt resp "data")));
      [done |].
    destruct (truthy (get_opt (get_opt resp "data") "taskId")); [| done].
    injection Htask as Htask. rewrite Htask.
    cbn [negb to_string]. unfold bind at 1. unfold bind at 1.
    destruct (console_put Log
                ("Song generation task initiated with ID: " +:+ task) w1)
      as [[[] | ?] w1'] eqn:Hw1; [| done].
    cbn [snd] in Hcover. rewrite Hcover, Hstore. reflexivity. }
  cbv zeta. rewrite Hrun. cbn [fst snd songs set_console].
  split; [reflexivity | by rewrite Hrows].
Qed.

End StoreFacts.

(* ===================================================================== *)
(** * What the trimmer and the chunker do to their text                   *)
(* ===================================================================== *)

Section TrimmerFacts.
Context {C : Type}.
Variable estimateTokens : list (@AIService.Message C) -> Z.
Import AIService.

Lemma slice_from_start (s : list C) (e : Z) :
  Text.slice s 0 e `prefix_of` s.
Proof.
  unfold Text.slice. cbv zeta.
  replace (if 0 <? 0 then _ else Z.min 0 (Z.of_nat (length s))) with 0
    by (cbn; lia).
  change (Z.to_nat 0) with 0%nat. rewrite drop_0. apply prefix_take.
Qed.

Lemma slice_drops_tail (s : list C) (k : Z) :
  0 < k <= Z.of_nat (length s) ->
  length (Text.slice s 0 (- k)) = (length s - Z.to_nat k)%nat.
Proof.
  intros Hk. unfold Text.slice. cbv zeta.
  replace (if 0 <? 0 then _ else Z.min 0 (Z.of_nat (length s))) with 0
    by (cbn; lia).
  destruct (Z.ltb_spec (- k) 0); [| lia].
  change (Z.to_nat 0) with 0%nat. rewrite drop_0, length_take. lia.
Qed.

Lemma trimmed_refl (t : @Trim C) : trimmed_from t t.
Proof. unfold trimmed_from. repeat split; try done; try lia; by left. Qed.

Lemma trimmed_trans (t1 t2 t3 : @Trim C) :
  trimmed_from t1 t2 -> trimmed_from t2 t3 -> trimmed_from t1 t3.
Proof.
  unfold trimmed_from.
  intros (Hs1 & Hh1 & Hp1 & Hfs1 & Hfh1 & Hfp1 & Hos1 & Hop1)
         (Hs2 & Hh2 & Hp2 & Hfs2 & Hfh2 & Hfp2 & Hos2 & Hop2).
  pose proof (prefix_length _ _ Hs2) as Hls.
  pose proof (suffix_length _ _ Hh2) as Hlh.
  split; [by etrans |]. split; [by etrans |]. split; [by etrans |].
  split; [lia |]. split; [lia |]. split; [lia |]. split.
  - destruct Hos1 as [E1 | L1]; [| right; lia].
    destruct Hos2 as [E2 | L2]; [left; congruence | by right].
  - destruct Hop1 as [E1 | [L1 L1']]; [| right; lia].
    destruct Hop2 as [E2 | L2]; [left; congruence | by right].
Qed.

Lemma trimmed_bump (t : @Trim C) : trimmed_from t (bump t).
Proof. exact (trimmed_refl t). Qed.

(** One trimming pass, made while the estimate is over the budget. *)
Lemma trim_once_trims targetTokens (t t' : @Trim C) :
  targetTokens < estimateTokens (messages t) ->
  trim_once estimateTokens targetTokens t = Some t' ->
  trimmed_from t t'.
Proof.
  intros Hover. unfold trim_once. cbv zeta.
  set (over := estimateTokens (messages t) - targetTokens).
  assert (Hchars : 4 <= ceil_half over * approxCharsPerToken).
  { unfold ceil_half, approxCharsPerToken.
    assert (1 <= (over + 1) / 2)
      by (apply Z.div_le_lower_bound; unfold over; lia).
    lia. }
  destruct (Nat.ltb_spec 1 (length (history t))) as [Hh | Hh].
  { intros [= <-]. unfold trimmed_from. cbn [system history prompt].
    destruct (history t) as [| m rest] eqn:E; [cbn in Hh; lia |].
    cbn [tail length] in *. repeat split; try done; try lia; try (by left).
    by apply suffix_cons_r. }
  destruct (Z.ltb_spec 50 (Z.of_nat (length (system t)))) as [Hs | Hs].
  { intros [= <-]. unfold trimmed_from. cbn [system history prompt].
    set (k := Z.min (ceil_half over * approxCharsPerToken)
                (Z.of_nat (length (system t)) - 50)).
    assert (Hk : 0 < k <= Z.of_nat (length (system t)) - 50) by (unfold k; lia).
    rewrite (slice_drops_tail (system t) k) by lia.
    repeat split; try done; try lia; try (by left).
    apply slice_from_start. }
  destruct (Z.ltb_spec 50 (Z.of_nat (length (prompt t)))) as [Hp | Hp];
    [| done].
  intros [= <-]. unfold trimmed_from. cbn [system history prompt].
  set (k := Z.min (ceil_half over * approxCharsPerToken)
              (Z.of_nat (length (prompt t)) - 50)).
  assert (Hk : 0 < k <= Z.of_nat (length (prompt t)) - 50) by (unfold k; lia).
  rewrite (slice_drops_tail (prompt t) k) by lia.
  repeat split; try done; try lia; try (by left).
  apply slice_from_start.
Qed.

Lemma while_loop_trims targetTokens :
  forall left (t : @Trim C),
    trimmed_from t (while_loop estimateTokens left targetTokens t).
Proof.
  induction left as [| left IH]; intros t; cbn [while_loop].
  - destruct (_ <? _); [| apply trimmed_refl]. cbv zeta.
    destruct (_ <? _); apply trimmed_bump.
  - destruct (Z.ltb_spec targetTokens (estimateTokens (messages t)));
      [| apply trimmed_refl].
    cbv zeta. destruct (_ <? _); [apply trimmed_bump |].
    destruct (trim_once _ _ _) as [t2 |] eqn:Hstep; [| apply trimmed_bump].
    eapply trimmed_trans; [| apply IH].
    eapply trimmed_trans; [apply trimmed_bump |].
    eapply trim_once_trims; [| exact Hstep]. by rewrite messages_bump.
Qed.

Lemma while_loop_fits targetTokens left (t : @Trim C) :
  estimateTokens (messages t) <= targetTokens ->
  while_loop estimateTokens left targetTokens t = t.
Proof.
  intros Hfit. destruct left; cbn [while_loop];
    by rewrite (proj2 (Z.ltb_ge _ _) Hfit).
Qed.

(** X18.  The trimmer only cuts, and never below its floors.  The system
    text and the prompt it returns are the input texts cut at their end,
    still at least 50 code units long when the input was; the history it
    returns is the input history without some of its oldest entries, and
    keeps at least one entry of a history that had one. *)
Theorem adjustContent_only_cuts (sys : list C) (hist : list Message)
    (prm : list C) (contextWindow : Z) :
  let t := adjustContent_run estimateTokens sys hist prm contextWindow in
  adjustContent estimateTokens sys hist prm contextWindow
  = (system t, history t, prompt t)
  /\ system t `prefix_of` sys
  /\ history t `suffix_of` hist
  /\ prompt t `prefix_of` prm
  /\ (Nat.min 50 (length sys) <= length (system t))%nat
  /\ (Nat.min 1 (length hist) <= length (history t))%nat
  /\ (Nat.min 50 (length prm) <= length (prompt t))%nat.
Proof.
  cbv zeta. split; [reflexivity |].
  pose proof (while_loop_trims contextWindow (Z.to_nat maxIterations)
                {| iteration := 0; system := sys; history := hist;
                   prompt := prm |}) as H.
  unfold trimmed_from in H. cbn [system history prompt] in H.
  destruct H as (? & ? & ? & ? & ? & ? & _). done.
Qed.

(** X19.  The trimmer cuts in a fixed order and only when it has to.  An
    input whose estimate is within the budget is returned as it is; the
    system text is cut only once the history is down to one entry, and the
    prompt only once the system text is also down to 50 code units. *)
Theorem adjustContent_cuts_in_order (sys : list C) (hist : list Message)
    (prm : list C) (contextWindow : Z) :
  let t := adjustContent_run estimateTokens sys hist prm contextWindow in
  (estimate_of estimateTokens (sys, hist, prm) <= contextWindow ->
   adjustContent estimateTokens sys hist prm contextWindow = (sys, hist, prm))
  /\ (system t <> sys -> (length (history t) <= 1)%nat)
  /\ (prompt t <> prm ->
      (length (history t) <= 1)%nat /\ (length (system t) <= 50)%nat).
Proof.
  cbv zeta. split; [| split].
  - unfold estimate_of, adjustContent, adjustContent_run.
    intros Hfit. by rewrite while_loop_fits.
  - pose proof (while_loop_trims contextWindow (Z.to_nat maxIterations)
                  {| iteration := 0; system := sys; history := hist;
                     prompt := prm |}) as H.
    unfold trimmed_from in H. cbn [system history prompt] in H.
    destruct H as (_ & _ & _ & _ & _ & _ & [E | L] & _); [done | by intros].
  - pose proof (while_loop_trims contextWindow (Z.to_nat maxIterations)
                  {| iteration := 0; system := sys; history := hist;
                     prompt := prm |}) as H.
    unfold trimmed_from in H. cbn [system history prompt] in H.
    destruct H as (_ & _ & _ & _ & _ & _ & _ & [E | L]); [done | by intros].
Qed.

End TrimmerFacts.

Section ChunkerEdges.
Context {C : Type}.
Implicit Types text : list C.

Lemma chunk_loop_stuck text maxChars :
  maxChars <= 0 ->
  forall fuel startIndex chunks,
    startIndex < Z.of_nat (length text) ->
    KaraokeService.chunk_loop fuel text maxChars startIndex chunks = None.
Proof.
  intros Hsize.
  induction fuel as [| fuel IH]; intros startIndex chunks Hlt; cbn.
  - destruct (Z.ltb_spec startIndex (Z.of_nat (length text))); [done | lia].
  - destruct (Z.ltb_spec startIndex (Z.of_nat (length text))); [| lia].
    apply IH. lia.
Qed.

(** X20.  The chunker needs a positive budget.  For a [maxTokens] of 0 or
    less and a text that is not empty the loop makes no progress and the
    call never returns, whatever the number of passes it is given; an
    empty text gives no chunk at once, for every budget. *)
Theorem chunker_needs_a_positive_budget text (maxTokens : Z) fuel :
  (maxTokens <= 0 -> text <> [] ->
   KaraokeService.chunkTextByTokens fuel text (Some maxTokens) = None)
  /\ KaraokeService.chunkTextByTokens fuel (@nil C) (Some maxTokens) = Some [].
Proof.
  split.
  - intros Hm Hne. unfold KaraokeService.chunkTextByTokens. cbv zeta.
    apply chunk_loop_stuck.
    + change (default 3000 (Some maxTokens)) with maxTokens. lia.
    + destruct text; [done | cbn; lia].
  - unfold KaraokeService.chunkTextByTokens. cbv zeta. by destruct fuel.
Qed.

End ChunkerEdges.

(* ===================================================================== *)
(** * The calls of the music service                                      *)
(* ===================================================================== *)

Section SunoCalls.
Variable env : Env.
Local Opaque String.append.

(** [generateAudio] refuses its parameters, or they are within the limits
    and it is the cached call of the generation endpoint. *)
Lemma generateAudio_cases p :
  (exists msg, generateAudio env p = throw (mkError msg))
  \/ (audio_limits p
      /\ exists requestData,
           get requestData "prompt" = Some (JStr (ap_prompt p))
           /\ get requestData "callBackUrl" = Some (JStr (ap_callBackUrl p))
           /\ generateAudio env p
              = cachedApiCall env Suno "POST" "/v1/generate" requestData
                  no_options).
Proof.
  unfold generateAudio, audio_limits. cbv zeta.
  destruct (String.eqb_spec (ap_prompt p) ""); [left; eauto |].
  destruct (String.eqb_spec (ap_callBackUrl p) ""); [left; eauto |].
  destruct (default true (ap_customMode p)) eqn:Hmode; cbn [andb negb].
  - destruct (default false (ap_instrumental p)); cbn [andb negb].
    + destruct (present (ap_style p)); cbn [orb negb]; [| left; eauto].
      destruct (present (ap_title p)); cbn [orb negb]; [| left; eauto].
      destruct (Nat.ltb_spec 3000 (code_units (ap_prompt p)));
        [left; eauto |].
      destruct (longer_than (ap_style p) 200); [left; eauto |].
      destruct (longer_than (ap_title p) 80); [left; eauto |].
      right. split; [repeat split; try done |].
      eexists. split; [| split]; cycle 2; reflexivity.
    + destruct (present (ap_style p)); cbn [orb negb]; [| left; eauto].
      destruct (present (ap_title p)); cbn [orb negb]; [| left; eauto].
      destruct (Nat.ltb_spec 3000 (code_units (ap_prompt p)));
        [left; eauto |].
      destruct (longer_than (ap_style p) 200); [left; eauto |].
      destruct (longer_than (ap_title p) 80); [left; eauto |].
      right. split; [repeat split; try done |].
      eexists. split; [| split]; cycle 2; reflexivity.
  - rewrite ?andb_false_r. cbn [andb].
    destruct (Nat.ltb_spec 400 (code_units (ap_prompt p)));
      [left; eauto |].
    right. split; [repeat split; try done |].
    eexists. split; [| split]; cycle 2; reflexivity.
Qed.

(** X21.  The music service is never asked for a song outside the limits.
    [generateAudio] either throws a parameter error and leaves the world
    exactly as it was (no cache lookup, no request, no console line), or
    its parameters are within the limits and the call is the cached POST
    of the generation endpoint with the prompt and callback URL it was
    given. *)
Theorem audio_request_respects_limits p w :
  (exists msg, generateAudio env p w = (Thrown (mkError msg), w))
  \/ (audio_limits p
      /\ exists requestData,
           get requestData "prompt" = Some (JStr (ap_prompt p))
           /\ get requestData "callBackUrl" = Some (JStr (ap_callBackUrl p))
           /\ generateAudio env p w
              = cachedApiCall env Suno "POST" "/v1/generate" requestData
                  no_options w).
Proof.
  destruct (generateAudio_cases p) as [[msg E] | (Hlim & d & Hp & Hc & E)].
  - left. exists msg. by rewrite E.
  - right. split; [done |]. exists d. by rewrite E.
Qed.

(** A call that returned after sending its request, on a healthy
    database, left a successful row with its response and a fresh expiry
    under the fingerprint. *)
Lemma live_return_is_cached svc method endpoint params o w r :
  healthy env ->
  fst (cachedApiCall env svc method endpoint params o w) = Returned r ->
  requests (snd (cachedApiCall env svc method endpoint params o w))
    <> requests w ->
  exists row,
    apiCalls (snd (cachedApiCall env svc method endpoint params o w))
      !! generateRequestHash svc method endpoint params = Some row
    /\ ac_is_success row = true
    /\ ac_response row = r
    /\ ac_expires_at row
       = expiry (clock (snd (cachedApiCall env svc method endpoint params o w)))
           (default DEFAULT_CACHE_HOURS (cacheHours o)).
Proof.
  intros Hdb. unfold cachedApiCall.
  rewrite generateRequestHash_default.
  remember (generateRequestHash _ _ _ _) as h.
  unfold cache_read, live_call, record_failure, updateApiLimit,
    apiCall_findUnique, apiCall_upsert, apiLimit_upsert, db_access, axios_call,
    console_put, Date_now, try_catch, bind, gets, modify, ret, throw.
  cbv zeta. remember (axios_config _ _ _ _ _ _) as cfg.
  destruct (cache_disabled svc o); cbn.
  - destruct (axios env (length (requests w)) cfg) as [dt [e | reply]]; cbn;
      rewrite !Hdb; cbn; [done |].
    intros [= <-] _. rewrite lookup_insert_eq.
    destruct (apiCalls w !! h); eexists; done.
  - rewrite !Hdb. cbn.
    destruct (cache_hit (clock w) (apiCalls w !! h)); cbn; [done |].
    destruct (axios env (length (requests w)) cfg) as [dt [e | reply]]; cbn;
      rewrite !Hdb; cbn; [done |].
    intros [= <-] _. rewrite lookup_insert_eq.
    destruct (apiCalls w !! h); eexists; done.
Qed.

(** X22.  A song is not generated twice for the same parameters.  On a
    healthy database, when [generateAudio] returned after sending its
    request, a second call with the same parameters made within 24 hours,
    while the cache table is as the first call left it, sends nothing:
    it returns the response of the first call, and with it the same task
    id, and the rate counter is not touched. *)
Theorem resubmitted_audio_is_not_sent_again p w r w2 :
  healthy env ->
  let run1 := generateAudio env p w in
  fst run1 = Returned r ->
  requests (snd run1) <> requests w ->
  apiCalls w2 = apiCalls (snd run1) ->
  clock w2 < clock (snd run1) + 24 * 60 * 60 * 1000 ->
  let run2 := generateAudio env p w2 in
  fst run2 = Returned r
  /\ requests (snd run2) = requests w2
  /\ used Suno (snd run2) = used Suno w2.
Proof.
  intros Hdb. cbv zeta.
  destruct (generateAudio_cases p) as [[msg E] | (_ & d & _ & _ & E)];
    rewrite E; [done |].
  intros Hret Hsent Hcalls Hclock.
  destruct (live_return_is_cached Suno "POST" "/v1/generate" d no_options w r
              Hdb Hret Hsent) as (row & Hrow & Hok & Hresp & Hexp).
  rewrite <- Hcalls in Hrow.
  assert (Hhit : cache_hit (clock w2) (Some row) = Some (ac_response row)).
  { unfold cache_hit. rewrite Hok, Hexp. cbn.
    by rewrite (proj2 (Z.ltb_lt _ _)) by (unfold DEFAULT_CACHE_HOURS; lia). }
  rewrite (hit_run env Suno "POST" "/v1/generate" d no_options w2 row
             eq_refl (Hdb _) Hrow Hhit).
  cbn. by rewrite Hresp.
Qed.

(** X23.  The timestamped lyrics are always fetched.  For a task id that
    is not empty [getTimestampedLyrics] sends one POST to its endpoint,
    whatever the cache holds; the body carries the task id, the audio id
    when it is given and not empty, and the music index whenever it is
    given, 0 included. *)
Theorem timestamped_lyrics_are_always_fetched taskId audioId musicIndex w :
  taskId <> "" ->
  exists body,
    requests (snd (getTimestampedLyrics env taskId audioId musicIndex w))
    = requests w
        ++ [{| rq_method := "post";
               rq_url :=
                 "https://apibox.erweima.ai/api/v1/generate/get-timestamped-lyrics";
               rq_headers := getAuthHeaders env Suno;
               rq_params := JUndefined;
               rq_data := body |}]
    /\ get body "taskId" = Some (JStr taskId)
    /\ get body "audioId"
       = Some (match audioId with
               | Some a => if String.eqb a "" then JUndefined else JStr a
               | None => JUndefined
               end)
    /\ get body "musicIndex"
       = Some (match musicIndex with
               | Some i => JNum i
               | None => JUndefined
               end).
Proof.
  intros Hid.
  assert (Hne : String.eqb taskId "" = false) by (by apply String.eqb_neq).
  unfold getTimestampedLyrics. rewrite Hne.
  eexists. split.
  - rewrite miss_sends_request by (by left). reflexivity.
  - unfold optional_prop.
    destruct audioId as [a |]; [destruct (String.eqb a "") |];
      destruct musicIndex; done.
Qed.

End SunoCalls.

(* ===================================================================== *)
(** * All commits of a date range                                         *)
(* ===================================================================== *)

Section RangeFacts.
Variable env : Env.
Variables owner repo : string.
Variable options : list (string * JsValue).
Local Opaque String.append.

(** X24.  A stored list of commits is returned as it is.  While the row
    of the range fingerprint is successful and not expired and the
    database answers the lookup, [getAllCommitsInDateRange] returns the
    stored response without fetching any page: no request is sent and
    neither the cache table nor the rate counter changes, so commits
    pushed after the list was stored are not seen until the row
    expires. *)
Theorem stored_range_is_returned fuel w c :
  db_fault env (db_ops w) = None ->
  apiCalls w !! range_hash owner repo options = Some c ->
  cache_hit (clock w) (Some c) = Some (ac_response c) ->
  let run := getAllCommitsInDateRange env fuel owner repo options w in
  fst run = Returned (Some (ac_response c))
  /\ requests (snd run) = requests w
  /\ apiCalls (snd run) = apiCalls w
  /\ apiLimits (snd run) = apiLimits w.
Proof.
  intros Hdb Hrow Hhit.
  assert (E : getAllCommitsInDateRange env fuel owner repo options w
              = (Returned (Some (ac_response c)),
                 set_console
                   (console w
                      ++ [(Log, "Usando resultado cacheado para commits en rango")])
                   (set_db_ops (S (db_ops w)) w))).
  { unfold getAllCommitsInDateRange. cbv zeta.
    fold (range_hash owner repo options).
    unfold try_catch. unfold bind at 1.
    unfold apiCall_findUnique, bind at 1, db_access. rewrite Hdb.
    unfold gets at 1. cbn [fst snd apiCalls set_db_ops].
    unfold bind at 1, Date_now. unfold gets at 1.
    cbn [fst snd clock set_db_ops]. rewrite Hrow, Hhit.
    reflexivity. }
  cbv zeta. rewrite E. done.
Qed.

(** One page fetched through [getCommits] when its row is missing. *)
Lemma page_fetched page w dt st (items : list JsValue) :
  healthy env ->
  apiCalls w !! page_hash owner repo options page = None ->
  axios env (length (requests w)) (page_request env owner repo options page)
    = (dt, inr (st, JArr items)) ->
  exists w1,
    getCommits env owner repo (pageOptions options page) w
    = (Returned (JArr items), w1)
    /\ requests w1
       = requests w ++ [page_request env owner repo options page]
    /\ (forall h, h <> page_hash owner repo options page ->
          apiCalls w1 !! h = apiCalls w !! h).
Proof.
  intros Hdb Hnone Hreply.
  assert (Hmiss : reaches_upstream env Github
                    (page_hash owner repo options page) no_options w).
  { right. split; [apply Hdb |]. by rewrite Hnone. }
  destruct (live_success env Github "GET" (endpoint_commits owner repo)
              (commit_params (pageOptions options page)) no_options w dt
              (st, JArr items) Hmiss Hreply Hdb) as (Hres & Hcalls & _).
  pose proof (miss_sends_request env Github "GET" (endpoint_commits owner repo)
                (commit_params (pageOptions options page)) no_options w Hmiss)
    as Hreq.
  unfold getCommits, try_catch. cbn [default_object pageOptions].
  destruct (cachedApiCall env Github "GET" (endpoint_commits owner repo) _ _ w)
    as [res w1] eqn:E.
  cbn [fst snd] in *. subst res. exists w1.
  split; [reflexivity |]. split; [exact Hreq |].
  intros h Hh. rewrite Hcalls. by rewrite lookup_insert_ne.
Qed.

(** The page loop from the middle of its run. *)
Lemma fetch_pages_collects :
  healthy env ->
  forall (pages : list (list JsValue)) fuel page acc w,
    (length pages < fuel)%nat ->
    (forall i, (i <= length pages)%nat ->
       apiCalls w !! page_hash owner repo options (page + Z.of_nat i) = None) ->
    (forall i j, (i < j <= length pages)%nat ->
       page_hash owner repo options (page + Z.of_nat i)
       <> page_hash owner repo options (page + Z.of_nat j)) ->
    (forall i items, pages !! i = Some items ->
       items <> []
       /\ exists dt st,
            axios env (length (requests w) + i)%nat
              (page_request env owner repo options (page + Z.of_nat i))
            = (dt, inr (st, JArr items))) ->
    (exists dt st,
       axios env (length (requests w) + length pages)%nat
         (page_request env owner repo options
            (page + Z.of_nat (length pages)))
       = (dt, inr (st, JArr []))) ->
    exists w',
      fetch_pages env fuel owner repo options page acc w
      = (Returned (Some (acc ++ concat pages)), w')
      /\ requests w'
         = requests w
             ++ map (fun i => page_request env owner repo options
                                (page + Z.of_nat i))
                  (seq 0 (S (length pages))).
Proof.
  intros Hdb pages.
  induction pages as [| items pages IH];
    intros fuel page acc w Hfuel Hnone Hdist Hreply Hlast.
  - destruct fuel as [| fuel]; [cbn in Hfuel; lia |].
    destruct Hlast as (dt & st & Hlast). cbn [length] in Hlast.
    rewrite Nat.add_0_r, Z.add_0_r in Hlast.
    pose proof (Hnone 0%nat ltac:(lia)) as Hn. rewrite Z.add_0_r in Hn.
    destruct (page_fetched page w dt st [] Hdb Hn Hlast)
      as (w1 & Hrun & Hreq & _).
    exists w1. cbn [fetch_pages]. unfold bind at 1. rewrite Hrun.
    cbn. rewrite app_nil_r, Z.add_0_r. done.
  - destruct fuel as [| fuel]; [cbn in Hfuel; lia |].
    destruct (Hreply 0%nat items eq_refl) as (Hne & dt & st & Hfirst).
    rewrite Nat.add_0_r, Z.add_0_r in Hfirst.
    pose proof (Hnone 0%nat ltac:(lia)) as Hn. rewrite Z.add_0_r in Hn.
    destruct (page_fetched page w dt st items Hdb Hn Hfirst)
      as (w1 & Hrun & Hreq & Hother).
    assert (Hlen : length (requests w1) = S (length (requests w))).
    { rewrite Hreq, length_app. cbn. lia. }
    destruct (IH fuel (page + 1) (acc ++ items) w1) as (w' & Hrest & Hreqs).
    + cbn [length] in Hfuel. lia.
    + intros i Hi.
      replace (page + 1 + Z.of_nat i) with (page + Z.of_nat (S i)) by lia.
      rewrite Hother.
      * apply Hnone. cbn [length]. lia.
      * intros Heq.
        apply (Hdist 0%nat (S i)); [cbn [length]; lia |].
        by rewrite Z.add_0_r.
    + intros i j Hij.
      replace (page + 1 + Z.of_nat i) with (page + Z.of_nat (S i)) by lia.
      replace (page + 1 + Z.of_nat j) with (page + Z.of_nat (S j)) by lia.
      apply Hdist. cbn [length]. lia.
    + intros i items' Hi. rewrite Hlen.
      replace (page + 1 + Z.of_nat i) with (page + Z.of_nat (S i)) by lia.
      replace (S (length (requests w)) + i)%nat
        with (length (requests w) + S i)%nat by lia.
      by apply Hreply.
    + destruct Hlast as (dt' & st' & Hlast). exists dt', st'. rewrite Hlen.
      replace (page + 1 + Z.of_nat (length pages))
        with (page + Z.of_nat (length (items :: pages)))
        by (cbn [length]; lia).
      replace (S (length (requests w)) + length pages)%nat
        with (length (requests w) + length (items :: pages))%nat
        by (cbn [length]; lia).
      exact Hlast.
    + exists w'. cbn [fetch_pages]. unfold bind at 1. rewrite Hrun.
      unfold bind at 1, property.
      destruct items as [| item items]; [done |].
      cbn [get String.eqb Ascii.eqb Bool.eqb length spread_items ret fst snd].
      change (Z.of_nat (S (length items)))
        with (Z.pos (Pos.of_succ_nat (length items))).
      cbn [concat]. rewrite Hrest, <- app_assoc. split; [reflexivity |].
      rewrite Hreqs, Hreq, <- app_assoc. cbn [length].
      change (seq 0 (S (S (length pages))))
        with (0%nat :: seq 1 (S (length pages))).
      rewrite <- (seq_shift (S (length pages)) 0), map_cons, map_map.
      cbn [app]. change (Z.of_nat 0) with 0. rewrite Z.add_0_r.
      do 2 f_equal. apply map_ext. intros i. f_equal. lia.
Qed.

(** X25.  The page loop collects every page up to the first empty one.
    On a healthy database, when neither the list of the range nor any of
    its pages is in the cache, the page fingerprints are pairwise
    different, the upstream answers pages 1 to n with lists that are not
    empty and page n + 1 with the empty list, the call sends exactly these
    n + 1 requests in order, returns the pages concatenated in order, and
    stores that list under the range fingerprint as a success that expires
    24 hours later.  A range without commits costs one request and stores
    the empty list. *)
Theorem range_collects_every_page (pages : list (list JsValue)) fuel w :
  healthy env ->
  (length pages < fuel)%nat ->
  cache_hit (clock w) (apiCalls w !! range_hash owner repo options) = None ->
  (forall i, (i <= length pages)%nat ->
     apiCalls w !! page_hash owner repo options (1 + Z.of_nat i) = None) ->
  (forall i j, (i < j <= length pages)%nat ->
     page_hash owner repo options (1 + Z.of_nat i)
     <> page_hash owner repo options (1 + Z.of_nat j)) ->
  (forall i items, pages !! i = Some items ->
     items <> []
     /\ exists dt st,
          axios env (length (requests w) + i)%nat
            (page_request env owner repo options (1 + Z.of_nat i))
          = (dt, inr (st, JArr items))) ->
  (exists dt st,
     axios env (length (requests w) + length pages)%nat
       (page_request env owner repo options (1 + Z.of_nat (length pages)))
     = (dt, inr (st, JArr []))) ->
  let run := getAllCommitsInDateRange env fuel owner repo options w in
  fst run = Returned (Some (JArr (concat pages)))
  /\ requests (snd run)
     = requests w
         ++ map (fun i => page_request env owner repo options (1 + Z.of_nat i))
              (seq 0 (S (length pages)))
  /\ exists row,
       apiCalls (snd run) !! range_hash owner repo options = Some row
       /\ ac_response row = JArr (concat pages)
       /\ ac_is_success row = true
       /\ ac_status_code row = Some 200
       /\ ac_expires_at row
          = Some (clock (snd run) + 24 * 60 * 60 * 1000).
Proof.
  intros Hdb Hfuel Hmiss Hnone Hdist Hreply Hlast.
  set (w0 := set_db_ops (S (db_ops w)) w).
  destruct (fetch_pages_collects Hdb pages fuel 1 [] w0 Hfuel Hnone Hdist
              Hreply Hlast) as (w' & Hrun & Hreqs).
  assert (E : getAllCommitsInDateRange env fuel owner repo options w
              = (Returned (Some (JArr (concat pages))),
                 set_apiCalls
                   (<[range_hash owner repo options :=
                        match apiCalls w' !! range_hash owner repo options with
                        | Some row => range_update (concat pages) (clock w') row
                        | None =>
                            range_create owner repo
                              (range_hash owner repo options) options
                              (concat pages) (clock w')
                        end]> (apiCalls w'))
                   (set_db_ops (S (db_ops w')) w'))).
  { unfold getAllCommitsInDateRange. cbv zeta.
    fold (range_hash owner repo options).
    unfold try_catch. unfold bind at 1.
    unfold apiCall_findUnique, bind at 1, db_access. rewrite Hdb.
    unfold gets at 1. cbn [fst snd apiCalls set_db_ops].
    unfold bind at 1, Date_now. unfold gets at 1.
    cbn [fst snd clock set_db_ops]. rewrite Hmiss.
    unfold bind at 1. fold w0. rewrite Hrun. cbn [app].
    unfold bind at 1. unfold gets at 1. cbn [fst snd].
    unfold apiCall_upsert, bind, db_access, modify, ret. rewrite Hdb.
    reflexivity. }
  cbv zeta. rewrite E. unfold set_apiCalls, set_db_ops.
  cbn [fst snd requests apiCalls clock].
  split; [reflexivity |]. split; [exact Hreqs |].
  rewrite lookup_insert_eq.
  destruct (apiCalls w' !! range_hash owner repo options);
    eexists; (split; [reflexivity |]); done.
Qed.

End RangeFacts.

(* ===================================================================== *)
(** * The commit summary                                                  *)
(* ===================================================================== *)

Section SummaryFacts.
Import GithubSummary.
Implicit Types l m : list (string * Z).

Lemma total_cons (x : string * Z) l : total (x :: l) = snd x + total l.
Proof. reflexivity. Qed.

Lemma total_app l1 l2 : total (l1 ++ l2) = total l1 + total l2.
Proof.
  unfold total. induction l1 as [| x l1 IH]; cbn; [done |].
  unfold total in IH. cbn in IH. lia.
Qed.

Lemma total_perm l1 l2 : l1 ≡ₚ l2 -> total l1 = total l2.
Proof.
  induction 1 as [| x l1 l2 _ IH | x y l | l1 l2 l3 _ IH1 _ IH2];
    rewrite ?total_cons in *; lia.
Qed.

(** *** Counting by key *)

Lemma add_changes_total k d l : total (add_changes k d l) = total l + d.
Proof.
  induction l as [| [f c] l IH]; cbn [add_changes].
  - unfold total. cbn. lia.
  - destruct (String.eqb f k); rewrite !total_cons; cbn [snd]; lia.
Qed.

Lemma add_changes_elem k d l x :
  In x (map fst (add_changes k d l)) <-> x = k \/ In x (map fst l).
Proof.
  induction l as [| [f c] l IH]; cbn [add_changes map fst In].
  - intuition congruence.
  - destruct (String.eqb_spec f k) as [-> | Hne]; cbn [map fst In].
    + intuition congruence.
    + rewrite IH. intuition congruence.
Qed.

Lemma add_changes_NoDup k d l :
  NoDup (map fst l) -> NoDup (map fst (add_changes k d l)).
Proof.
  induction l as [| [f c] l IH]; cbn [add_changes map fst].
  - intros _. apply NoDup_singleton.
  - intros [Hout Hnd]%NoDup_cons.
    destruct (String.eqb_spec f k) as [-> | Hne]; cbn [map fst].
    + by apply NoDup_cons.
    + apply NoDup_cons. split; [| by apply IH].
      rewrite list_elem_of_In, add_changes_elem.
      rewrite list_elem_of_In in Hout. intuition congruence.
Qed.

Lemma entry_add_changes x k d l :
  entry x (add_changes k d l)
  = entry x l + (if String.eqb k x then d else 0).
Proof.
  unfold entry. induction l as [| [f c] l IH]; cbn [add_changes find fst].
  - destruct (String.eqb k x); cbn; lia.
  - destruct (String.eqb_spec f k) as [-> | Hne]; cbn [find fst].
    + destruct (String.eqb k x); cbn; lia.
    + destruct (String.eqb_spec f x) as [-> | Hne2]; cbn.
      * destruct (String.eqb_spec k x); [congruence | lia].
      * exact IH.
Qed.

Lemma entry_of_member k c l :
  NoDup (map fst l) -> In (k, c) l -> entry k l = c.
Proof.
  unfold entry. induction l as [| [f n] l IH]; cbn [map fst find In]; [done |].
  intros [Hout Hnd]%NoDup_cons Hin.
  destruct (String.eqb_spec f k) as [-> | Hne]; cbn.
  - destruct Hin as [[= ->] | Hin]; [done |].
    exfalso. apply Hout. apply list_elem_of_In.
    apply in_map_iff. by exists (k, c).
  - destruct Hin as [[= -> ->] | Hin]; [done |]. by apply IH.
Qed.

(** *** The authors *)

(** For a name that [authorsMap] does not inherit, counting an author is
    adding 1 to the entry of the name. *)
Lemma count_author_plain name m :
  inherited name = false ->
  count_author name (map (prod_map id Counted) m)
  = map (prod_map id Counted) (add_changes name 1 m).
Proof.
  intros Hname.
  induction m as [| [k n] m IH]; cbn [map prod_map count_author add_changes fst snd id].
  - unfold first_count. rewrite Hname.
    destruct (String.eqb_spec name "__proto__") as [-> | _]; [done |].
    reflexivity.
  - destruct (String.eqb k name); [done |]. by rewrite IH.
Qed.

Lemma authors_plain commits :
  Forall (fun c => inherited (authorName c) = false) commits ->
  forall m,
    fold_left (fun a c => count_author (authorName c) a) commits
      (map (prod_map id Counted) m)
    = map (prod_map id Counted)
        (fold_left (fun m c => add_changes (authorName c) 1 m) commits m).
Proof.
  induction 1 as [| c commits Hc _ IH]; intros m; cbn [fold_left]; [done |].
  by rewrite count_author_plain, IH.
Qed.

Lemma authors_fold commits :
  forall m,
    NoDup (map fst m) ->
    let m' := fold_left (fun m c => add_changes (authorName c) 1 m) commits m in
    NoDup (map fst m')
    /\ total m' = total m + Z.of_nat (length commits)
    /\ forall name, entry name m' = entry name m + commits_of name commits.
Proof.
  induction commits as [| c commits IH]; intros m Hnd; cbv zeta.
  - cbn [fold_left length]. repeat split; [done | lia |].
    intros. unfold commits_of. cbn [List.filter length]. lia.
  - cbn [fold_left].
    destruct (IH (add_changes (authorName c) 1 m)
                (add_changes_NoDup _ _ _ Hnd)) as (Hnd' & Htot & Hent).
    split; [exact Hnd' |]. split.
    + rewrite Htot, add_changes_total. cbn [length]. lia.
    + intros name. rewrite Hent, entry_add_changes.
      unfold commits_of. cbn [List.filter].
      destruct (String.eqb (authorName c) name); cbn [length]; lia.
Qed.

Lemma authors_positive commits :
  forall m,
    Forall (fun kv => 0 < snd kv) m ->
    Forall (fun kv => 0 < snd kv)
      (fold_left (fun m c => add_changes (authorName c) 1 m) commits m).
Proof.
  induction commits as [| c commits IH]; intros m Hm; cbn [fold_left];
    [done |].
  apply IH. clear IH.
  induction Hm as [| [k n] m Hk Hm IHm]; cbn [add_changes].
  - constructor; [cbn; lia | constructor].
  - cbn [snd] in Hk.
    destruct (String.eqb k (authorName c)); constructor; cbn [snd];
      try done; lia.
Qed.

Section Keys.
Context {V : Type}.
Implicit Types o : list (string * V).

Lemma insert_index_perm (x : string * V) o : insert_index x o ≡ₚ x :: o.
Proof.
  induction o as [| y o IH]; cbn; [done |].
  destruct (_ <? _)%N; [done |]. rewrite IH. apply perm_swap.
Qed.

Lemma own_properties_perm o : own_properties o ≡ₚ o.
Proof.
  unfold own_properties.
  assert (Hsort : forall o', fold_right insert_index [] o' ≡ₚ o').
  { induction o' as [| x o' IH]; cbn; [done |].
    by rewrite insert_index_perm, IH. }
  rewrite Hsort. clear Hsort.
  induction o as [| x o IH]; cbn; [done |].
  destruct (is_index x); cbn.
  - by rewrite IH.
  - rewrite <- Permutation_middle. by rewrite IH.
Qed.
End Keys.

(** [Object.keys] orders the properties by their names alone. *)
Lemma own_properties_map {V V'} (g : V -> V') (o : list (string * V)) :
  own_properties (map (prod_map id g) o)
  = map (prod_map id g) (own_properties o).
Proof.
  unfold own_properties. rewrite map_app. f_equal.
  - assert (Hins : forall x (o' : list (string * V)),
              insert_index (prod_map id g x) (map (prod_map id g) o')
              = map (prod_map id g) (insert_index x o')).
    { intros x o'. induction o' as [| y o' IH]; cbn; [done |].
      change (index_of (prod_map id g x)) with (index_of x).
      change (index_of (prod_map id g y)) with (index_of y).
      destruct (_ <? _)%N; cbn; [done | by rewrite IH]. }
    induction o as [| x o IH]; cbn; [done |].
    change (is_index (prod_map id g x)) with (is_index x).
    destruct (is_index x); cbn; [| exact IH]. by rewrite IH, Hins.
  - induction o as [| x o IH]; cbn; [done |].
    change (is_index (prod_map id g x)) with (is_index x).
    destruct (is_index x); cbn; [exact IH | by rewrite IH].
Qed.

(** X26.  The author counts of a summary add up.  When no commit has an
    author named like a property that every object inherits
    ([constructor], [toString], ...), every commit is counted under
    exactly one author (its author name, or "Unknown" when it has none):
    the authors are listed once each, the count of an author is the
    number of commits of that name and is positive, and the counts sum to
    [commitCount], the number of commits. *)
Theorem author_counts_add_up owner repo commits :
  Forall (fun c => inherited (authorName c) = false) commits ->
  let s := summarizeCommits owner repo commits in
  commitCount s = Z.of_nat (length commits)
  /\ NoDup (map fst (authors s))
  /\ Forall (fun kv => snd kv = Counted (commits_of (fst kv) commits)
                       /\ 0 < commits_of (fst kv) commits)
       (authors s)
  /\ fold_right Z.add 0
       (map (fun kv => commits_of (fst kv) commits) (authors s))
     = commitCount s.
Proof.
  intros Hplain. cbv zeta. unfold summarizeCommits.
  cbn [commitCount authors].
  pose proof (authors_plain commits Hplain []) as Hcounts.
  cbn [map] in Hcounts. rewrite Hcounts, own_properties_map. clear Hcounts.
  destruct (authors_fold commits [] (NoDup_nil_2)) as (Hnd & Htot & Hent).
  cbv zeta in Hnd, Htot, Hent.
  pose proof (authors_positive commits [] (Forall_nil_2 _)) as Hpos.
  set (m := fold_left (fun m c => add_changes (authorName c) 1 m) commits [])
    in *.
  pose proof (own_properties_perm m) as Hperm.
  assert (Hall : Forall (fun kv => snd kv = commits_of (fst kv) commits
                                   /\ 0 < snd kv) (own_properties m)).
  { rewrite Hperm. apply Forall_forall. intros [name c] Hin. cbn [fst snd].
    apply list_elem_of_In in Hin.
    pose proof (entry_of_member name c m Hnd Hin) as Hc.
    rewrite Hent in Hc. unfold entry in Hc at 1. cbn in Hc.
    split; [lia |].
    rewrite Forall_forall in Hpos.
    apply (Hpos (name, c)). by apply list_elem_of_In. }
  assert (Htotal : total (own_properties m) = Z.of_nat (length commits)).
  { rewrite (total_perm _ _ Hperm), Htot. unfold total. cbn. lia. }
  clear Hent Hpos Htot. revert Hall Htotal.
  assert (Hnd' : NoDup (map fst (own_properties m))) by (by rewrite Hperm).
  revert Hnd'. generalize (own_properties m). clear. intros l Hnd Hall Htotal.
  split; [done |]. split.
  { rewrite map_map. cbn. exact Hnd. }
  split.
  { apply Forall_map. eapply Forall_impl; [exact Hall |].
    intros [k n] [Hn Hp]. cbn in *. split; [by rewrite Hn | lia]. }
  rewrite <- Htotal. unfold total. rewrite map_map. f_equal.
  clear Hnd Htotal. induction Hall as [| [k n] l [Hn _] _ IH]; cbn; [done |].
  cbn in Hn. by rewrite Hn, IH at 1.
Qed.

(** *** The files *)

Lemma files_fold (files : list ChangedFile) :
  forall l,
    NoDup (map fst l) ->
    let l' := fold_left add_file files l in
    NoDup (map fst l')
    /\ total l'
       = total l
         + fold_right Z.add 0
             (map (fun f => cf_additions f + cf_deletions f) files)
    /\ forall x, In x (map fst l')
                 <-> In x (map fst l) \/ In x (map cf_filename files).
Proof.
  induction files as [| f files IH]; intros l Hnd; cbv zeta.
  - cbn [fold_left map fold_right In]. repeat split; [done | lia | tauto | tauto].
  - cbn [fold_left]. unfold add_file at 2 4 6.
    destruct (IH (add_changes (cf_filename f)
                    (cf_additions f + cf_deletions f) l)
                (add_changes_NoDup _ _ _ Hnd)) as (Hnd' & Htot & Hel).
    cbv zeta in Hnd', Htot, Hel.
    split; [exact Hnd' |]. split.
    + rewrite Htot, add_changes_total. cbn. lia.
    + intros x. rewrite Hel, add_changes_elem. cbn [map In].
      intuition congruence.
Qed.

Lemma sum_app (a b : list Z) :
  fold_right Z.add 0 (a ++ b) = fold_right Z.add 0 a + fold_right Z.add 0 b.
Proof. induction a as [| z a IH]; cbn; lia. Qed.

Lemma commits_fold commits :
  forall l,
    NoDup (map fst l) ->
    let l' := fold_left add_commit commits l in
    NoDup (map fst l')
    /\ total l'
       = total l
         + fold_right Z.add 0
             (map (fun f => cf_additions f + cf_deletions f)
                (files_of commits))
    /\ forall x, In x (map fst l')
                 <-> In x (map fst l)
                     \/ In x (map cf_filename (files_of commits)).
Proof.
  induction commits as [| c commits IH]; intros l Hnd; cbv zeta.
  - unfold files_of. cbn [fold_left map concat fold_right In].
    repeat split; [done | lia | tauto | tauto].
  - cbn [fold_left]. unfold add_commit at 2 4 6.
    destruct (files_fold (default [] (fc_files c)) l Hnd)
      as (Hnd1 & Htot1 & Hel1).
    cbv zeta in Hnd1, Htot1, Hel1.
    destruct (IH _ Hnd1) as (Hnd' & Htot & Hel).
    cbv zeta in Hnd', Htot, Hel.
    split; [exact Hnd' |]. split.
    + rewrite Htot, Htot1. unfold files_of. cbn [map concat].
      rewrite map_app, sum_app. lia.
    + intros x. rewrite Hel, Hel1. unfold files_of. cbn [map concat].
      rewrite map_app, in_app_iff. tauto.
Qed.

Lemma insert_ranked_perm x l : insert_ranked x l ≡ₚ x :: l.
Proof.
  induction l as [| y l IH]; cbn; [done |].
  destruct (_ <=? _); [done |]. rewrite IH. apply perm_swap.
Qed.

Lemma sort_ranked_perm l : sort_ranked l ≡ₚ l.
Proof.
  unfold sort_ranked. induction l as [| x l IH]; cbn; [done |].
  by rewrite insert_ranked_perm, IH.
Qed.

Lemma insert_ranked_sorted x l :
  StronglySorted (fun a b => snd b <= snd a) l ->
  StronglySorted (fun a b => snd b <= snd a) (insert_ranked x l).
Proof.
  induction 1 as [| y l Hs IH Hy]; cbn.
  - repeat constructor.
  - destruct (Z.leb_spec (snd y) (snd x)).
    + constructor; [by constructor |].
      constructor; [done |].
      eapply Forall_impl; [exact Hy |]. cbn. intros z Hz. lia.
    + constructor; [exact IH |].
      rewrite (insert_ranked_perm x l). constructor; [lia | exact Hy].
Qed.

Lemma sort_ranked_sorted l :
  StronglySorted (fun a b => snd b <= snd a) (sort_ranked l).
Proof.
  unfold sort_ranked. induction l as [| x l IH]; cbn; [constructor |].
  by apply insert_ranked_sorted.
Qed.

(** X27.  The most changed files of a summary.  Every file of every
    commit is listed exactly once, under its file name; the list is in
    descending order of changes, and its changes sum to the additions and
    deletions of all files of all commits. *)
Theorem changed_files_are_ranked owner repo commits :
  let s := summarizeCommits owner repo commits in
  NoDup (map fst (mostChangedFiles s))
  /\ StronglySorted (fun a b => snd b <= snd a) (mostChangedFiles s)
  /\ total (mostChangedFiles s) = all_changes commits
  /\ forall name,
       In name (map fst (mostChangedFiles s))
       <-> exists c files f,
             In c commits /\ fc_files c = Some files /\ In f files
             /\ cf_filename f = name.
Proof.
  cbv zeta. unfold summarizeCommits. cbn [mostChangedFiles].
  destruct (commits_fold commits [] (NoDup_nil_2)) as (Hnd & Htot & Hel).
  cbv zeta in Hnd, Htot, Hel.
  set (l := fold_left add_commit commits []) in *.
  pose proof (sort_ranked_perm l) as Hperm.
  split; [by rewrite Hperm |].
  split; [apply sort_ranked_sorted |]. split.
  { rewrite (total_perm _ _ Hperm), Htot. unfold all_changes, total.
    cbn. lia. }
  intros name.
  assert (Hsame : In name (map fst (sort_ranked l)) <-> In name (map fst l)).
  { rewrite <- !list_elem_of_In. by rewrite Hperm. }
  rewrite Hsame, Hel. cbn [map In]. split.
  - intros [[] | Hin].
    apply in_map_iff in Hin as (f & <- & Hf).
    unfold files_of in Hf. apply in_concat in Hf as (fs & Hfs & Hf).
    apply in_map_iff in Hfs as (c & <- & Hc).
    destruct (fc_files c) as [files |] eqn:E; cbn in Hf; [| done].
    by exists c, files, f.
  - intros (c & files & f & Hc & Hfiles & Hf & <-). right.
    apply in_map_iff. exists f. split; [done |].
    unfold files_of. apply in_concat. exists files. split; [| done].
    apply in_map_iff. exists c. by rewrite Hfiles.
Qed.

End SummaryFacts.

(* ===================================================================== *)
(** * The endpoints                                                       *)
(* ===================================================================== *)

Section EndpointFacts.
Import KaraokeService.
Variable env : Env.
Local Opaque String.append.

(** X28.  The callback and task status endpoints answer every request.
    No error of the service escapes them: the callback endpoint responds
    with the result of the service, or with status 500 and the message of
    the error the service threw, which for a body without a [data] field
    names that field; the task status endpoint responds 400 to an empty
    task id without calling the service, and otherwise with the result of
    the poll or with status 500 and the message of its error. *)
Theorem endpoints_always_answer callbackData taskId w :
  (exists resp,
     fst (KaraokeController.handleSunoCallback env callbackData w)
     = Returned resp
     /\ match fst (handleSunoCallback env callbackData w) with
        | Returned result =>
            KaraokeController.rs_status resp = None
            /\ KaraokeController.rs_data resp = Some result
        | Thrown error =>
            KaraokeController.rs_status resp = Some 500
            /\ KaraokeController.rs_message resp
               = "Failed to process callback: " +:+ message error
            /\ KaraokeController.rs_data resp = None
        end
     /\ (callback_invalid callbackData = true ->
         KaraokeController.rs_message resp
         = "Failed to process callback: "
             +:+ ("Error handling Suno callback: " +:+ invalid_callback)))
  /\ (exists resp,
        fst (KaraokeController.checkSongTaskStatus env taskId w)
        = Returned resp
        /\ if String.eqb taskId "" then
             KaraokeController.rs_status resp = Some 400
             /\ snd (KaraokeController.checkSongTaskStatus env taskId w) = w
           else
             match fst (checkSongStatus env taskId w) with
             | Returned result =>
                 KaraokeController.rs_status resp = None
                 /\ KaraokeController.rs_data resp = Some result
             | Thrown error =>
                 KaraokeController.rs_status resp = Some 500
                 /\ KaraokeController.rs_message resp
                    = "Failed to check task status: " +:+ message error
             end).
Proof.
  split.
  - pose proof (refused_callback_outcome env callbackData w) as Hbad.
    unfold KaraokeController.handleSunoCallback, try_catch, bind.
    destruct (handleSunoCallback env callbackData w) as [[result | error] w1];
      cbn [fst snd] in *.
    + eexists. split; [reflexivity |]. split; [done |].
      intros Hinv. by specialize (Hbad Hinv).
    + eexists. split; [reflexivity |]. split; [done |].
      intros Hinv. specialize (Hbad Hinv). cbn. by simplify_eq.
  - unfold KaraokeController.checkSongTaskStatus, try_catch.
    destruct (String.eqb taskId ""); [by eexists |].
    unfold bind.
    destruct (checkSongStatus env taskId w) as [[result | error] w1];
      cbn [fst snd]; by eexists.
Qed.

End EndpointFacts.

(* ===================================================================== *)
(** * The further properties at concrete inputs                           *)
(* ===================================================================== *)

Section MoreExamples.
Import Fixtures.

Example includes_failed :
  includes "GENERATE_AUDIO_FAILED" "FAILED" = true
  /\ includes "PENDING" "FAILED" = false
  /\ includes_method (JNum 3) "FAILED" = None.
Proof. repeat split; reflexivity. Qed.

(** ** The cache at an input *)

Lemma repeated_call_served_from_cache_witness :
  let run1 := cachedApiCall env_up Github "GET" repo_endpoint JUndefined
                no_options w_empty in
  let run2 := cachedApiCall env_up Github "GET" repo_endpoint JUndefined
                no_options (set_clock 5000 (snd run1)) in
  used Github (snd run1) = 1
  /\ fst run2 = Returned (task_reply "SUCCESS")
  /\ length (requests (snd run2)) = 1%nat
  /\ used Github (snd run2) = 1.
Proof.
  destruct (repeated_call_served_from_cache env_up Github "GET" repo_endpoint
              JUndefined no_options no_options w_empty 120
              (200, task_reply "SUCCESS")
              (set_clock 5000
                 (snd (cachedApiCall env_up Github "GET" repo_endpoint
                         JUndefined no_options w_empty))))
    as (_ & Hused & Hres & Hreq & Hused2).
  - right. split; reflexivity.
  - reflexivity.
  - intros n. reflexivity.
  - reflexivity.
  - reflexivity.
  - right. vm_compute. reflexivity.
  - cbv zeta. rewrite Hused, Hres, Hreq, Hused2.
    repeat split; vm_compute; reflexivity.
Defined.

Lemma stale_row_is_refreshed_witness :
  let run := cachedApiCall env_up Github "GET" repo_endpoint JUndefined
               no_options w_expired in
  fst run = Returned (task_reply "SUCCESS")
  /\ length (requests w_expired) = 1%nat
  /\ length (requests (snd run)) = 2%nat.
Proof.
  destruct (stale_row_is_refreshed env_up Github "GET" repo_endpoint JUndefined
              no_options w_expired row_cached 120 (200, task_reply "SUCCESS"))
    as (Hres & Hreq & _).
  - vm_compute. reflexivity.
  - vm_compute. reflexivity.
  - intros n. reflexivity.
  - reflexivity.
  - cbv zeta. rewrite Hres, Hreq. repeat split; vm_compute; reflexivity.
Defined.

Lemma lookup_error_sends_nothing_witness :
  let run := cachedApiCall (env_db_fails_at 0) Github "GET" repo_endpoint
               JUndefined no_options w_empty in
  requests (snd run) = []
  /\ fst run = Thrown (mkError "Can't reach database server").
Proof.
  destruct (lookup_error_sends_nothing (env_db_fails_at 0) Github "GET"
              repo_endpoint JUndefined no_options w_empty
              "Can't reach database server")
    as (Hreq & _ & Hres & _).
  - reflexivity.
  - reflexivity.
  - split; [exact Hreq | exact Hres].
Defined.

Lemma counter_write_error_keeps_the_reply_witness :
  let run := cachedApiCall (env_db_fails_at 2) Github "GET" repo_endpoint
               JUndefined no_options w_empty in
  fst run = Returned (task_reply "SUCCESS")
  /\ used Github (snd run) = 0.
Proof.
  destruct (counter_write_error_keeps_the_reply (env_db_fails_at 2) Github
              "GET" repo_endpoint JUndefined no_options w_empty 120
              (200, task_reply "SUCCESS") "Can't reach database server")
    as (Hres & Hused & _).
  - right. split; reflexivity.
  - reflexivity.
  - reflexivity.
  - reflexivity.
  - split; [exact Hres | exact Hused].
Defined.


(** ** Waiting at an input *)

(** Three polls find the task pending, the fourth finds it done. *)
Lemma wait_returns_the_first_success_witness :
  let run := waitForTaskCompletion env_pending_then_success "T1" (Some 5)
               (Some 5000) (Some "audio") w_empty in
  fst run = Returned (task_reply "SUCCESS")
  /\ length (requests (snd run)) = 4%nat
  /\ used Suno (snd run) = 4.
Proof.
  destruct (wait_returns_the_first_success env_pending_then_success "T1" 5
              5000 "audio" w_empty
              (replicate 3 (100, (200, task_reply "PENDING"))) 120
              (200, task_reply "SUCCESS"))
    as (Hres & Hreq & Hused).
  - discriminate.
  - intros n. reflexivity.
  - reflexivity.
  - intros [| [| [| i]]] r Hr; cbn in Hr; [| | | done];
      injection Hr as <-; (split; [reflexivity |]);
      (split; [reflexivity | right; reflexivity]).
  - reflexivity.
  - reflexivity.
  - cbv zeta. rewrite Hres, Hreq, Hused.
    repeat split; vm_compute; reflexivity.
Defined.

(** The task stays pending: three polls, then the wait gives up. *)
Lemma wait_gives_up_after_max_attempts_witness :
  let run := waitForTaskCompletion (env_status "PENDING") "T1" (Some 3)
               (Some 5000) (Some "audio") w_empty in
  fst run = Thrown (mkError "Task did not complete after 3 attempts")
  /\ length (requests (snd run)) = 3%nat.
Proof.
  destruct (wait_gives_up_after_max_attempts (env_status "PENDING") "T1" 3
              5000 "audio" w_empty)
    as (Hres & Hreq).
  - discriminate.
  - intros n. reflexivity.
  - intros i _. exists 100, (200, task_reply "PENDING").
    split; [reflexivity |]. split; [reflexivity | right; reflexivity].
  - cbv zeta. rewrite Hres, Hreq. split; vm_compute; reflexivity.
Defined.

Lemma song_wait_is_bounded_witness :
  let run := KaraokeService.waitForSongCompletion (env_status "PENDING") "T1"
               (Some 3) (Some 5000) w_pending in
  (length (requests (snd run)) <= 3)%nat
  /\ songs (snd run) = songs w_pending.
Proof.
  destruct (song_wait_is_bounded (env_status "PENDING") "T1" 3 5000 w_pending)
    as ((n & Hn & Hreq) & Hsongs & _).
  - discriminate.
  - cbv zeta. rewrite Hreq, Hsongs. split; [| reflexivity].
    rewrite length_app, length_replicate. cbn. lia.
Defined.

Lemma song_wait_stops_at_failure_witness :
  let run := KaraokeService.waitForSongCompletion
               (env_status "GENERATE_AUDIO_FAILED") "T1" (Some 60) (Some 5000)
               w_pending in
  fst run
  = Thrown (mkError
      ("Error waiting for song completion: "
         +:+ "Song generation failed with status: GENERATE_AUDIO_FAILED"))
  /\ length (requests (snd run)) = 1%nat.
Proof.
  destruct (song_wait_stops_at_failure (env_status "GENERATE_AUDIO_FAILED")
              "T1" 60 5000 w_pending 100
              (200, task_reply "GENERATE_AUDIO_FAILED"))
    as (Hres & Hreq & _).
  - discriminate.
  - intros n. reflexivity.
  - reflexivity.
  - split; [reflexivity | left; reflexivity].
  - cbv zeta. rewrite Hres, Hreq. split; vm_compute; reflexivity.
Defined.


(** ** Callbacks at an input *)

Lemma invalid_callback_is_refused_witness :
  fst (KaraokeService.handleSunoCallback env_up (JObj [("code", JNum 200)])
         w_pending)
  = Thrown (mkError
      ("Error handling Suno callback: " +:+ KaraokeService.invalid_callback))
  /\ songs (snd (KaraokeService.handleSunoCallback env_up
                   (JObj [("code", JNum 200)]) w_pending))
     = songs w_pending.
Proof.
  destruct (invalid_callback_is_refused env_up (JObj [("code", JNum 200)])
              w_pending)
    as ((Hres & lines & Hw) & _).
  - reflexivity.
  - rewrite Hres, Hw. split; reflexivity.
Defined.

(** The object store refuses the file of the track: the "complete"
    callback for the pending task T1 fails after the file was fetched,
    and the song stays pending. *)
Lemma failed_download_leaves_song_as_it_was_witness :
  let run := KaraokeService.handleSunoCallback env_no_upload
               (callback "T1" "complete") w_pending in
  fst run
  = Thrown (mkError
      ("Error handling Suno callback: "
         +:+ "Error downloading song: Upload refused"))
  /\ (song_status <$> songs (snd run)) = ["pending"]
  /\ length (requests (snd run)) = 1%nat
  /\ db_ops (snd run) = 0%nat.
Proof.
  pose (w1 := snd (downloadAndSaveSongFromCallback env_no_upload
                     (callback "T1" "complete")
                     (snd ((console_put Log "Received Suno callback" ;;;
                            console_put Log
                              "Downloading song files from callback...")%js
                             w_pending)))).
  destruct (failed_download_leaves_song_as_it_was env_no_upload
              (callback "T1" "complete") w_pending
              (mkError "Error downloading song: Upload refused") w1)
    as (Hres & Hw & Hops & Hsongs & _).
  - reflexivity.
  - vm_compute. reflexivity.
  - cbv zeta. rewrite Hres, Hsongs, Hops, Hw. repeat split; reflexivity.
Defined.

(** The second of two tracks cannot be stored: the attachment of the
    first track is in the table, the song was not looked up and stays
    pending. *)
Example second_track_refused :
  let run := KaraokeService.handleSunoCallback env_one_upload
               (callback_two_tracks "T1" "complete") w_pending in
  (exists e, fst run = Thrown e)
  /\ length (attachments (snd run)) = 1%nat
  /\ db_ops (snd run) = 1%nat
  /\ length (requests (snd run)) = 2%nat
  /\ (song_status <$> songs (snd run)) = ["pending"]
  /\ audioFiles (snd run) = [].
Proof.
  cbv zeta. split; [eexists; vm_compute; reflexivity |].
  repeat split; vm_compute; reflexivity.
Qed.


Lemma lyrics_callback_replaces_lyrics_only_witness :
  let run := KaraokeService.handleSunoCallbackLyrics env_up
               (lyrics_callback "T1" "Green build, at last") w_pending in
  Forall2
    (fun r r' =>
       if song_id r =? 1
       then KaraokeService.lyrics_replaced "Green build, at last" 1000 r r'
       else r' = r)
    (songs w_pending) (songs (snd run))
  /\ audioFiles (snd run) = [].
Proof.
  destruct (lyrics_callback_replaces_lyrics_only env_up
              (lyrics_callback "T1" "Green build, at last") w_pending "T1"
              song_T1 "Green build, at last")
    as (_ & Haf & Hsongs).
  - intros n. reflexivity.
  - reflexivity.
  - reflexivity.
  - reflexivity.
  - reflexivity.
  - cbv zeta. split; [exact Hsongs | exact Haf].
Defined.

(** ** Storing at an input *)

Lemma repository_is_created_once_witness :
  let run1 := KaraokeService.findOrCreateRepoId env_up "octocat" "hello"
                "https://github.com/octocat/hello" w_empty in
  let run2 := KaraokeService.findOrCreateRepoId env_up "octocat" "hello"
                "https://github.com/Octocat/Hello.git" (snd run1) in
  fst run2 = fst run1
  /\ repositories (snd run2) = repositories (snd run1).
Proof.
  destruct (repository_is_created_once env_up "octocat" "hello"
              "https://github.com/octocat/hello"
              "https://github.com/Octocat/Hello.git" w_empty)
    as (id & row & Hres & _ & _ & _ & Hagain).
  - intros n. reflexivity.
  - destruct (Hagain _ eq_refl) as (Hres2 & Hrows).
    cbv zeta. rewrite Hres2, Hres, Hrows. split; reflexivity.
Defined.

Lemma missing_task_id_stops_the_run_witness :
  let run := KaraokeService.generateSongFromRepo_submit env_no_task "octocat"
               "hello" "https://github.com/octocat/hello" "Rock" true
               "https://api.example" "Late night, red build"
               "Merge Conflict Blues" summary w_empty in
  fst run
  = Thrown (mkError
      ("Error generating song from repository: "
         +:+ KaraokeService.no_task_message (JObj [("code", JNum 429)])))
  /\ length (requests (snd run)) = 1%nat
  /\ uploads (snd run) = []
  /\ songs (snd run) = [].
Proof.
  pose (w1 := snd (KaraokeService.submit_to_suno env_no_task "Rock" true
                     "https://api.example" "Late night, red build"
                     "Merge Conflict Blues"
                     (snd (console_put Log "Generating final audio with Suno API"
                             w_empty)))).
  destruct (missing_task_id_stops_the_run env_no_task "octocat" "hello"
              "https://github.com/octocat/hello" "Rock" true
              "https://api.example" "Late night, red build"
              "Merge Conflict Blues" summary w_empty
              (JObj [("code", JNum 429)]) w1)
    as (Hres & Hreq & _ & Hup & Hsongs & _).
  - vm_compute. reflexivity.
  - reflexivity.
  - cbv zeta. rewrite Hres, Hreq, Hup, Hsongs.
    repeat split; vm_compute; reflexivity.
Defined.

Lemma submission_stores_a_pending_song_witness :
  let run := KaraokeService.generateSongFromRepo_submit env_cover "octocat"
               "hello" "https://github.com/octocat/hello" "Rock" false
               "https://api.example" "Late night, red build"
               "Merge Conflict Blues" summary w_empty in
  exists row,
    songs (snd run) = [row]
    /\ song_status row = "pending"
    /\ song_suno_task_id row = Some "T1"
    /\ song_cover_image_url row
       = Some "https://cdn.example/upload/2025/01/00000000-cover.png".
Proof.
  pose (w1 := snd (KaraokeService.submit_to_suno env_cover "Rock" false
                     "https://api.example" "Late night, red build"
                     "Merge Conflict Blues"
                     (snd (console_put Log "Generating final audio with Suno API"
                             w_empty)))).
  pose (cover := KaraokeService.cover_step env_cover "Merge Conflict Blues"
                   "Rock"
                   (snd (console_put Log
                           "Song generation task initiated with ID: T1" w1))).
  destruct (submission_stores_a_pending_song env_cover "octocat" "hello"
              "https://github.com/octocat/hello" "Rock" false
              "https://api.example" "Late night, red build"
              "Merge Conflict Blues" summary w_empty (task_reply "PENDING") w1
              "T1" (cover_of cover) (snd cover))
    as (_ & row & repoRow & Hsongs & Hst & Htask & _ & _ & _ & Hcover & _).
  - intros n. reflexivity.
  - vm_compute. reflexivity.
  - reflexivity.
  - vm_compute. reflexivity.
  - reflexivity.
  - exists row. cbv zeta. rewrite Hsongs. by repeat split.
Defined.

(** The task T1 already has a song: the run fails at the storing step. *)
Lemma known_task_id_is_not_stored_twice_witness :
  let run := KaraokeService.generateSongFromRepo_submit env_cover "octocat"
               "hello" "https://github.com/octocat/hello" "Rock" false
               "https://api.example" "Late night, red build"
               "Merge Conflict Blues" summary w_pending in
  fst run
  = Thrown (mkError
      ("Error generating song from repository: "
         +:+ "Unique constraint failed on the fields: (`suno_task_id`)"))
  /\ songs (snd run) = [song_T1].
Proof.
  pose (w1 := snd (KaraokeService.submit_to_suno env_cover "Rock" false
                     "https://api.example" "Late night, red build"
                     "Merge Conflict Blues"
                     (snd (console_put Log "Generating final audio with Suno API"
                             w_pending)))).
  pose (cover := KaraokeService.cover_step env_cover "Merge Conflict Blues"
                   "Rock"
                   (snd (console_put Log
                           "Song generation task initiated with ID: T1" w1))).
  destruct (known_task_id_is_not_stored_twice env_cover "octocat" "hello"
              "https://github.com/octocat/hello" "Rock" false
              "https://api.example" "Late night, red build"
              "Merge Conflict Blues" summary w_pending (task_reply "PENDING")
              w1 "T1" (cover_of cover) (snd cover) song_T1)
    as (Hres & Hsongs).
  - intros n. reflexivity.
  - vm_compute. reflexivity.
  - reflexivity.
  - vm_compute. reflexivity.
  - reflexivity.
  - cbv zeta. rewrite Hres, Hsongs. split; reflexivity.
Defined.


(** ** The music service at an input *)

(** The same song asked for twice within a minute: one request. *)
Lemma resubmitted_audio_is_not_sent_again_witness :
  let run1 := generateAudio env_up audio_params w_empty in
  let run2 := generateAudio env_up audio_params
                (set_clock 60000 (snd run1)) in
  fst run2 = Returned (task_reply "SUCCESS")
  /\ length (requests (snd run2)) = 1%nat
  /\ used Suno (snd run2) = 1.
Proof.
  destruct (resubmitted_audio_is_not_sent_again env_up audio_params w_empty
              (task_reply "SUCCESS")
              (set_clock 60000 (snd (generateAudio env_up audio_params w_empty))))
    as (Hres & Hreq & Hused).
  - intros n. reflexivity.
  - vm_compute. reflexivity.
  - vm_compute. discriminate.
  - reflexivity.
  - vm_compute. reflexivity.
  - cbv zeta. rewrite Hres, Hreq, Hused.
    repeat split; vm_compute; reflexivity.
Defined.

Lemma timestamped_lyrics_are_always_fetched_witness :
  length (requests (snd (getTimestampedLyrics env_up "T1" (Some "a1") (Some 0)
                           w_polled)))
  = 2%nat.
Proof.
  destruct (timestamped_lyrics_are_always_fetched env_up "T1" (Some "a1")
              (Some 0) w_polled)
    as (body & Hreq & _).
  - discriminate.
  - rewrite Hreq, length_app. reflexivity.
Defined.

(** ** The commits of a range at an input *)

Lemma range_collects_every_page_witness :
  let run := getAllCommitsInDateRange env_two_pages 3 "octocat" "hello"
               this_week w_empty in
  fst run = Returned (Some (JArr [commit "c1"; commit "c2"; commit "c3"]))
  /\ length (requests (snd run)) = 3%nat.
Proof.
  destruct (range_collects_every_page env_two_pages "octocat" "hello" this_week
              [[commit "c1"; commit "c2"]; [commit "c3"]] 3 w_empty)
    as (Hres & Hreq & _).
  - intros n. reflexivity.
  - cbn. lia.
  - reflexivity.
  - intros i Hi. reflexivity.
  - intros i j Hij. cbn [length] in Hij.
    assert (Hcases : ((i = 0 /\ j = 1) \/ (i = 0 /\ j = 2)
                      \/ (i = 1 /\ j = 2))%nat) by lia.
    destruct Hcases as [[-> ->] | [[-> ->] | [-> ->]]];
      vm_compute; discriminate.
  - intros [| [| i]] items Hi; cbn in Hi; [| | done];
      injection Hi as <-; (split; [discriminate |]);
      exists 90, 200; reflexivity.
  - exists 90, 200. reflexivity.
  - cbv zeta. rewrite Hres, Hreq. split; [reflexivity |].
    rewrite length_app, length_map, length_seq. reflexivity.
Defined.

(** The list stored by that run is returned an hour later, although the
    upstream would now answer with other commits. *)
Lemma stored_range_is_returned_witness :
  let run := getAllCommitsInDateRange env_up 0 "octocat" "hello" this_week
               (set_clock 3600000 w_collected) in
  fst run = Returned (Some (JArr [commit "c1"; commit "c2"; commit "c3"]))
  /\ length (requests (snd run)) = 3%nat.
Proof.
  edestruct (stored_range_is_returned env_up "octocat" "hello" this_week 0
               (set_clock 3600000 w_collected))
    as (Hres & Hreq & _).
  - reflexivity.
  - vm_compute. reflexivity.
  - vm_compute. reflexivity.
  - cbv zeta. rewrite Hres, Hreq. split; vm_compute; reflexivity.
Defined.

(** ** The summary at an input *)

Lemma author_counts_add_up_witness :
  let s := GithubSummary.summarizeCommits "octocat" "hello" week_commits in
  GithubSummary.authors s
  = [("7", GithubSummary.Counted 1); ("ada", GithubSummary.Counted 2);
     ("Unknown", GithubSummary.Counted 1)]
  /\ fold_right Z.add 0
       (map (fun kv => GithubSummary.commits_of (fst kv) week_commits)
          (GithubSummary.authors s)) = 4.
Proof.
  destruct (author_counts_add_up "octocat" "hello" week_commits)
    as (Hcount & _ & _ & Hsum).
  - repeat constructor.
  - cbv zeta. split; [reflexivity |]. rewrite Hsum, Hcount. reflexivity.
Defined.

(** An author named like an inherited property is not counted as a
    number: two commits by "constructor" leave a text, a commit by
    "__proto__" leaves no entry, and the counts no longer add up to the
    three commits. *)
Example inherited_author_names :
  let s := GithubSummary.summarizeCommits "octocat" "hello"
             [formatted (Some "constructor") [];
              formatted (Some "__proto__") [];
              formatted (Some "constructor") []] in
  GithubSummary.commitCount s = 3
  /\ GithubSummary.authors s
     = [("constructor",
         GithubSummary.Text "function Object() { [native code] }11")].
Proof. split; vm_compute; reflexivity. Qed.

Lemma changed_files_are_ranked_witness :
  let s := GithubSummary.summarizeCommits "octocat" "hello" week_commits in
  GithubSummary.mostChangedFiles s
  = [("package.json", 41); ("src/app.js", 18); ("README.md", 11)]
  /\ GithubSummary.total (GithubSummary.mostChangedFiles s) = 70.
Proof.
  destruct (changed_files_are_ranked "octocat" "hello" week_commits)
    as (_ & _ & Htotal & _).
  cbv zeta. split; [reflexivity |]. rewrite Htotal. reflexivity.
Defined.

End MoreExamples.
